(** * The resilient data-fetching layer of crypto-stock-tracker

    A shallow embedding of [app/utils/networkService.ts] (the class
    [NetworkService]: request cache, in-flight deduplication, retry loop,
    metrics recorder) and of the hook [useDataFetch] of
    [app/utils/useDataFetch.ts], with the properties the specification
    states about them.

    Conventions.
    - A JavaScript [number] that the code uses as a count, a duration in
      milliseconds or a timestamp is a [Z]; fractional values, [NaN] and the
      infinities are outside the model.
    - A JavaScript [Map] whose iteration order the code relies on (the
      cache) is an association list in insertion order; the two other maps
      are [gmap]s.
    - An object whose properties are enumerated ([RequestConfig], which
      goes through [JSON.stringify]) is the list of its properties in
      property order.
    - An [async] method is a resumption: its synchronous sections are
      state-passing functions on the [World], its [await]s are the points
      where the environment and the other tasks may run. The event loop
      is single-threaded, so a synchronous section is one step.
    - The network, the timers, the clocks and the callers are the
      environment: a physical fetch may settle in any of three ways, a
      signal may be aborted and time may pass at any suspension point. *)

From Stdlib Require Import ZArith String Ascii List Lia Bool DecimalString.
From Stdlib Require QArith DecimalPos DecimalZ.
From stdpp Require Import base gmap list strings.

Set Warnings "-register-all".

Local Open Scope string_scope.
Local Open Scope list_scope.
Local Open Scope Z_scope.

(** ** JavaScript values *)

Module JS.

(** The values [response.json()] can produce. *)
Inductive JSON : Type :=
| JNull
| JBool (b : bool)
| JNum (n : Z)
| JStr (s : string)
| JArr (items : list JSON)
| JObj (props : list (string * JSON)).

(** An [Error] object, as far as the code inspects it. *)
Record JsError : Type := mkError { name : string; message : string }.

Definition Error (msg : string) : JsError := mkError "Error" msg.
Definition TypeError (msg : string) : JsError := mkError "TypeError" msg.
Definition SyntaxError (msg : string) : JsError := mkError "SyntaxError" msg.
(** What [fetch] rejects with once its [AbortController] has aborted. *)
Definition AbortError : JsError :=
  mkError "AbortError" "The operation was aborted.".

(** How an asynchronous call ends. *)
Inductive Outcome (A : Type) : Type :=
| Returned (a : A)
| Threw (e : JsError).
Arguments Returned {A} a.
Arguments Threw {A} e.

(** [String(n)] for an integer. *)
Definition string_of_Z (n : Z) : string := NilZero.string_of_int (Z.to_int n).

Definition dquote : string := String (ascii_of_nat 34) EmptyString.
Definition backslash : ascii := ascii_of_nat 92.

(** The body of a string literal: quote and backslash are escaped. *)
Fixpoint escape (s : string) : string :=
  match s with
  | EmptyString => EmptyString
  | String c r =>
      if (Ascii.eqb c (ascii_of_nat 34) || Ascii.eqb c backslash)%bool
      then String backslash (String c (escape r))
      else String c (escape r)
  end.

Definition quote (s : string) : string := dquote +:+ escape s +:+ dquote.

(** [JSON.stringify] on the values above. *)
Fixpoint stringify (v : JSON) : string :=
  match v with
  | JNull => "null"
  | JBool true => "true"
  | JBool false => "false"
  | JNum n => string_of_Z n
  | JStr s => quote s
  | JArr items =>
      "[" +:+ (fix elements (l : list JSON) : string :=
                match l with
                | [] => ""
                | [x] => stringify x
                | x :: r => stringify x +:+ "," +:+ elements r
                end) items +:+ "]"
  | JObj props =>
      "{" +:+ (fix members (l : list (string * JSON)) : string :=
                match l with
                | [] => ""
                | [(k, x)] => quote k +:+ ":" +:+ stringify x
                | (k, x) :: r => quote k +:+ ":" +:+ stringify x +:+ "," +:+ members r
                end) props +:+ "}"
  end.

(** [s.length] *)
Definition strlen (s : string) : Z := Z.of_nat (String.length s).

(** [s.includes(sub)] *)
Fixpoint includes (s sub : string) : bool :=
  (String.prefix sub s
   || match s with
      | EmptyString => false
      | String _ r => includes r sub
      end)%bool.

(** Truthiness, as [!data] and [x || y] test it. *)
Definition truthy (v : JSON) : bool :=
  match v with
  | JNull => false
  | JBool b => b
  | JNum n => negb (n =? 0)
  | JStr s => negb (String.eqb s "")
  | JArr _ | JObj _ => true
  end.

(** *** A [Map] in insertion order

    [set] on a key that is present replaces the value and keeps the
    key's position; a new key goes last; [keys().next().value] is the
    first key. *)
Section OrderedMap.
Context {V : Type}.

Fixpoint map_get (k : string) (m : list (string * V)) : option V :=
  match m with
  | [] => None
  | (k', v) :: r => if String.eqb k k' then Some v else map_get k r
  end.

Fixpoint map_delete (k : string) (m : list (string * V)) : list (string * V) :=
  match m with
  | [] => []
  | (k', v) :: r => if String.eqb k k' then r else (k', v) :: map_delete k r
  end.

Fixpoint map_set (k : string) (v : V) (m : list (string * V)) : list (string * V) :=
  match m with
  | [] => [(k, v)]
  | (k', v') :: r =>
      if String.eqb k k' then (k', v) :: r else (k', v') :: map_set k v r
  end.

Definition map_size (m : list (string * V)) : Z := Z.of_nat (length m).

Definition map_keys (m : list (string * V)) : list string := map fst m.

(** [m.keys().next().value]; [undefined] on an empty map. *)
Definition first_key (m : list (string * V)) : option string :=
  match m with
  | [] => None
  | (k, _) :: _ => Some k
  end.
End OrderedMap.

End JS.

Import JS.

(** ** networkService.ts *)

Module NetworkService.

Record NetworkMetrics : Type := mkMetrics {
  responseTime : Z;
  cacheHit : bool;
  retryCount : Z;
  payloadSize : Z;
  timestamp : Z
}.

Record CacheEntry : Type := mkEntry {
  entry_data : JSON;
  entry_timestamp : Z;
  entry_ttl : Z;
  entry_etag : option string
}.

(** [private maxCacheSize = 50] and [private defaultTimeout = 10000]. *)
Definition maxCacheSize : Z := 50.
Definition defaultTimeout : Z := 10000.

(** ** The cache store *)

(** [getFromCache(key)] at time [now]: the value read and the cache left
    behind (an expired entry is deleted by the read). *)
Definition getFromCache (key : string) (now : Z) (cache : list (string * CacheEntry))
  : option JSON * list (string * CacheEntry) :=
  match map_get key cache with
  | None => (None, cache)
  | Some entry =>
      if now - entry_timestamp entry >? entry_ttl entry
      then (None, map_delete key cache)
      else (Some (entry_data entry), cache)
  end.

(** [setCache(key, data, ttl, etag)] at time [now]. *)
Definition setCache (key : string) (data : JSON) (ttl : Z) (etag : option string)
    (now : Z) (cache : list (string * CacheEntry)) : list (string * CacheEntry) :=
  let cache :=
    if map_size cache >=? maxCacheSize
    then match first_key cache with
         | Some oldestKey => map_delete oldestKey cache
         | None => cache
         end
    else cache in
  map_set key (mkEntry data now ttl etag) cache.

(** [cleanupCache()] at time [now], the sweep run every minute. *)
Definition cleanupCache (now : Z) (cache : list (string * CacheEntry))
  : list (string * CacheEntry) :=
  List.filter (fun kv => negb (now - entry_timestamp (snd kv) >? entry_ttl (snd kv))) cache.

(** The operations a client of the cache store can perform, each at the
    time it runs. *)
Inductive CacheOp : Type :=
| OpSet (key : string) (data : JSON) (ttl : Z) (etag : option string) (now : Z)
| OpGet (key : string) (now : Z)
| OpCleanup (now : Z).

Definition cache_op (op : CacheOp) (cache : list (string * CacheEntry))
  : list (string * CacheEntry) :=
  match op with
  | OpSet key data ttl etag now => setCache key data ttl etag now cache
  | OpGet key now => snd (getFromCache key now cache)
  | OpCleanup now => cleanupCache now cache
  end.

Definition cache_ops (ops : list CacheOp) : list (string * CacheEntry) :=
  fold_left (fun cache op => cache_op op cache) ops [].

(** ** The metrics recorder *)

(** [recordMetrics(url, metrics)]: push, then keep the last 100. *)
Definition recordMetrics (url : string) (m : NetworkMetrics)
    (metrics : gmap string (list NetworkMetrics)) : gmap string (list NetworkMetrics) :=
  let urlMetrics := default [] (metrics !! url) ++ [m] in
  let urlMetrics :=
    if (100 <? length urlMetrics)%nat
    then drop (length urlMetrics - 100)%nat urlMetrics
    else urlMetrics in
  <[url := urlMetrics]> metrics.

(** [getMetrics(url)] *)
Definition getMetrics (url : string) (metrics : gmap string (list NetworkMetrics))
  : list NetworkMetrics :=
  default [] (metrics !! url).

(** ** Request configuration and request key *)

(** The value of a property of a [RequestConfig] object. An [AbortSignal]
    is known by its identity; whether it is aborted is part of the
    [World]. *)
Inductive OptionValue : Type :=
| ONum (n : Z)
| OSignal (signal : nat)
| OUndefined.

(** A [RequestConfig] object: its own properties, in property order. *)
Definition RequestConfig : Type := list (string * OptionValue).

(** [const { field = dflt } = options] for a numeric field. *)
Definition option_num (field : string) (dflt : Z) (options : RequestConfig) : Z :=
  match map_get field options with
  | Some (ONum n) => n
  | _ => dflt
  end.

(** [const { signal } = options] *)
Definition option_signal (options : RequestConfig) : option nat :=
  match map_get "signal" options with
  | Some (OSignal s) => Some s
  | _ => None
  end.

(** What [JSON.stringify] sees of a configuration: a property whose value
    is [undefined] is left out, and an [AbortSignal], which has no own
    enumerable property, is the empty object. *)
Definition config_json (options : RequestConfig) : JSON :=
  JObj (omap (fun kv =>
                match snd kv with
                | ONum n => Some (fst kv, JNum n)
                | OSignal _ => Some (fst kv, JObj [])
                | OUndefined => None
                end) options).

(** [getCacheKey(url, options)] *)
Definition getCacheKey (url : string) (options : RequestConfig) : string :=
  url +:+ ":" +:+ stringify (config_json options).

(** ** The world an asynchronous method runs in *)

(** The fields [cache] and [metrics] of the service, the two clocks, and
    the signals aborted so far. *)
Record World : Type := mkWorld {
  cache : list (string * CacheEntry);
  metrics : gmap string (list NetworkMetrics);
  now : Z;          (* Date.now() *)
  perf : Z;         (* performance.now() *)
  aborted : gset nat
}.

Definition with_cache (c : list (string * CacheEntry)) (w : World) : World :=
  mkWorld c (metrics w) (now w) (perf w) (aborted w).

Definition with_metrics (m : gmap string (list NetworkMetrics)) (w : World) : World :=
  mkWorld (cache w) m (now w) (perf w) (aborted w).

(** [signal?.aborted] *)
Definition signal_aborted (signal : option nat) (w : World) : bool :=
  match signal with
  | Some s => bool_decide (s ∈ aborted w)
  | None => false
  end.

(** What [fetch] resolves to: [data] and [metrics]. *)
Record FetchResult : Type := mkResult {
  data : JSON;
  result_metrics : NetworkMetrics
}.

(** What [response.json()] gives: the parsed body, or a rejection with a
    [SyntaxError]. *)
Inductive Body : Type :=
| Parsed (d : JSON)
| Malformed (msg : string).

(** An empty body. *)
Definition no_body : Body := Malformed "Unexpected end of JSON input".

(** How one physical attempt ends: [fetch] resolves with a response,
    rejects for a network failure, or rejects because the attempt's
    timer fired [controller.abort()]. The two awaits of an attempt,
    [await fetch(...)] and [await response.json()], are one suspension:
    nothing of the service is read or written between them. *)
Inductive FetchOutcome : Type :=
| Response (status : Z) (statusText : string) (body : Body) (etag : option string)
| NetworkFailure (msg : string)
| TimedOut.

(** [response.ok] *)
Definition response_ok (status : Z) : bool := (200 <=? status) && (status <=? 299).

(** The error thrown for a response that is not ok. *)
Definition http_error (status : Z) (statusText : string) : JsError :=
  Error ("HTTP " +:+ string_of_Z status +:+ ": " +:+ statusText).

(** ** Asynchronous methods as resumptions *)

(** A method body between two [await]s reads the clocks and the signal
    and updates cache and metrics; at an [await] it is suspended on a
    physical fetch or on a timer. *)
Inductive Proc (R : Type) : Type :=
| Return (r : R)
| Throw (e : JsError)
| SignalAborted (signal : option nat) (k : bool -> Proc R)
| DateNow (k : Z -> Proc R)
| PerformanceNow (k : Z -> Proc R)
| SetCache (key : string) (d : JSON) (ttl : Z) (etag : option string) (k : Proc R)
| RecordMetrics (url : string) (m : NetworkMetrics) (k : Proc R)
| AwaitFetch (url : string) (timeout : Z) (k : FetchOutcome -> Proc R)
| AwaitDelay (ms : Z) (k : Proc R).
Arguments Return {R} r.
Arguments Throw {R} e.
Arguments SignalAborted {R} signal k.
Arguments DateNow {R} k.
Arguments PerformanceNow {R} k.
Arguments SetCache {R} key d ttl etag k.
Arguments RecordMetrics {R} url m k.
Arguments AwaitFetch {R} url timeout k.
Arguments AwaitDelay {R} ms k.

(** Where a method stands when it is not running. *)
Inductive Suspended (R : Type) : Type :=
| Finished (o : Outcome R)
| OnFetch (url : string) (timeout : Z) (k : FetchOutcome -> Proc R)
| OnDelay (ms : Z) (k : Proc R).
Arguments Finished {R} o.
Arguments OnFetch {R} url timeout k.
Arguments OnDelay {R} ms k.

(** One synchronous section: run to the next [await] or to the end. *)
Fixpoint run_sync {R : Type} (p : Proc R) (w : World) : World * Suspended R :=
  match p with
  | Return r => (w, Finished (Returned r))
  | Throw e => (w, Finished (Threw e))
  | SignalAborted signal k => run_sync (k (signal_aborted signal w)) w
  | DateNow k => run_sync (k (now w)) w
  | PerformanceNow k => run_sync (k (perf w)) w
  | SetCache key d ttl etag k =>
      run_sync k (with_cache (setCache key d ttl etag (now w) (cache w)) w)
  | RecordMetrics url m k =>
      run_sync k (with_metrics (recordMetrics url m (metrics w)) w)
  | AwaitFetch url timeout k => (w, OnFetch url timeout k)
  | AwaitDelay ms k => (w, OnDelay ms k)
  end.

(** ** executeRequest *)

Section ExecuteRequest.
Variables (url : string) (options : RequestConfig) (startTime : Z).

(** [const { timeout = this.defaultTimeout, retry = 3, ttl = 300000,
    retryDelay = 1000, signal } = options] *)
Definition timeout : Z := option_num "timeout" defaultTimeout options.
Definition retry : Z := option_num "retry" 3 options.
Definition ttl : Z := option_num "ttl" 300000 options.
Definition retryDelay : Z := option_num "retryDelay" 1000 options.
Definition signal : option nat := option_signal options.

(** After the loop: record the failure and throw. *)
Definition after_loop (retryCount : Z) (lastError : option JsError) : Proc FetchResult :=
  PerformanceNow (fun t =>
  DateNow (fun d =>
  RecordMetrics url (mkMetrics (t - startTime) false retryCount 0 d)
    (Throw (default (Error "Request failed after retries") lastError)))).

(** The [try] block after [fetch] has resolved with a response. *)
Definition on_response (catch : JsError -> Proc FetchResult) (retryCount : Z)
    (status : Z) (statusText : string) (body : Body) (etag : option string)
  : Proc FetchResult :=
  if negb (response_ok status) then catch (http_error status statusText)
  else match body with
       | Malformed msg => catch (SyntaxError msg)
       | Parsed d =>
           PerformanceNow (fun t =>
           let responseTime := t - startTime in
           let payloadSize := strlen (stringify d) in
           SetCache (getCacheKey url options) d ttl
             (match etag with
              | Some e => if String.eqb e "" then None else Some e
              | None => None
              end)
             (DateNow (fun ts =>
              let m := mkMetrics responseTime false retryCount payloadSize ts in
              RecordMetrics url m (Return (mkResult d m)))))
       end.

(** The [try] block once [fetch] has settled. *)
Definition after_fetch (catch : JsError -> Proc FetchResult) (retryCount : Z)
    (outcome : FetchOutcome) : Proc FetchResult :=
  match outcome with
  | Response status statusText body etag =>
      on_response catch retryCount status statusText body etag
  | NetworkFailure msg => catch (TypeError msg)
  | TimedOut => catch AbortError
  end.

(** The [try] block of one iteration. *)
Definition try_block (catch : JsError -> Proc FetchResult) (retryCount : Z)
  : Proc FetchResult :=
  SignalAborted signal (fun signalAborted =>
    if signalAborted then catch (Error "Request aborted")
    else AwaitFetch url timeout (after_fetch catch retryCount)).

(** The [catch] block of the iteration [attempt]; [next] is the rest of
    the loop. *)
Definition catch_block (attempt retryCount : Z)
    (next : Z -> option JsError -> Proc FetchResult) (error : JsError)
  : Proc FetchResult :=
  let lastError := Some error in
  let retryCount := retryCount + 1 in
  SignalAborted signal (fun signalAborted =>
    if String.eqb (name error) "AbortError"
       || signalAborted
       || includes (message error) "HTTP 4"
    then after_loop retryCount lastError
    else if attempt <? retry
         then AwaitDelay (retryDelay * 2 ^ attempt) (next retryCount lastError)
         else next retryCount lastError).

(** [for (let attempt = 0; attempt <= retry; attempt++) { try ... catch ... }]
    over the attempts that are left. *)
Fixpoint for_loop (attempts : list Z) (retryCount : Z) (lastError : option JsError)
  : Proc FetchResult :=
  match attempts with
  | [] => after_loop retryCount lastError
  | attempt :: rest =>
      try_block (catch_block attempt retryCount (for_loop rest)) retryCount
  end.

Definition executeRequest : Proc FetchResult :=
  for_loop (seqZ 0 (retry + 1)) 0 None.
End ExecuteRequest.

(** ** One logical request on its own *)

(** What the environment does while the request runs. *)
Inductive Input : Type :=
| FetchSettles (o : FetchOutcome)
| TimerFires
| Tick (dt : Z)
| Abort (signal : nat).

(** What the request did that the network and the timers saw. *)
Inductive Effect : Type :=
| PhysicalFetch (url : string) (timeout : Z)
| Sleep (ms : Z).

Definition tick (dt : Z) (w : World) : World :=
  mkWorld (cache w) (metrics w) (now w + dt) (perf w + dt) (aborted w).

Definition abort (s : nat) (w : World) : World :=
  mkWorld (cache w) (metrics w) (now w) (perf w) ({[s]} ∪ aborted w).

Definition effect_of {R : Type} (st : Suspended R) : list Effect :=
  match st with
  | Finished _ => []
  | OnFetch url timeout _ => [PhysicalFetch url timeout]
  | OnDelay ms _ => [Sleep ms]
  end.

(** A configuration of a single request: the world, where the request
    stands, and the effects so far. *)
Definition Config (R : Type) : Type := (World * Suspended R * list Effect)%type.

Definition start {R : Type} (p : Proc R) (w : World) : Config R :=
  let '(w', st) := run_sync p w in (w', st, effect_of st).

Definition input_step {R : Type} (i : Input) (c : Config R) : option (Config R) :=
  let '(w, st, trace) := c in
  match i, st with
  | FetchSettles o, OnFetch _ _ k =>
      let '(w', st') := run_sync (k o) w in Some (w', st', trace ++ effect_of st')
  | TimerFires, OnDelay _ k =>
      let '(w', st') := run_sync k w in Some (w', st', trace ++ effect_of st')
  | Tick dt, _ => Some (tick dt w, st, trace)
  | Abort s, _ => Some (abort s w, st, trace)
  | _, _ => None
  end.

Fixpoint exec {R : Type} (script : list Input) (c : Config R) : option (Config R) :=
  match script with
  | [] => Some c
  | i :: rest =>
      match input_step i c with
      | Some c' => exec rest c'
      | None => None
      end
  end.

Definition physical_fetches (trace : list Effect) : list Effect :=
  List.filter (fun e => match e with PhysicalFetch _ _ => true | Sleep _ => false end) trace.

Definition sleeps (trace : list Effect) : list Z :=
  omap (fun e => match e with Sleep ms => Some ms | PhysicalFetch _ _ => None end) trace.

(** ** Scripts for a single request *)

(** The error the [try] block throws for an attempt that ends this way;
    [None] when the attempt succeeds. *)
Definition thrown_by (o : FetchOutcome) : option JsError :=
  match o with
  | Response status statusText body _ =>
      if negb (response_ok status) then Some (http_error status statusText)
      else match body with
           | Malformed msg => Some (SyntaxError msg)
           | Parsed _ => None
           end
  | NetworkFailure msg => Some (TypeError msg)
  | TimedOut => Some AbortError
  end.

(** The part of the guard [Don't retry on abort or certain errors] that
    looks at the error. *)
Definition terminal_error (e : JsError) : bool :=
  String.eqb (name e) "AbortError" || includes (message e) "HTTP 4".

(** An attempt that fails with an error the guard lets through. *)
Definition retryable_failure (o : FetchOutcome) : Prop :=
  exists e, thrown_by o = Some e /\ terminal_error e = false.

(** The attempts settle as [outcomes] say, one after the other, and the
    timer set between two attempts fires. *)
Fixpoint retry_script (outcomes : list FetchOutcome) : list Input :=
  match outcomes with
  | [] => []
  | [o] => [FetchSettles o]
  | o :: rest => FetchSettles o :: TimerFires :: retry_script rest
  end.

(** A script with the passing of time left out. *)
Definition without_ticks (script : list Input) : list Input :=
  List.filter (fun i => match i with Tick _ => false | _ => true end) script.

(** [n] physical attempts from the attempt numbered [attempt] on, with
    the backoff sleeps between them. *)
Fixpoint attempts_trace (url : string) (timeout retryDelay attempt : Z) (n : nat)
  : list Effect :=
  match n with
  | O => []
  | S O => [PhysicalFetch url timeout]
  | S n' =>
      PhysicalFetch url timeout :: Sleep (retryDelay * 2 ^ attempt)
        :: attempts_trace url timeout retryDelay (attempt + 1) n'
  end.

(** What [after_loop] leaves behind: the world with the failure entry
    recorded. *)
Definition failed (url : string) (startTime retryCount : Z) (w : World) : World :=
  with_metrics
    (recordMetrics url (mkMetrics (perf w - startTime) false retryCount 0 (now w)) (metrics w)) w.

(** The shape of the entry recorded for a request that failed. *)
Definition failure_entry (retryCount : Z) (m : NetworkMetrics) : Prop :=
  NetworkService.retryCount m = retryCount /\ cacheHit m = false /\ payloadSize m = 0.

(** ** The service and its concurrent callers *)

(** A caller of [fetch] that has reached an [await], or has finished. *)
Inductive Caller : Type :=
| Initiator (cacheKey : string) (request : nat)
    (* at [await requestPromise], inside [try ... finally] *)
| Attached (request : nat) (startTime : Z)
    (* at [await this.pendingRequests.get(cacheKey)] *)
| Settled (o : Outcome FetchResult).

(** The singleton [networkService] on the event loop. A promise returned
    by [executeRequest] is known by the number of the request it belongs
    to. *)
Record Service : Type := mkService {
  world : World;
  pendingRequests : gmap string nat;
  requests : gmap nat (string * Suspended FetchResult);
  callers : gmap nat Caller;
  next_request : nat
}.

(** The object [{ data, metrics }] that [executeRequest] resolves with,
    as a value. *)
Definition metrics_json (m : NetworkMetrics) : JSON :=
  JObj [("responseTime", JNum (responseTime m));
        ("cacheHit", JBool (cacheHit m));
        ("retryCount", JNum (retryCount m));
        ("payloadSize", JNum (payloadSize m));
        ("timestamp", JNum (timestamp m))].

Definition result_json (r : FetchResult) : JSON :=
  JObj [("data", data r); ("metrics", metrics_json (result_metrics r))].

(** [fetch(url, options)] by a new caller, up to its first [await] (or to
    its [return] on a cache hit). *)
Definition fetch (caller : nat) (url : string) (options : RequestConfig) (s : Service)
  : Service :=
  let w := world s in
  let cacheKey := getCacheKey url options in
  let startTime := perf w in
  match getFromCache cacheKey (now w) (cache w) with
  | (Some d, c) =>
      let m := mkMetrics (perf w - startTime) true 0 (strlen (stringify d)) (now w) in
      mkService (with_metrics (recordMetrics url m (metrics w)) (with_cache c w))
        (pendingRequests s) (requests s)
        (<[caller := Settled (Returned (mkResult d m))]> (callers s))
        (next_request s)
  | (None, c) =>
      let w := with_cache c w in
      match pendingRequests s !! cacheKey with
      | Some r =>
          mkService w (pendingRequests s) (requests s)
            (<[caller := Attached r startTime]> (callers s))
            (next_request s)
      | None =>
          let r := next_request s in
          let '(w', st) := run_sync (executeRequest url options startTime) w in
          mkService w'
            (<[cacheKey := r]> (pendingRequests s))
            (<[r := (cacheKey, st)]> (requests s))
            (<[caller := Initiator cacheKey r]> (callers s))
            (S r)
      end
  end.

(** A caller continues after the promise it awaits has settled. *)
Definition resume (caller : nat) (s : Service) : option Service :=
  match callers s !! caller with
  | Some (Initiator cacheKey r) =>
      match requests s !! r with
      | Some (_, Finished o) =>
          (* [finally { this.pendingRequests.delete(cacheKey) }] *)
          Some (mkService (world s) (delete cacheKey (pendingRequests s)) (requests s)
                  (<[caller := Settled o]> (callers s)) (next_request s))
      | _ => None
      end
  | Some (Attached r startTime) =>
      match requests s !! r with
      | Some (_, Finished (Threw e)) =>
          Some (mkService (world s) (pendingRequests s) (requests s)
                  (<[caller := Settled (Threw e)]> (callers s)) (next_request s))
      | Some (_, Finished (Returned result)) =>
          (* [const data = await this.pendingRequests.get(cacheKey) as T] *)
          let d := result_json result in
          let w := world s in
          let m := mkMetrics (perf w - startTime) false 0 (strlen (stringify d)) (now w) in
          Some (mkService w (pendingRequests s) (requests s)
                  (<[caller := Settled (Returned (mkResult d m))]> (callers s))
                  (next_request s))
      | _ => None
      end
  | _ => None
  end.

(** What can happen on the event loop. *)
Inductive Event : Type :=
| Call (caller : nat) (url : string) (options : RequestConfig)
| Settle (request : nat) (o : FetchOutcome)
| Timer (request : nat)
| Resume (caller : nat)
| Elapse (dt : Z)
| AbortSignal (signal : nat)
| Sweep.

Definition with_request (r : nat) (key : string) (ws : World * Suspended FetchResult)
    (s : Service) : Service :=
  mkService (fst ws) (pendingRequests s) (<[r := (key, snd ws)]> (requests s))
    (callers s) (next_request s).

Definition with_world (w : World) (s : Service) : Service :=
  mkService w (pendingRequests s) (requests s) (callers s) (next_request s).

Definition step (e : Event) (s : Service) : option Service :=
  match e with
  | Call caller url options =>
      match callers s !! caller with
      | None => Some (fetch caller url options s)
      | Some _ => None
      end
  | Settle r o =>
      match requests s !! r with
      | Some (key, OnFetch _ _ k) => Some (with_request r key (run_sync (k o) (world s)) s)
      | _ => None
      end
  | Timer r =>
      match requests s !! r with
      | Some (key, OnDelay _ k) => Some (with_request r key (run_sync k (world s)) s)
      | _ => None
      end
  | Resume caller => resume caller s
  | Elapse dt => Some (with_world (tick dt (world s)) s)
  | AbortSignal sig => Some (with_world (abort sig (world s)) s)
  | Sweep =>
      Some (with_world (with_cache (cleanupCache (now (world s)) (cache (world s))) (world s)) s)
  end.

Fixpoint run (events : list Event) (s : Service) : option Service :=
  match events with
  | [] => Some s
  | e :: rest =>
      match step e s with
      | Some s' => run rest s'
      | None => None
      end
  end.

(** The service as the module creates it, at a given time. *)
Definition new_service (t : Z) : Service :=
  mkService (mkWorld [] ∅ t 0 ∅) ∅ ∅ ∅ 0.

(** A request that has not settled. *)
Definition unfinished (st : Suspended FetchResult) : Prop :=
  match st with Finished _ => False | _ => True end.

(** What holds of the registry between any two events: a request that
    has not settled is the one registered under its key; a caller that
    started a request and has not resumed finds it registered; and no key
    has two such callers. *)
Record service_inv (s : Service) : Prop := mkInv {
  inv_registered :
    forall r key st,
      requests s !! r = Some (key, st) -> unfinished st ->
      pendingRequests s !! key = Some r;
  inv_initiator :
    forall c key r,
      callers s !! c = Some (Initiator key r) -> pendingRequests s !! key = Some r;
  inv_one_initiator :
    forall c c' key r r',
      callers s !! c = Some (Initiator key r) ->
      callers s !! c' = Some (Initiator key r') -> c = c'
}.

(** Both stores within their bounds. *)
Definition stores_bounded (w : World) : Prop :=
  map_size (cache w) <= maxCacheSize
  /\ forall url, (length (getMetrics url (metrics w)) <= 100)%nat.

(** Two configurations that differ at most in which [AbortSignal] they
    carry. *)
Definition same_but_signal (o1 o2 : RequestConfig) : Prop :=
  Forall2 (fun kv1 kv2 =>
             fst kv1 = fst kv2
             /\ (snd kv1 = snd kv2
                 \/ exists s1 s2, snd kv1 = OSignal s1 /\ snd kv2 = OSignal s2))
          o1 o2.

(** A request whose physical attempts and timers are not over. *)
Definition in_flight (s : Service) (key : string) (r : nat) : Prop :=
  exists st, requests s !! r = Some (key, st) /\ unfinished st.

(** A request with a physical fetch on the network. *)
Definition on_network (s : Service) (key : string) (r : nat) : Prop :=
  exists u t k, requests s !! r = Some (key, OnFetch u t k).

(** What a caller got, once it has. *)
Definition outcome_of (s : Service) (caller : nat) : option (Outcome FetchResult) :=
  match callers s !! caller with
  | Some (Settled o) => Some o
  | _ => None
  end.

End NetworkService.

(** ** useDataFetch.ts *)

Module UseDataFetch.

(** [UseDataFetchOptions], the [RequestConfig] part aside. [fallbackData]
    is [None] when the caller left it [undefined]. *)
Record UseDataFetchOptions : Type := mkOptions {
  staleTime : option Z;
  refetchOnFocus : option bool;
  refetchOnReconnect : option bool;
  enabled : option bool;
  fallbackData : option JSON
}.

(** The state cells of the hook. [data] is [JNull] for [null]. *)
Record HookState : Type := mkState {
  data : JSON;
  loading : bool;
  error : option JsError;
  metrics : option NetworkService.NetworkMetrics;
  lastFetch : Z
}.

(** [UseDataFetchResult<T>], the callback [refetch] aside: every field
    the hook hands to its consumer. *)
Record UseDataFetchResult : Type := mkHookResult {
  result_data : JSON;
  result_loading : bool;
  result_error : option JsError;
  result_metrics : option NetworkService.NetworkMetrics;
  isStale : bool
}.

(** [x || null] for an optional value. *)
Definition or_null (x : option JSON) : JSON :=
  match x with
  | Some v => if truthy v then v else JNull
  | None => JNull
  end.

(** Truthiness of an optional value ([undefined] is falsy). *)
Definition supplied (x : option JSON) : bool :=
  match x with
  | Some v => truthy v
  | None => false
  end.

(** The state on the first render: [useState(fallbackData || null)],
    [useState(false)], [useState(null)], [useState()], [useState(0)]. *)
Definition initial (options : UseDataFetchOptions) : HookState :=
  mkState (or_null (fallbackData options)) false None None 0.

(** Whether [fetchData(force)] called at [t0] goes to the network. *)
Definition issues_request (options : UseDataFetchOptions) (force : bool) (t0 : Z)
    (s : HookState) : bool :=
  default true (enabled options)
  && negb (negb force && truthy (data s)
           && (t0 - lastFetch s <? default 300000 (staleTime options))).


(** One call [fetchData(force)] made at [t0] from a render whose state is
    [s]: [networkService.fetch] settles with [outcome], the continuation
    runs at [t1], when [abortControllerRef.current.signal.aborted] is
    [aborted], and nothing else has set the state in between. *)
Definition fetchData (options : UseDataFetchOptions) (force : bool) (t0 : Z)
    (outcome : Outcome NetworkService.FetchResult) (aborted : bool) (t1 : Z)
    (s : HookState) : HookState :=
  if negb (issues_request options force t0 s) then s
  else
    (* [setLoading(true); setError(null)] *)
    let s1 := mkState (data s) true None (metrics s) (lastFetch s) in
    let s2 :=
      match outcome with
      | Returned result =>
          if negb aborted
          then mkState (NetworkService.data result) (loading s1) (error s1)
                 (Some (NetworkService.result_metrics result)) t1
          else s1
      | Threw err =>
          if negb (String.eqb (name err) "AbortError")
          then let s' := mkState (data s1) (loading s1) (Some err) (metrics s1) (lastFetch s1) in
               if negb (truthy (data s)) && supplied (fallbackData options)
               then mkState (default JNull (fallbackData options)) (loading s') (error s')
                      (metrics s') (lastFetch s')
               else s'
          else s1
      end in
    (* [finally { if (!aborted) setLoading(false) }] *)
    if negb aborted
    then mkState (data s2) false (error s2) (metrics s2) (lastFetch s2)
    else s2.

(** What the hook returns from a render at time [t]. *)
Definition render (options : UseDataFetchOptions) (t : Z) (s : HookState)
  : UseDataFetchResult :=
  mkHookResult (data s) (loading s) (error s) (metrics s)
    (t - lastFetch s >? default 300000 (staleTime options)).

End UseDataFetch.

(** ** Where a request stands between two events *)

Module RequestStates.
Import NetworkService.

(** The physical attempts that have settled, in order. *)
Definition settled (script : list Input) : list FetchOutcome :=
  omap (fun i => match i with FetchSettles o => Some o | _ => None end) script.

(** [response.headers.get('etag') || undefined] *)
Definition etag_or_undefined (etag : option string) : option string :=
  match etag with
  | Some e => if String.eqb e "" then None else Some e
  | None => None
  end.

(** The first [n] backoff delays. *)
Definition backoff (retryDelay : Z) (n : nat) : list Z :=
  map (fun attempt => retryDelay * 2 ^ attempt) (seqZ 0 (Z.of_nat n)).

Section RequestStates.
Variables (url : string) (options : RequestConfig) (startTime : Z).

(** Suspended at [await fetch(...)] of the iteration [a]. *)
Definition fetching (a : Z) : Suspended FetchResult :=
  OnFetch url (timeout options)
    (after_fetch url options startTime
       (catch_block url options startTime a a
          (for_loop url options startTime (seqZ (a + 1) (retry options - a)))) a).

(** Suspended at [await this.delay(...)] of the iteration [a], whose
    attempt failed with [e]. *)
Definition sleeping (a : Z) (e : JsError) : Suspended FetchResult :=
  OnDelay (retryDelay options * 2 ^ a)
    (for_loop url options startTime (seqZ (a + 1) (retry options - a)) (a + 1) (Some e)).

(** The effects of [n] attempts and the sleeps between them. *)
Definition attempts (n : nat) : list Effect :=
  attempts_trace url (timeout options) (retryDelay options) 0 n.

(** Cache and metrics as they were when the request started. *)
Definition untouched (w0 w : World) : Prop :=
  cache w = cache w0 /\ metrics w = metrics w0.

(** Cache as it was, and one failure entry recorded. *)
Definition failure_recorded (w0 w : World) (retryCount : Z) : Prop :=
  cache w = cache w0
  /\ exists m, metrics w = recordMetrics url m (metrics w0) /\ failure_entry retryCount m.

(** Every state [executeRequest] can be in after the attempts [os] have
    settled, for a request that started in the world [w0]. *)
Inductive request_state (w0 : World) (os : list FetchOutcome) : Config FetchResult -> Prop :=
| rs_fetching w :
    Forall retryable_failure os ->
    Z.of_nat (length os) <= retry options ->
    untouched w0 w ->
    request_state w0 os (w, fetching (Z.of_nat (length os)), attempts (S (length os)))
| rs_sleeping w os' o e :
    os = os' ++ [o] ->
    Forall retryable_failure os ->
    thrown_by o = Some e ->
    Z.of_nat (length os') < retry options ->
    untouched w0 w ->
    request_state w0 os
      (w, sleeping (Z.of_nat (length os')) e,
       attempts (S (length os')) ++ [Sleep (retryDelay options * 2 ^ Z.of_nat (length os'))])
| rs_no_attempt w :
    os = [] ->
    retry options < 0 ->
    failure_recorded w0 w 0 ->
    request_state w0 os (w, Finished (Threw (Error "Request failed after retries")), [])
| rs_aborted_at_start w :
    os = [] ->
    0 <= retry options ->
    signal_aborted (signal options) w = true ->
    failure_recorded w0 w 1 ->
    request_state w0 os (w, Finished (Threw (Error "Request aborted")), [])
| rs_aborted_after_sleep w os' o :
    os = os' ++ [o] ->
    Forall retryable_failure os ->
    Z.of_nat (length os') < retry options ->
    signal_aborted (signal options) w = true ->
    failure_recorded w0 w (Z.of_nat (length os) + 1) ->
    request_state w0 os
      (w, Finished (Threw (Error "Request aborted")),
       attempts (S (length os')) ++ [Sleep (retryDelay options * 2 ^ Z.of_nat (length os'))])
| rs_failed w os' o e :
    os = os' ++ [o] ->
    Forall retryable_failure os' ->
    thrown_by o = Some e ->
    Z.of_nat (length os') <= retry options ->
    terminal_error e = true
      \/ signal_aborted (signal options) w = true
      \/ Z.of_nat (length os') = retry options ->
    failure_recorded w0 w (Z.of_nat (length os)) ->
    request_state w0 os (w, Finished (Threw e), attempts (length os))
| rs_returned w os' status statusText d etag m :
    os = os' ++ [Response status statusText (Parsed d) etag] ->
    Forall retryable_failure os' ->
    response_ok status = true ->
    Z.of_nat (length os') <= retry options ->
    cacheHit m = false ->
    retryCount m = Z.of_nat (length os') ->
    payloadSize m = strlen (stringify d) ->
    cache w = setCache (getCacheKey url options) d (ttl options) (etag_or_undefined etag)
                (timestamp m) (cache w0) ->
    metrics w = recordMetrics url m (metrics w0) ->
    request_state w0 os (w, Finished (Returned (mkResult d m)), attempts (length os)).

End RequestStates.

(** An input that resumes the request. *)
Definition resumes (i : Input) : bool :=
  match i with
  | FetchSettles _ | TimerFires => true
  | _ => false
  end.

End RequestStates.

(** ** Callers and the requests they wait for *)

Module Waiting.
Import NetworkService.

(** What holds of the callers between any two events: a registered
    request exists under its key and the caller that started it has not
    resumed yet; an attached caller awaits a request that exists; and
    request numbers are handed out once. *)
Record waiting_inv (s : Service) : Prop := mkWaitingInv {
  wi_registered :
    forall key r, pendingRequests s !! key = Some r ->
      exists st, requests s !! r = Some (key, st);
  wi_initiator :
    forall key r, pendingRequests s !! key = Some r ->
      exists c, callers s !! c = Some (Initiator key r);
  wi_attached :
    forall c r t0, callers s !! c = Some (Attached r t0) -> is_Some (requests s !! r);
  wi_fresh :
    forall r, is_Some (requests s !! r) -> (r < next_request s)%nat
}.

(** Every caller has resumed. *)
Definition all_settled (s : Service) : Prop :=
  forall c x, callers s !! c = Some x -> exists o, x = Settled o.

End Waiting.

(** ** Histories of the metrics recorder *)

Module Recorder.
Import NetworkService.




End Recorder.

(** ** Monitoring *)

Module Monitoring.
Import NetworkService.
Import QArith_base.
Local Open Scope Z_scope.

(** One value of the object [getPerformanceSummary] returns. The three
    quotients are exact here; [lastRequest] is the time value of the
    [Date]. *)
Record Summary : Type := mkSummary {
  totalRequests : Z;
  avgResponseTime : Q;
  minResponseTime : Z;
  maxResponseTime : Z;
  cacheHitRate : Q;
  avgRetries : Q;
  lastRequest : Z
}.

(** [xs.reduce((a, b) => a + b, 0)] *)
Definition sum_of (xs : list Z) : Z := fold_left Z.add xs 0.

(** [Math.min(...xs)] and [Math.max(...xs)] of a list that is not empty,
    given as its head and tail. *)
Definition math_min (x : Z) (xs : list Z) : Z := fold_left Z.min xs x.
Definition math_max (x : Z) (xs : list Z) : Z := fold_left Z.max xs x.

(** [a / b] on numbers that are integers. *)
Definition quotient (a b : Z) : Q := Qdiv (inject_Z a) (inject_Z b).

(** The body of the loop of [getPerformanceSummary] for one url; [None]
    for [continue]. *)
Definition summarize (metrics : list NetworkMetrics) : option Summary :=
  match metrics with
  | [] => None
  | m :: rest =>
      let length := Z.of_nat (length metrics) in
      let cacheHitRate :=
        quotient (Z.of_nat (List.length (List.filter cacheHit metrics))) length in
      let avgRetries := quotient (sum_of (map retryCount metrics)) length in
      Some (mkSummary length
              (quotient (sum_of (map responseTime metrics)) length)
              (math_min (responseTime m) (map responseTime rest))
              (math_max (responseTime m) (map responseTime rest))
              (Qmult cacheHitRate (inject_Z 100))
              avgRetries
              (math_max (timestamp m) (map timestamp rest)))
  end.

(** [getPerformanceSummary()] *)
Definition getPerformanceSummary (metrics : gmap string (list NetworkMetrics))
  : gmap string Summary :=
  omap summarize metrics.

End Monitoring.

(** ** useDataFetch.ts: the event handlers and [useDataFetchMultiple] *)

Module UseDataFetchHandlers.
Import UseDataFetch.

(** The guard of [handleFocus], a handler that is registered when
    [refetchOnFocus]: whether a focus event at [t] calls [fetchData()]. *)
Definition focus_calls_fetchData (options : UseDataFetchOptions) (t : Z) (s : HookState)
  : bool :=
  default true (refetchOnFocus options)
  && (t - lastFetch s >? default 300000 (staleTime options)).

(** [handleFocus] on a focus event at [t]. *)
Definition handleFocus (options : UseDataFetchOptions) (t : Z)
    (outcome : Outcome NetworkService.FetchResult) (aborted : bool) (t1 : Z) (s : HookState)
  : HookState :=
  if focus_calls_fetchData options t s
  then fetchData options false t outcome aborted t1 s
  else s.

(** The guard of [handleOnline], registered when [refetchOnReconnect]. *)
Definition online_calls_fetchData (options : UseDataFetchOptions) (s : HookState) : bool :=
  default true (refetchOnReconnect options)
  && match error s with Some _ => true | None => false end.

(** [handleOnline] on an online event at [t]. *)
Definition handleOnline (options : UseDataFetchOptions) (t : Z)
    (outcome : Outcome NetworkService.FetchResult) (aborted : bool) (t1 : Z) (s : HookState)
  : HookState :=
  if online_calls_fetchData options s
  then fetchData options true t outcome aborted t1 s
  else s.

(** The state of [useDataFetchMultiple]. *)
Record MultipleState : Type := mkMultiple {
  multiple_data : gmap string JSON;
  multiple_loading : bool;
  multiple_errors : gmap string JsError
}.

(** [results.forEach(...)] of [fetchAll]: one step. *)
Definition collect (acc : gmap string JSON * gmap string JsError)
    (r : string * Outcome NetworkService.FetchResult)
  : gmap string JSON * gmap string JsError :=
  match snd r with
  | Threw error => (fst acc, <[fst r := error]> (snd acc))
  | Returned result => (<[fst r := NetworkService.data result]> (fst acc), snd acc)
  end.

(** [fetchAll] once every [networkService.fetch] has settled; [results]
    pairs each url of [urls], in order, with the way its call settled. *)
Definition fetchAll (results : list (string * Outcome NetworkService.FetchResult))
  : MultipleState :=
  let acc := fold_left collect results (∅, ∅) in
  mkMultiple (fst acc) false (snd acc).

End UseDataFetchHandlers.

(** ** useDataFetch.ts: [usePreloadData] *)

Module UsePreloadData.
Import NetworkService.




(** The members of an object literal, as [JSON.stringify] writes them. *)
Fixpoint members (l : list (string * JSON)) : string :=
  match l with
  | [] => ""
  | [(k, x)] => quote k +:+ ":" +:+ stringify x
  | (k, x) :: r => quote k +:+ ":" +:+ stringify x +:+ "," +:+ members r
  end.

(** The properties of a configuration that [JSON.stringify] writes. *)
Abbreviation written options :=
  (omap (fun kv : string * OptionValue =>
           match snd kv with
           | ONum n => Some (fst kv, JNum n)
           | OSignal _ => Some (fst kv, JObj [])
           | OUndefined => None
           end) options).

End UsePreloadData.

(** ** useDataFetch.ts: calls of [fetchData] that overlap *)

Module UseDataFetchCalls.
Import UseDataFetch.

(** [abortControllerRef]: the controller in [current], known by the
    number of its signal, and the number the next controller gets. *)
Record HookRefs : Type := mkRefs {
  current : option nat;
  next_controller : nat
}.

(** What a call of [fetchData] does before its [await]. *)
Record Begun : Type := mkBegun {
  aborts : option nat;      (* [abortControllerRef.current.abort()] *)
  own_signal : nat;         (* the signal handed to [networkService.fetch] *)
  begun_refs : HookRefs;
  begun_state : HookState
}.

(** [fetchData(force)] at [t0] up to [await networkService.fetch(...)];
    [None] when it returns before. *)
Definition fetchData_begin (options : UseDataFetchOptions) (force : bool) (t0 : Z)
    (refs : HookRefs) (s : HookState) : option Begun :=
  if negb (issues_request options force t0 s) then None
  else Some (mkBegun (current refs) (next_controller refs)
               (mkRefs (Some (next_controller refs)) (S (next_controller refs)))
               (mkState (data s) true None (metrics s) (lastFetch s))).

(** [{ ...networkOptions, signal: abortControllerRef.current.signal }] *)
Definition with_signal (sig : nat) (networkOptions : NetworkService.RequestConfig)
  : NetworkService.RequestConfig :=
  map_set "signal" (NetworkService.OSignal sig) networkOptions.

(** [fetchData] after its [await]: [closure] is the state of the render
    the callback was made in, [aborted] is
    [abortControllerRef.current.signal.aborted] now, and [s] is the state
    now. *)
Definition fetchData_settle (options : UseDataFetchOptions) (closure : HookState)
    (outcome : Outcome NetworkService.FetchResult) (aborted : bool) (t1 : Z) (s : HookState)
  : HookState :=
  let s2 :=
    match outcome with
    | Returned result =>
        if negb aborted
        then mkState (NetworkService.data result) (loading s) (error s)
               (Some (NetworkService.result_metrics result)) t1
        else s
    | Threw err =>
        if negb (String.eqb (name err) "AbortError")
        then let s' := mkState (data s) (loading s) (Some err) (metrics s) (lastFetch s) in
             if negb (truthy (data closure)) && supplied (fallbackData options)
             then mkState (default JNull (fallbackData options)) (loading s') (error s')
                    (metrics s') (lastFetch s')
             else s'
        else s
    end in
  if negb aborted
  then mkState (data s2) false (error s2) (metrics s2) (lastFetch s2)
  else s2.

(** [abortControllerRef.current.signal.aborted] *)
Definition current_aborted (refs : HookRefs) (aborted : gset nat) : bool :=
  match current refs with
  | Some c => bool_decide (c ∈ aborted)
  | None => false
  end.

End UseDataFetchCalls.

Import NetworkService.

(** * Properties *)

(** ** The ordered map *)

Section OrderedMapFacts.
Context {V : Type}.
Implicit Types (m : list (string * V)) (k : string) (v : V).

Lemma map_get_set_eq m k v : map_get k (map_set k v m) = Some v.
Proof.
  induction m as [|[k' v'] m IH]; simpl.
  - by rewrite String.eqb_refl.
  - destruct (String.eqb k k') eqn:E; simpl; rewrite E; [done | exact IH].
Qed.

Lemma map_set_fresh m k v : map_get k m = None -> map_set k v m = m ++ [(k, v)].
Proof.
  induction m as [|[k' v'] m IH]; simpl; [done|].
  destruct (String.eqb k k'); [done|]. intros H. by rewrite IH.
Qed.

Lemma map_set_present m k v :
  is_Some (map_get k m) -> map_keys (map_set k v m) = map_keys m.
Proof.
  induction m as [|[k' v'] m IH]; simpl.
  - by intros [? ?].
  - destruct (String.eqb k k'); simpl; [done|]. intros H. by rewrite IH.
Qed.

Lemma length_map_set m k v : (length (map_set k v m) <= S (length m))%nat.
Proof.
  induction m as [|[k' v'] m IH]; simpl; [lia|].
  destruct (String.eqb k k'); simpl; lia.
Qed.

Lemma length_map_delete m k : (length (map_delete k m) <= length m)%nat.
Proof.
  induction m as [|[k' v'] m IH]; simpl; [lia|].
  destruct (String.eqb k k'); simpl; lia.
Qed.

Lemma map_delete_first m k v : map_delete k ((k, v) :: m) = m.
Proof. simpl. by rewrite String.eqb_refl. Qed.

End OrderedMapFacts.

(** ** The cache store *)

Lemma setCache_at_capacity key d ttl etag now oldestKey oldest rest :
  map_size ((oldestKey, oldest) :: rest) >= maxCacheSize ->
  setCache key d ttl etag now ((oldestKey, oldest) :: rest)
  = map_set key (mkEntry d now ttl etag) rest.
Proof.
  intros Hfull. unfold setCache.
  destruct (map_size _ >=? maxCacheSize) eqn:E; [|lia].
  cbn [first_key]. by rewrite map_delete_first.
Qed.

Lemma setCache_below_capacity key d ttl etag now c :
  map_size c < maxCacheSize ->
  setCache key d ttl etag now c = map_set key (mkEntry d now ttl etag) c.
Proof.
  intros Hlt. unfold setCache.
  destruct (map_size c >=? maxCacheSize) eqn:E; [lia | done].
Qed.

Lemma setCache_size key d ttl etag now c :
  map_size c <= maxCacheSize ->
  map_size (setCache key d ttl etag now c) <= maxCacheSize.
Proof.
  intros Hle. destruct (Z_lt_ge_dec (map_size c) maxCacheSize) as [Hlt|Hge].
  - rewrite setCache_below_capacity by done.
    pose proof (length_map_set c key (mkEntry d now ttl etag)).
    unfold map_size in *. lia.
  - destruct c as [|[k0 e0] rest]; [unfold map_size, maxCacheSize in Hge; simpl in Hge; lia|].
    rewrite setCache_at_capacity by done.
    pose proof (length_map_set rest key (mkEntry d now ttl etag)).
    unfold map_size in *. simpl length in Hle. lia.
Qed.

Lemma getFromCache_hit_keeps_cache key now c v :
  fst (getFromCache key now c) = Some v -> snd (getFromCache key now c) = c.
Proof.
  unfold getFromCache. destruct (map_get key c) as [entry|]; [|done].
  by destruct (now - entry_timestamp entry >? entry_ttl entry).
Qed.

Lemma getFromCache_size key now c :
  map_size (snd (getFromCache key now c)) <= map_size c.
Proof.
  unfold getFromCache. destruct (map_get key c) as [entry|]; [|simpl; lia].
  destruct (now - entry_timestamp entry >? entry_ttl entry); simpl; [|lia].
  pose proof (length_map_delete c key). unfold map_size. lia.
Qed.

Lemma cleanupCache_size now c : map_size (cleanupCache now c) <= map_size c.
Proof.
  unfold cleanupCache, map_size.
  pose proof (List.filter_length_le
    (fun kv => negb (now - entry_timestamp (snd kv) >? entry_ttl (snd kv))) c).
  lia.
Qed.

Lemma cache_op_size op c :
  map_size c <= maxCacheSize -> map_size (cache_op op c) <= maxCacheSize.
Proof.
  intros Hle. destruct op as [key d ttl etag now|key now|now]; simpl.
  - by apply setCache_size.
  - pose proof (getFromCache_size key now c). lia.
  - pose proof (cleanupCache_size now c). lia.
Qed.

Lemma cache_ops_size_from ops c :
  map_size c <= maxCacheSize ->
  map_size (fold_left (fun cache op => cache_op op cache) ops c) <= maxCacheSize.
Proof.
  revert c. induction ops as [|op ops IH]; intros c Hle; simpl; [done|].
  apply IH. by apply cache_op_size.
Qed.

(** ** The metrics recorder *)

Lemma getMetrics_recordMetrics url m ms :
  getMetrics url (recordMetrics url m ms)
  = let urlMetrics := getMetrics url ms ++ [m] in
    if (100 <? length urlMetrics)%nat
    then drop (length urlMetrics - 100)%nat urlMetrics
    else urlMetrics.
Proof. unfold getMetrics, recordMetrics. by rewrite lookup_insert_eq. Qed.

Lemma getMetrics_recordMetrics_ne url url' m ms :
  url <> url' -> getMetrics url' (recordMetrics url m ms) = getMetrics url' ms.
Proof. intros H. unfold getMetrics, recordMetrics. by rewrite lookup_insert_ne. Qed.

(** ** The retry loop *)

Section RetryLoop.
Variables (url : string) (options : RequestConfig) (startTime : Z).

Abbreviation catch_at a rc rest :=
  (catch_block url options startTime a rc (for_loop url options startTime rest)).
Abbreviation st_fetch a rc rest :=
  (OnFetch url (timeout options) (after_fetch url options startTime (catch_at a rc rest) rc)).

Lemma run_sync_after_loop rc le w :
  run_sync (after_loop url startTime rc le) w
  = (failed url startTime rc w, Finished (Threw (default (Error "Request failed after retries") le))).
Proof. reflexivity. Qed.

Lemma run_sync_catch_block a rc next e w :
  run_sync (catch_block url options startTime a rc next e) w
  = if terminal_error e || signal_aborted (signal options) w
    then run_sync (after_loop url startTime (rc + 1) (Some e)) w
    else if a <? retry options
         then (w, OnDelay (retryDelay options * 2 ^ a) (next (rc + 1) (Some e)))
         else run_sync (next (rc + 1) (Some e)) w.
Proof.
  unfold catch_block, terminal_error. cbn [run_sync].
  destruct (String.eqb (name e) "AbortError"), (signal_aborted (signal options) w),
    (includes (message e) "HTTP 4"); cbn [orb]; try reflexivity;
  destruct (a <? retry options); reflexivity.
Qed.

Lemma run_sync_try_block catch rc w :
  run_sync (try_block url options startTime catch rc) w
  = if signal_aborted (signal options) w
    then run_sync (catch (Error "Request aborted")) w
    else (w, OnFetch url (timeout options) (after_fetch url options startTime catch rc)).
Proof.
  unfold try_block. cbn [run_sync].
  by destruct (signal_aborted (signal options) w).
Qed.

Lemma after_fetch_throws catch rc o e :
  thrown_by o = Some e -> after_fetch url options startTime catch rc o = catch e.
Proof.
  destruct o as [status statusText body etag|msg|]; simpl.
  - unfold on_response. destruct (negb (response_ok status)); [congruence|].
    destruct body; congruence.
  - congruence.
  - congruence.
Qed.

Lemma signal_aborted_tick sig dt w : signal_aborted sig (tick dt w) = signal_aborted sig w.
Proof. by destruct sig. Qed.

Lemma exec_only_ticks {R} script (w : World) (st : Suspended R) tr :
  without_ticks script = [] ->
  exists w', exec script (w, st, tr) = Some (w', st, tr)
             /\ cache w' = cache w /\ metrics w' = metrics w /\ aborted w' = aborted w.
Proof.
  revert w. induction script as [|i script IH]; intros w H.
  - by exists w.
  - destruct i; try discriminate H. simpl in H. simpl.
    destruct (IH (tick dt w) H) as (w' & -> & ? & ? & ?). by exists w'.
Qed.

Lemma attempts_trace_S a n :
  attempts_trace url (timeout options) (retryDelay options) a (S n)
  = PhysicalFetch url (timeout options)
      :: match n with
         | O => []
         | S _ => Sleep (retryDelay options * 2 ^ a)
                    :: attempts_trace url (timeout options) (retryDelay options) (a + 1) n
         end.
Proof. by destruct n. Qed.

Lemma retry_script_cons o os :
  retry_script (o :: os)
  = FetchSettles o :: match os with [] => [] | _ => TimerFires :: retry_script os end.
Proof. by destruct os. Qed.

Lemma retry_script_snoc o1 os o :
  retry_script (o1 :: os ++ [o])
  = FetchSettles o1 :: TimerFires :: retry_script (os ++ [o]).
Proof. simpl. by destruct os. Qed.

Lemma failing_attempts script :
  (forall os o e a rc w tr,
      without_ticks script = retry_script (os ++ [o]) ->
      Forall retryable_failure os ->
      thrown_by o = Some e ->
      terminal_error e = true \/ a + Z.of_nat (length os) = retry options ->
      0 <= a -> a + Z.of_nat (length os) <= retry options ->
      signal_aborted (signal options) w = false ->
      exists w' m,
        exec script (w, st_fetch a rc (seqZ (a + 1) (retry options - a)), tr)
        = Some (w', Finished (Threw e),
                tr ++ tail (attempts_trace url (timeout options) (retryDelay options) a
                              (S (length os))))
        /\ cache w' = cache w
        /\ metrics w' = recordMetrics url m (metrics w)
        /\ failure_entry (rc + Z.of_nat (S (length os))) m)
  /\ (forall os o e a rc e0 w tr,
      without_ticks script = TimerFires :: retry_script (os ++ [o]) ->
      Forall retryable_failure os ->
      thrown_by o = Some e ->
      terminal_error e = true \/ a + 1 + Z.of_nat (length os) = retry options ->
      0 <= a -> a + 1 + Z.of_nat (length os) <= retry options ->
      signal_aborted (signal options) w = false ->
      exists w' m,
        exec script
          (w, OnDelay (retryDelay options * 2 ^ a)
                (for_loop url options startTime (seqZ (a + 1) (retry options - a))
                   (rc + 1) (Some e0)), tr)
        = Some (w', Finished (Threw e),
                tr ++ attempts_trace url (timeout options) (retryDelay options) (a + 1)
                        (S (length os)))
        /\ cache w' = cache w
        /\ metrics w' = recordMetrics url m (metrics w)
        /\ failure_entry (rc + 1 + Z.of_nat (S (length os))) m).
Proof.
  induction script as [|i script [IHf IHd]]; split;
    intros os o e a rc; [ | intros e0 | | intros e0 ]; intros w tr Hs Hos Ho Hterm Ha Hle Hsig.
  - destruct os; [discriminate Hs | simpl app in Hs; rewrite retry_script_snoc in Hs; discriminate Hs].
  - discriminate Hs.
  - destruct i as [o'| |dt|s]; cbn [without_ticks List.filter] in Hs.
    + (* the attempt settles *)
      destruct os as [|o1 os].
      * (* it is the attempt that ends the request *)
        simpl in Hs. injection Hs as -> Hs.
        cbn [exec input_step].
        rewrite (after_fetch_throws _ _ _ _ Ho), run_sync_catch_block, Hsig, orb_false_r.
        simpl length in *.
        assert ((if terminal_error e
                 then run_sync (after_loop url startTime (rc + 1) (Some e)) w
                 else if a <? retry options
                      then (w, OnDelay (retryDelay options * 2 ^ a)
                                 (for_loop url options startTime
                                    (seqZ (a + 1) (retry options - a)) (rc + 1) (Some e)))
                      else run_sync (for_loop url options startTime
                                       (seqZ (a + 1) (retry options - a)) (rc + 1) (Some e)) w)
                = (failed url startTime (rc + 1) w, Finished (Threw e))) as ->.
        { destruct (terminal_error e) eqn:Et; [done|].
          destruct Hterm as [|Hlast]; [done|].
          assert (a = retry options) as -> by lia.
          rewrite Z.ltb_irrefl, Z.sub_diag. done. }
        destruct (exec_only_ticks (R := FetchResult) script (failed url startTime (rc + 1) w)
                    (Finished (Threw e)) (tr ++ effect_of (@Finished FetchResult (Threw e))) Hs)
          as (w' & Hex & Hc & Hm & _).
        exists w', (mkMetrics (perf w - startTime) false (rc + 1) 0 (now w)).
        rewrite Hex. split; [reflexivity|]. split; [by rewrite Hc|]. split; [by rewrite Hm|].
        unfold failure_entry. simpl. repeat split; lia.
      * (* a retryable failure: the loop sleeps, then goes on *)
        simpl app in Hs. rewrite retry_script_snoc in Hs. injection Hs as -> Hs.
        apply Forall_cons in Hos as [(e1 & He1 & Hr1) Hos].
        simpl length in *.
        cbn [exec input_step].
        rewrite (after_fetch_throws _ _ _ _ He1), run_sync_catch_block, Hr1, Hsig.
        cbn [orb].
        assert ((a <? retry options) = true) as -> by (apply Z.ltb_lt; lia).
        cbn [effect_of].
        destruct (IHd os o e a rc e1 w (tr ++ [Sleep (retryDelay options * 2 ^ a)])
                    Hs Hos Ho) as (w' & m & Hex & Hc & Hm & Hrc);
          [destruct Hterm; [(by left) | right; lia] | lia | lia | done |].
        exists w', m. rewrite Hex. rewrite (attempts_trace_S a). cbn [tail].
        rewrite <- app_assoc. split; [reflexivity|]. split; [done|]. split; [done|].
        unfold failure_entry in *. destruct Hrc as (? & ? & ?). repeat split; [lia | done..].
    + destruct os; [discriminate Hs | simpl app in Hs; rewrite retry_script_snoc in Hs; discriminate Hs].
    + (* time passes *)
      cbn [exec input_step].
      destruct (IHf os o e a rc (tick dt w) tr Hs Hos Ho Hterm Ha Hle)
        as (w' & m & Hex & Hc & Hm & Hf); [by rewrite signal_aborted_tick|].
      by exists w', m.
    + destruct os; [discriminate Hs | simpl app in Hs; rewrite retry_script_snoc in Hs; discriminate Hs].
  - destruct i as [o'| |dt|s]; cbn [without_ticks List.filter] in Hs.
    + discriminate Hs.
    + (* the timer fires: the next iteration starts *)
      injection Hs as Hs. cbn [exec input_step].
      assert (seqZ (a + 1) (retry options - a)
              = (a + 1) :: seqZ (a + 1 + 1) (retry options - (a + 1))) as ->.
      { rewrite seqZ_cons by lia. f_equal. f_equal; lia. }
      cbn [for_loop]. rewrite run_sync_try_block, Hsig. cbn [effect_of].
      destruct (IHf os o e (a + 1) (rc + 1) w (tr ++ [PhysicalFetch url (timeout options)])
                  Hs Hos Ho) as (w' & m & Hex & Hc & Hm & Hf);
        [destruct Hterm; [(by left) | right; lia] | lia | lia | done |].
      exists w', m. rewrite Hex. rewrite (attempts_trace_S (a + 1)). cbn [tail].
      rewrite <- app_assoc. split; [reflexivity|]. split; [done|]. split; [done|].
      unfold failure_entry in *. destruct Hf as (? & ? & ?). repeat split; [lia | done..].
    + cbn [exec input_step].
      destruct (IHd os o e a rc e0 (tick dt w) tr Hs Hos Ho Hterm Ha Hle)
        as (w' & m & Hex & Hc & Hm & Hf); [by rewrite signal_aborted_tick|].
      by exists w', m.
    + discriminate Hs.
Qed.

End RetryLoop.

(** ** What one logical request does *)

Lemma physical_fetches_attempts_trace url t d a n :
  physical_fetches (attempts_trace url t d a n) = repeat (PhysicalFetch url t) n.
Proof.
  revert a. induction n as [|n IH]; intros a; [done|].
  destruct n as [|n]; [done|].
  change (attempts_trace url t d a (S (S n)))
    with (PhysicalFetch url t :: Sleep (d * 2 ^ a) :: attempts_trace url t d (a + 1) (S n)).
  cbn [physical_fetches List.filter]. fold (physical_fetches (attempts_trace url t d (a + 1) (S n))).
  by rewrite IH.
Qed.


Lemma last_attempts_trace url t d a n :
  last (attempts_trace url t d a (S n)) = Some (PhysicalFetch url t).
Proof.
  revert a. induction n as [|n IH]; intros a; [done|].
  change (attempts_trace url t d a (S (S n)))
    with (PhysicalFetch url t :: Sleep (d * 2 ^ a) :: attempts_trace url t d (a + 1) (S n)).
  rewrite !last_cons, IH. done.
Qed.

(** A request whose attempts fail one after the other, the last of them
    with an error that ends the loop or as the last attempt of the
    budget. *)
Lemma request_fails url options startTime w script os o e :
  0 <= retry options ->
  Z.of_nat (length os) <= retry options ->
  signal_aborted (signal options) w = false ->
  without_ticks script = retry_script (os ++ [o]) ->
  Forall retryable_failure os ->
  thrown_by o = Some e ->
  terminal_error e = true \/ Z.of_nat (length os) = retry options ->
  exists w' m,
    exec script (start (executeRequest url options startTime) w)
    = Some (w', Finished (Threw e),
            attempts_trace url (timeout options) (retryDelay options) 0 (S (length os)))
    /\ cache w' = cache w
    /\ metrics w' = recordMetrics url m (metrics w)
    /\ failure_entry (Z.of_nat (S (length os))) m.
Proof.
  intros Hretry Hlen Hsig Hs Hos Ho Hterm.
  unfold start, executeRequest.
  rewrite (seqZ_cons 0) by lia. cbn [for_loop].
  rewrite run_sync_try_block, Hsig. cbn [effect_of].
  replace (Z.pred (retry options + 1)) with (retry options - 0) by lia.
  change (Z.succ 0) with (0 + 1).
  destruct (proj1 (failing_attempts url options startTime script) os o e 0 0 w
              [PhysicalFetch url (timeout options)] Hs Hos Ho)
    as (w' & m & Hex & Hc & Hm & Hf); [by rewrite Z.add_0_l | lia | lia | done |].
  exists w', m. rewrite Hex. split; [|by rewrite Z.add_0_l in Hf].
  by rewrite attempts_trace_S.
Qed.

Lemma string_of_Z_4xx status :
  400 <= status <= 499 -> exists r, string_of_Z status = String "4" r.
Proof.
  intros H.
  assert (forallb (fun i => match string_of_Z (400 + Z.of_nat i) with
                            | String "4" _ => true
                            | _ => false
                            end) (seq 0 100) = true) as Hall by (vm_compute; reflexivity).
  rewrite forallb_forall in Hall.
  specialize (Hall (Z.to_nat (status - 400))).
  replace (400 + Z.of_nat (Z.to_nat (status - 400))) with status in Hall by lia.
  destruct (string_of_Z status) as [|c r]; [discriminate Hall; apply in_seq; lia|].
  assert (c = "4"%char) as ->.
  { destruct (Ascii.eqb_spec c "4"); [done|].
    assert (In (Z.to_nat (status - 400)) (seq 0 100)) as Hin by (apply in_seq; lia).
    specialize (Hall Hin).
    destruct c as [[] [] [] [] [] [] [] []]; try discriminate Hall; done. }
  by exists r.
Qed.

Lemma http_4xx_is_terminal status statusText :
  400 <= status <= 499 -> terminal_error (http_error status statusText) = true.
Proof.
  intros H. destruct (string_of_Z_4xx status H) as [r Hr].
  unfold terminal_error, http_error, Error. cbn [name message].
  rewrite Hr. destruct r; vm_compute; reflexivity.
Qed.

Lemma http_4xx_is_thrown status statusText body etag :
  400 <= status <= 499 ->
  thrown_by (Response status statusText body etag) = Some (http_error status statusText).
Proof.
  intros H. unfold thrown_by, response_ok.
  destruct (200 <=? status) eqn:E1, (status <=? 299) eqn:E2; try done. lia.
Qed.

(** ** The service on the event loop *)

Lemma service_inv_new t : service_inv (new_service t).
Proof. split; simpl; intros *; by rewrite lookup_empty. Qed.

Lemma service_inv_fetch c url options s :
  callers s !! c = None -> service_inv s -> service_inv (fetch c url options s).
Proof.
  intros Hc [I1 I2 I3]. unfold fetch.
  destruct (getFromCache _ _ _) as [[d|] cache'].
  - (* served from the cache *)
    split; simpl.
    + done.
    + intros c' key r. rewrite lookup_insert. case_decide; [done | by apply I2].
    + intros c1 c2 key r r'. rewrite !lookup_insert.
      repeat case_decide; try done. by apply I3.
  - destruct (pendingRequests s !! getCacheKey url options) as [r0|] eqn:Hp.
    + (* attached to the request in flight *)
      split; simpl.
      * done.
      * intros c' key r. rewrite lookup_insert. case_decide; [done | by apply I2].
      * intros c1 c2 key r r'. rewrite !lookup_insert.
        repeat case_decide; try done. by apply I3.
    + (* a new request *)
      destruct (run_sync _ _) as [w' st] eqn:Hrun.
      split; simpl.
      * intros r key st'. rewrite !lookup_insert.
        repeat case_decide; intros Hreq Hun; simplify_eq; try done.
        -- specialize (I1 _ _ _ Hreq Hun). congruence.
        -- by eapply I1.
      * intros c' key r. rewrite !lookup_insert.
        repeat case_decide; intros Hcal; simplify_eq; try done.
        -- specialize (I2 _ _ _ Hcal). congruence.
        -- by eapply I2.
      * intros c1 c2 key r r'. rewrite !lookup_insert.
        repeat case_decide; intros Hc1 Hc2; simplify_eq; try done.
        -- specialize (I2 _ _ _ Hc2). congruence.
        -- specialize (I2 _ _ _ Hc1). congruence.
        -- by eapply I3.
Qed.

Lemma service_inv_with_request r key st0 ws s :
  requests s !! r = Some (key, st0) -> unfinished st0 ->
  service_inv s -> service_inv (with_request r key ws s).
Proof.
  intros Hr Hun [I1 I2 I3]. split; simpl; [|done..].
  intros r' key' st'. rewrite lookup_insert. case_decide as E.
  - intros [= <- <-] _. subst r'. by eapply I1.
  - apply I1.
Qed.

Lemma service_inv_resume c s s' :
  resume c s = Some s' -> service_inv s -> service_inv s'.
Proof.
  intros Hres [I1 I2 I3]. unfold resume in Hres.
  destruct (callers s !! c) as [[key r|r startTime|o]|] eqn:Hc; [| |done..].
  - (* the initiator: [finally] removes the registry entry *)
    destruct (requests s !! r) as [[key' [o| |]]|] eqn:Hr; try done.
    injection Hres as <-. split; simpl.
    + intros r1 key1 st1 Hr1 Hun.
      pose proof (I1 _ _ _ Hr1 Hun) as Hp.
      rewrite lookup_delete. case_decide as Hk; [|done].
      subst key1. rewrite (I2 _ _ _ Hc) in Hp. injection Hp as <-.
      rewrite Hr in Hr1. injection Hr1 as <- <-. done.
    + intros c1 key1 r1. rewrite lookup_insert. case_decide; [done|].
      intros Hc1. rewrite lookup_delete. case_decide as Hk; [|by eapply I2].
      subst key1. by pose proof (I3 _ _ _ _ _ Hc Hc1).
    + intros c1 c2 key1 r1 r2. rewrite !lookup_insert.
      repeat case_decide; try done. by apply I3.
  - (* an attached caller *)
    destruct (requests s !! r) as [[key' [[result|e]| |]]|] eqn:Hr; try done;
      injection Hres as <-; split; simpl; try done.
    + intros c1 key1 r1. rewrite lookup_insert. case_decide; [done | by apply I2].
    + intros c1 c2 key1 r1 r2. rewrite !lookup_insert.
      repeat case_decide; try done. by apply I3.
    + intros c1 key1 r1. rewrite lookup_insert. case_decide; [done | by apply I2].
    + intros c1 c2 key1 r1 r2. rewrite !lookup_insert.
      repeat case_decide; try done. by apply I3.
Qed.

Lemma service_inv_step e s s' :
  step e s = Some s' -> service_inv s -> service_inv s'.
Proof.
  intros Hstep Hinv. destruct e as [c url options|r o|r|c|dt|sig|]; simpl in Hstep.
  - destruct (callers s !! c) eqn:Hc; [done|]. injection Hstep as <-.
    by apply service_inv_fetch.
  - destruct (requests s !! r) as [[key [o'|u t k|ms k]]|] eqn:Hr; try done.
    injection Hstep as <-. by eapply service_inv_with_request.
  - destruct (requests s !! r) as [[key [o'|u t k|ms k]]|] eqn:Hr; try done.
    injection Hstep as <-. by eapply service_inv_with_request.
  - by eapply service_inv_resume.
  - injection Hstep as <-. by destruct Hinv.
  - injection Hstep as <-. by destruct Hinv.
  - injection Hstep as <-. by destruct Hinv.
Qed.

Lemma service_inv_run events s s' :
  run events s = Some s' -> service_inv s -> service_inv s'.
Proof.
  revert s. induction events as [|e events IH]; intros s Hrun Hinv; simpl in Hrun.
  - by injection Hrun as <-.
  - destruct (step e s) as [s1|] eqn:Hstep; [|done].
    eapply IH; [done|]. by eapply service_inv_step.
Qed.

(** A caller that finds a request registered under its key starts none:
    served from the cache or attached, it leaves the requests as they
    are. *)
Lemma fetch_registered_starts_nothing c url options s r :
  pendingRequests s !! getCacheKey url options = Some r ->
  requests (fetch c url options s) = requests s
  /\ pendingRequests (fetch c url options s) = pendingRequests s
  /\ (fst (getFromCache (getCacheKey url options) (now (world s)) (cache (world s))) = None ->
      callers (fetch c url options s) !! c = Some (Attached r (perf (world s)))
      /\ metrics (world (fetch c url options s)) = metrics (world s)).
Proof.
  intros Hp. unfold fetch.
  destruct (getFromCache _ _ _) as [[d|] cache']; simpl.
  - repeat split; done.
  - rewrite Hp. simpl. repeat split; try done. by rewrite lookup_insert_eq.
Qed.

(** A caller that finds neither a cache entry nor a registered request
    starts the request, which goes to the network unless its signal is
    already aborted. *)
Lemma fetch_starts_request c url options s :
  fst (getFromCache (getCacheKey url options) (now (world s)) (cache (world s))) = None ->
  pendingRequests s !! getCacheKey url options = None ->
  signal_aborted (signal options) (world s) = false ->
  0 <= retry options ->
  let key := getCacheKey url options in
  let r := next_request s in
  let s1 := fetch c url options s in
  callers s1 !! c = Some (Initiator key r)
  /\ pendingRequests s1 !! key = Some r
  /\ signal_aborted (signal options) (world s1) = false
  /\ metrics (world s1) = metrics (world s)
  /\ requests s1 !! r
     = Some (key,
             OnFetch url (timeout options)
               (after_fetch url options (perf (world s))
                  (catch_block url options (perf (world s)) 0 0
                     (for_loop url options (perf (world s)) (seqZ 1 (retry options)))) 0)).
Proof.
  intros Hmiss Hp Hsig Hretry key r s1. subst key r s1. unfold fetch.
  destruct (getFromCache _ _ _) as [[d|] cache'] eqn:Hget; [discriminate Hmiss|].
  rewrite Hp. unfold executeRequest.
  rewrite (seqZ_cons 0) by lia. cbn [for_loop].
  rewrite run_sync_try_block.
  assert (signal_aborted (signal options) (with_cache cache' (world s)) = false) as ->
    by (by destruct (signal options)).
  simpl. rewrite !lookup_insert_eq.
  replace (Z.pred (retry options + 1)) with (retry options) by lia.
  repeat split; done.
Qed.

(** An attached caller that resumes gets the error of the request, or a
    result whose [data] is the whole result of the request; it records
    nothing. *)
Lemma resume_attached c s r startTime key o :
  callers s !! c = Some (Attached r startTime) ->
  requests s !! r = Some (key, Finished o) ->
  exists s',
    resume c s = Some s'
    /\ world s' = world s
    /\ match o with
       | Threw e => outcome_of s' c = Some (Threw e)
       | Returned result =>
           exists m, outcome_of s' c = Some (Returned (mkResult (result_json result) m))
       end.
Proof.
  intros Hc Hr. unfold resume. rewrite Hc, Hr.
  destruct o as [result|e]; eexists; (split; [reflexivity|]); (split; [reflexivity|]);
    unfold outcome_of; simpl; rewrite lookup_insert_eq; [by eexists | done].
Qed.

(** The caller that started the request resumes with its outcome. *)
Lemma resume_initiator c s r key key' o :
  callers s !! c = Some (Initiator key r) ->
  requests s !! r = Some (key', Finished o) ->
  exists s',
    resume c s = Some s'
    /\ world s' = world s
    /\ outcome_of s' c = Some o
    /\ pendingRequests s' = delete key (pendingRequests s).
Proof.
  intros Hc Hr. unfold resume. rewrite Hc, Hr.
  eexists. split; [reflexivity|]. split; [reflexivity|].
  unfold outcome_of. simpl. by rewrite lookup_insert_eq.
Qed.

(** ** Bounds on the two stores *)

Lemma recordMetrics_bounded url m ms :
  (forall u, (length (getMetrics u ms) <= 100)%nat) ->
  forall u, (length (getMetrics u (recordMetrics url m ms)) <= 100)%nat.
Proof.
  intros H u. destruct (decide (url = u)) as [<-|Hne].
  - rewrite getMetrics_recordMetrics. cbv zeta.
    destruct (100 <? length (getMetrics url ms ++ [m]))%nat eqn:E.
    + rewrite length_drop. apply Nat.ltb_lt in E. lia.
    + apply Nat.ltb_ge in E. lia.
  - by rewrite getMetrics_recordMetrics_ne.
Qed.

Lemma run_sync_bounded {R} (p : Proc R) w :
  stores_bounded w -> stores_bounded (fst (run_sync p w)).
Proof.
  revert w. induction p as [r|e|sig k IH|k IH|k IH|key d t etag k IH|url m k IH|url t k IH|ms k IH];
    intros w [Hc Hm]; cbn [run_sync fst]; try (split; done); try (by apply IH).
  - apply IH. split; [|done]. cbn [with_cache cache]. by apply setCache_size.
  - apply IH. split; [done|]. cbn [with_metrics metrics]. by apply recordMetrics_bounded.
Qed.

Lemma step_bounded e s s' :
  step e s = Some s' -> stores_bounded (world s) -> stores_bounded (world s').
Proof.
  intros Hstep Hb. destruct e as [c url options|r o|r|c|dt|sig|]; simpl in Hstep.
  - destruct (callers s !! c); [done|]. injection Hstep as <-.
    unfold fetch.
    pose proof (getFromCache_size (getCacheKey url options) (now (world s)) (cache (world s)))
      as Hsize.
    destruct (getFromCache _ _ _) as [[d|] cache']; simpl in Hsize.
    + destruct Hb as [Hc Hm]. split; cbn.
      * lia.
      * by apply recordMetrics_bounded.
    + assert (stores_bounded (with_cache cache' (world s))) as Hb'.
      { destruct Hb as [Hc Hm]. split; cbn; [lia | done]. }
      destruct (pendingRequests s !! _); [done|].
      pose proof (run_sync_bounded (executeRequest url options (perf (world s))) _ Hb') as Hrun.
      by destruct (run_sync _ _).
  - destruct (requests s !! r) as [[key [o'|u t k|ms k]]|]; try done.
    injection Hstep as <-. cbn. by apply run_sync_bounded.
  - destruct (requests s !! r) as [[key [o'|u t k|ms k]]|]; try done.
    injection Hstep as <-. cbn. by apply run_sync_bounded.
  - unfold resume in Hstep.
    destruct (callers s !! c) as [[key r|r startTime|o]|]; try done.
    + destruct (requests s !! r) as [[key' [o| |]]|]; try done. by injection Hstep as <-.
    + destruct (requests s !! r) as [[key' [[result|e]| |]]|]; try done;
        by injection Hstep as <-.
  - injection Hstep as <-. done.
  - injection Hstep as <-. done.
  - injection Hstep as <-. destruct Hb as [Hc Hm]. split; cbn; [|done].
    pose proof (cleanupCache_size (now (world s)) (cache (world s))). lia.
Qed.

(** X2, bounded memory: in every state the service can reach, the cache
    holds at most [maxCacheSize = 50] entries and the history of every
    endpoint at most 100. *)
Theorem service_stores_bounded events t s :
  run events (new_service t) = Some s -> stores_bounded (world s).
Proof.
  assert (forall s0, stores_bounded (world s0) -> run events s0 = Some s ->
                     stores_bounded (world s)) as Hgen.
  { induction events as [|e events IH]; intros s0 Hb Hrun; simpl in Hrun.
    - by injection Hrun as <-.
    - destruct (step e s0) as [s1|] eqn:Hstep; [|done].
      eapply IH; [|done]. by eapply step_bounded. }
  intros Hrun. eapply Hgen; [|done].
  split; [unfold map_size, maxCacheSize; simpl; lia|].
  intros url. unfold getMetrics. simpl. rewrite lookup_empty. simpl. lia.
Qed.

(** A service after one request that succeeded. *)
Lemma service_stores_bounded_witness :
  let events := [Call 1 "/data/weekly_stats.json" [];
                 Settle 0 (Response 200 "OK" (Parsed (JNum 6)) None); Resume 1] in
  exists s,
    run events (new_service 1000) = Some s
    /\ stores_bounded (world s).
Proof.
  intros events.
  destruct (run events (new_service 1000)) as [s|] eqn:Hrun;
    [|vm_compute in Hrun; discriminate Hrun].
  exists s. split; [done|].
  exact (service_stores_bounded events 1000 s Hrun).
Defined.

(** ** The request key *)

Lemma same_but_signal_json o1 o2 :
  same_but_signal o1 o2 -> config_json o1 = config_json o2.
Proof.
  unfold config_json. intros H. f_equal.
  induction H as [|[k1 v1] [k2 v2] o1 o2 [Hk Hv] _ IH]; [done|].
  simpl in Hk, Hv. subst k2. cbn [omap list_omap fst snd].
  destruct Hv as [<-|(s1 & s2 & -> & ->)].
  - destruct v1; cbn; by rewrite ?IH.
  - cbn. by rewrite IH.
Qed.

(** * The claims of the specification *)

(** ** Deduplication (C1) *)

(** X1, the part of C1 that holds: in every state the service can reach,
    at most one request per key is in flight, whatever the callers, the
    network, the timers and the clock do. *)
Theorem one_request_in_flight_per_key events t s key r1 r2 :
  run events (new_service t) = Some s ->
  in_flight s key r1 -> in_flight s key r2 -> r1 = r2.
Proof.
  intros Hrun (st1 & Hr1 & Hun1) (st2 & Hr2 & Hun2).
  pose proof (service_inv_run _ _ _ Hrun (service_inv_new t)) as [I1 _ _].
  pose proof (I1 _ _ _ Hr1 Hun1) as H1.
  pose proof (I1 _ _ _ Hr2 Hun2) as H2.
  congruence.
Qed.

(** Two callers for one key while the first physical fetch is on the
    network: the request numbered 0 is in flight, and it is the only
    one. *)
Lemma one_request_in_flight_per_key_witness :
  let url := "/data/weekly_stats.json" in
  let events := [Call 1 url []; Call 2 url []; Elapse 10] in
  exists s,
    run events (new_service 1000) = Some s
    /\ in_flight s (getCacheKey url []) 0
    /\ on_network s (getCacheKey url []) 0
    /\ forall r, in_flight s (getCacheKey url []) r -> r = 0%nat.
Proof.
  intros url events.
  destruct (run events (new_service 1000)) as [s|] eqn:Hrun;
    [|vm_compute in Hrun; discriminate Hrun].
  exists s.
  assert (in_flight s (getCacheKey url []) 0) as Hin.
  { vm_compute in Hrun. injection Hrun as <-.
    eexists. split; [vm_compute; reflexivity | exact I]. }
  assert (on_network s (getCacheKey url []) 0) as Hnet.
  { vm_compute in Hrun. injection Hrun as <-. do 3 eexists. vm_compute. reflexivity. }
  split; [done|]. split; [done|]. split; [done|].
  intros r Hr.
  exact (one_request_in_flight_per_key events 1000 s (getCacheKey url []) r 0 Hrun Hr Hin).
Defined.

(** C1, on two views that ask for the same resource in the same tick:
    one request is started and both callers complete, but the caller
    that started the request gets [{ data, metrics }] while the attached
    caller gets that whole object as its [data]. *)
Theorem attached_caller_receives_wrapped_result :
  let url := "/data/summary.json" in
  let options := [("retry", ONum 3)] in
  let d := JObj [("total_companies", JNum 6)] in
  exists s m1 m2,
    run [Call 1 url options; Call 2 url options; Elapse 30;
         Settle 0 (Response 200 "OK" (Parsed d) None); Resume 1; Resume 2]
        (new_service 1000) = Some s
    /\ next_request s = 1%nat
    /\ outcome_of s 1 = Some (Returned (mkResult d m1))
    /\ outcome_of s 2 = Some (Returned (mkResult (result_json (mkResult d m1)) m2))
    /\ result_json (mkResult d m1) <> d.
Proof.
  intros url options d. do 3 eexists.
  split; [vm_compute; reflexivity|].
  split; [vm_compute; reflexivity|].
  split; [vm_compute; reflexivity|].
  split; [vm_compute; reflexivity|].
  discriminate.
Qed.

(** ** Expiry of cache entries (C2) *)

(** C2, as the code has it: an entry stored at [t0] with [ttl = T] is
    returned by a read at [now] as long as [now - t0 <= T], the exact
    boundary [now - t0 = T] included, and is absent (and deleted by the
    read) once [now - t0 > T]. *)
Theorem cache_entry_valid_through_ttl key d T etag t0 now c :
  getFromCache key now (setCache key d T etag t0 c)
  = if now - t0 >? T
    then (None, map_delete key (setCache key d T etag t0 c))
    else (Some d, setCache key d T etag t0 c).
Proof.
  unfold getFromCache at 1.
  assert (map_get key (setCache key d T etag t0 c) = Some (mkEntry d t0 T etag)) as ->.
  { unfold setCache. apply map_get_set_eq. }
  done.
Qed.

(** C2 as stated fails: at the exact boundary age [= T] the read is still
    a hit. *)
Lemma cache_read_at_ttl_boundary_is_hit :
  ~ (forall key d T etag t0 now c,
       now - t0 >= T ->
       fst (getFromCache key now (setCache key d T etag t0 c)) = None).
Proof.
  intros H. specialize (H "k" (JNum 1) 500 None 1000 1500 []).
  vm_compute in H. discriminate H; done.
Qed.

(** ** Timeouts (C3) *)

(** C3, as the code has it: an attempt whose timer fires rejects with an
    [AbortError], which the guard of the [catch] block treats as final.
    Whatever the number of attempts left, the request ends there: it
    throws the [AbortError], sleeps no more and makes no further
    attempt, and records one failure entry. *)
Theorem timeout_ends_the_request url options startTime w script outcomes :
  Z.of_nat (length outcomes) <= retry options ->
  Forall retryable_failure outcomes ->
  signal_aborted (signal options) w = false ->
  without_ticks script = retry_script (outcomes ++ [TimedOut]) ->
  exists w' m trace,
    exec script (start (executeRequest url options startTime) w)
    = Some (w', Finished (Threw AbortError), trace)
    /\ length (physical_fetches trace) = S (length outcomes)
    /\ last trace = Some (PhysicalFetch url (timeout options))
    /\ metrics w' = recordMetrics url m (metrics w)
    /\ failure_entry (Z.of_nat (S (length outcomes))) m.
Proof.
  intros Hlen Hall Hsig Hs.
  destruct (request_fails url options startTime w script outcomes TimedOut AbortError)
    as (w' & m & Hex & _ & Hm & Hf); [lia | done.. | by left |].
  exists w', m, (attempts_trace url (timeout options) (retryDelay options) 0 (S (length outcomes))).
  split; [done|].
  split; [by rewrite physical_fetches_attempts_trace, repeat_length|].
  split; [apply last_attempts_trace | done].
Qed.

(** Three retries configured: the first attempt gets a 500, the second
    times out. *)
Lemma timeout_ends_the_request_witness :
  let url := "/data/weekly_stats.json" in
  let options := [("timeout", ONum 15000)] in
  let w := mkWorld [] ∅ 1000 0 ∅ in
  let outcomes := [Response 500 "Internal Server Error" no_body None] in
  let script := [FetchSettles (Response 500 "Internal Server Error" no_body None);
                 Tick 1000; TimerFires; Tick 15000; FetchSettles TimedOut] in
  (Z.of_nat (length outcomes) <= retry options
   /\ Forall retryable_failure outcomes
   /\ signal_aborted (signal options) w = false
   /\ without_ticks script = retry_script (outcomes ++ [TimedOut]))
  /\ exists w' m trace,
       exec script (start (executeRequest url options 0) w)
       = Some (w', Finished (Threw AbortError), trace)
       /\ length (physical_fetches trace) = S (length outcomes)
       /\ last trace = Some (PhysicalFetch url (timeout options))
       /\ metrics w' = recordMetrics url m (metrics w)
       /\ failure_entry (Z.of_nat (S (length outcomes))) m.
Proof.
  intros url options w outcomes script.
  assert (Z.of_nat (length outcomes) <= retry options) as H1 by (vm_compute; discriminate).
  assert (Forall retryable_failure outcomes) as H2
    by (repeat constructor; eexists; split; vm_compute; reflexivity).
  assert (signal_aborted (signal options) w = false) as H3 by reflexivity.
  assert (without_ticks script = retry_script (outcomes ++ [TimedOut])) as H4 by reflexivity.
  split; [done|].
  exact (timeout_ends_the_request url options 0 w script outcomes H1 H2 H3 H4).
Defined.

(** C3 as stated fails: with three retries left, a first attempt that
    times out does not leave the request sleeping before a second
    attempt. *)
Lemma timeout_on_first_attempt_is_not_retried :
  ~ (forall url options startTime w,
       0 < retry options ->
       signal_aborted (signal options) w = false ->
       exists w' ms k trace,
         exec [FetchSettles TimedOut] (start (executeRequest url options startTime) w)
         = Some (w', OnDelay ms k, trace)).
Proof.
  intros H.
  destruct (H "/data/weekly_stats.json" [] 0 (mkWorld [] ∅ 1000 0 ∅))
    as (w' & ms & k & trace & Hex); [done | done |].
  vm_compute in Hex. discriminate Hex.
Qed.

(** ** Cancellation (C4) *)

(** C4, as the code has it: a request whose signal is already aborted
    when its first attempt starts makes no physical attempt and throws
    [Error: Request aborted]; the failure is recorded like any other,
    with one entry (retry count 1, payload size 0) pushed on the history
    of the endpoint. *)
Theorem aborted_before_first_attempt url options startTime w s :
  signal options = Some s ->
  s ∈ aborted w ->
  0 <= retry options ->
  let entry := mkMetrics (perf w - startTime) false 1 0 (now w) in
  start (executeRequest url options startTime) w
  = (with_metrics (recordMetrics url entry (metrics w)) w,
     Finished (Threw (Error "Request aborted")), [])
  /\ getMetrics url (recordMetrics url entry (metrics w))
     = let urlMetrics := getMetrics url (metrics w) ++ [entry] in
       if (100 <? length urlMetrics)%nat
       then drop (length urlMetrics - 100)%nat urlMetrics
       else urlMetrics.
Proof.
  intros Hsig Hin Hretry entry. split; [|apply getMetrics_recordMetrics].
  unfold start, executeRequest.
  rewrite (seqZ_cons 0) by lia. cbn [for_loop].
  assert (signal_aborted (signal options) w = true) as Hab.
  { rewrite Hsig. simpl. by apply bool_decide_eq_true. }
  rewrite run_sync_try_block, Hab, run_sync_catch_block, Hab, orb_true_r.
  by rewrite run_sync_after_loop.
Qed.

(** The signal of the caller is aborted before the request starts. *)
Lemma aborted_before_first_attempt_witness :
  let url := "/data/weekly_stats.json" in
  let options := [("retry", ONum 3); ("signal", OSignal 1)] in
  let w := mkWorld [] ∅ 1000 7 {[1%nat]} in
  let entry := mkMetrics 7 false 1 0 1000 in
  (signal options = Some 1%nat /\ 1%nat ∈ aborted w /\ 0 <= retry options)
  /\ start (executeRequest url options 0) w
     = (with_metrics (recordMetrics url entry (metrics w)) w,
        Finished (Threw (Error "Request aborted")), [])
  /\ getMetrics url (recordMetrics url entry (metrics w)) = [entry].
Proof.
  intros url options w entry.
  assert (signal options = Some 1%nat) as H1 by reflexivity.
  assert (1%nat ∈ aborted w) as H2 by (vm_compute; reflexivity).
  assert (0 <= retry options) as H3 by (vm_compute; discriminate).
  split; [done|].
  exact (aborted_before_first_attempt url options 0 w 1%nat H1 H2 H3).
Defined.

(** C4 as stated fails, twice. The request aborted before its first
    attempt adds an entry to the history of its endpoint. And a request
    whose signal is aborted while its first attempt is on the network is
    not stopped: the signal is not passed to [fetch], and when the
    response arrives the request returns its data. *)
Lemma aborted_request_is_recorded :
  ~ (forall url options startTime w s,
       signal options = Some s ->
       s ∈ aborted w ->
       getMetrics url (metrics (fst (fst (start (executeRequest url options startTime) w))))
       = getMetrics url (metrics w))
  /\ (let url := "/data/weekly_stats.json" in
      let options := [("signal", OSignal 1)] in
      let w := mkWorld [] ∅ 1000 0 ∅ in
      exists w' m,
        exec [Abort 1; Tick 25; FetchSettles (Response 200 "OK" (Parsed (JNum 6)) None)]
          (start (executeRequest url options 0) w)
        = Some (w', Finished (Returned (mkResult (JNum 6) m)), [PhysicalFetch url 10000])
        /\ getMetrics url (metrics w') = [m]).
Proof.
  split.
  - intros H.
    specialize (H "/data/weekly_stats.json" [("signal", OSignal 1)] 0
                  (mkWorld [] ∅ 1000 0 {[1%nat]}) 1%nat).
    assert (1%nat ∈ aborted (mkWorld [] ∅ 1000 0 {[1%nat]})) as Hin by (simpl; set_solver).
    specialize (H eq_refl Hin). vm_compute in H. discriminate H.
  - intros url options w. do 2 eexists.
    split; vm_compute; reflexivity.
Qed.

(** ** Retry budget and backoff (C5) *)



(** ** Client errors (C6) *)

(** C6: a first attempt answered with a status from 400 to 499 is the
    only physical attempt of the request: no sleep, no retry, one
    failure entry recorded, and the error [HTTP <status>: <statusText>]
    thrown. On the service, the caller of [fetch] that started the
    request gets that error, and the registry entry is gone. *)
Theorem client_error_is_not_retried url options status statusText body etag :
  400 <= status <= 499 ->
  0 <= retry options ->
  (forall startTime w script,
     signal_aborted (signal options) w = false ->
     without_ticks script = [FetchSettles (Response status statusText body etag)] ->
     exists w' m,
       exec script (start (executeRequest url options startTime) w)
       = Some (w', Finished (Threw (http_error status statusText)),
               [PhysicalFetch url (timeout options)])
       /\ cache w' = cache w
       /\ metrics w' = recordMetrics url m (metrics w)
       /\ failure_entry 1 m)
  /\ (forall c s,
       callers s !! c = None ->
       fst (getFromCache (getCacheKey url options) (now (world s)) (cache (world s))) = None ->
       pendingRequests s !! getCacheKey url options = None ->
       signal_aborted (signal options) (world s) = false ->
       exists s' m,
         run [Call c url options;
              Settle (next_request s) (Response status statusText body etag);
              Resume c] s = Some s'
         /\ outcome_of s' c = Some (Threw (http_error status statusText))
         /\ pendingRequests s' !! getCacheKey url options = None
         /\ metrics (world s') = recordMetrics url m (metrics (world s))
         /\ failure_entry 1 m).
Proof.
  intros Hstatus Hretry.
  pose proof (http_4xx_is_thrown status statusText body etag Hstatus) as Hthrown.
  pose proof (http_4xx_is_terminal status statusText Hstatus) as Hterm.
  split.
  - intros startTime w script Hsig Hs.
    apply (request_fails url options startTime w script []
             (Response status statusText body etag) (http_error status statusText));
      [done | simpl; lia | done | done | done | done | by left].
  - intros c s Hc Hmiss Hp Hsig.
    destruct (fetch_starts_request c url options s Hmiss Hp Hsig Hretry)
      as (Hcal & Hpend & Hsig1 & Hm1 & Hreq).
    cbn [run step]. rewrite Hc, Hreq.
    rewrite (after_fetch_throws _ _ _ _ _ _ _ Hthrown), run_sync_catch_block, Hterm.
    cbn [orb]. rewrite run_sync_after_loop.
    unfold resume, with_request. cbn [callers requests fst snd].
    rewrite Hcal, lookup_insert_eq.
    eexists. exists (mkMetrics (perf (world (fetch c url options s)) - perf (world s)) false
                       (0 + 1) 0 (now (world (fetch c url options s)))).
    split; [reflexivity|].
    split; [unfold outcome_of; cbn [callers]; by rewrite lookup_insert_eq|].
    split; [cbn [pendingRequests]; by rewrite lookup_delete_eq|].
    split; [cbn [world failed with_metrics metrics]; by rewrite Hm1|].
    by unfold failure_entry.
Qed.

(** A 404 on the first attempt, on the request alone and on a service
    that has just been created. *)
Lemma client_error_is_not_retried_witness :
  let url := "/data/missing.json" in
  let options := [("retry", ONum 3); ("retryDelay", ONum 1500)] in
  let w := mkWorld [] ∅ 1000 0 ∅ in
  let script := [Tick 20; FetchSettles (Response 404 "Not Found" no_body None)] in
  let s := new_service 1000 in
  (400 <= 404 <= 499
   /\ 0 <= retry options
   /\ signal_aborted (signal options) w = false
   /\ without_ticks script = [FetchSettles (Response 404 "Not Found" no_body None)]
   /\ callers s !! 1%nat = None
   /\ fst (getFromCache (getCacheKey url options) (now (world s)) (cache (world s))) = None
   /\ pendingRequests s !! getCacheKey url options = None
   /\ signal_aborted (signal options) (world s) = false)
  /\ (exists w' m,
        exec script (start (executeRequest url options 0) w)
        = Some (w', Finished (Threw (http_error 404 "Not Found")),
                [PhysicalFetch url (timeout options)])
        /\ cache w' = cache w
        /\ metrics w' = recordMetrics url m (metrics w)
        /\ failure_entry 1 m)
  /\ (exists s' m,
        run [Call 1 url options; Settle (next_request s) (Response 404 "Not Found" no_body None);
             Resume 1] s = Some s'
        /\ outcome_of s' 1 = Some (Threw (http_error 404 "Not Found"))
        /\ pendingRequests s' !! getCacheKey url options = None
        /\ metrics (world s') = recordMetrics url m (metrics (world s))
        /\ failure_entry 1 m).
Proof.
  intros url options w script s.
  assert (400 <= 404 <= 499) as H1 by lia.
  assert (0 <= retry options) as H2 by (vm_compute; discriminate).
  assert (signal_aborted (signal options) w = false) as H3 by reflexivity.
  assert (without_ticks script = [FetchSettles (Response 404 "Not Found" no_body None)]) as H4
    by reflexivity.
  assert (callers s !! 1%nat = None) as H5 by reflexivity.
  assert (fst (getFromCache (getCacheKey url options) (now (world s)) (cache (world s))) = None)
    as H6 by reflexivity.
  assert (pendingRequests s !! getCacheKey url options = None) as H7 by reflexivity.
  assert (signal_aborted (signal options) (world s) = false) as H8 by reflexivity.
  split; [done|].
  destruct (client_error_is_not_retried url options 404 "Not Found" no_body None H1 H2)
    as [Hreq Hsvc].
  split; [exact (Hreq 0 w script H3 H4) | exact (Hsvc 1%nat s H5 H6 H7 H8)].
Defined.

(** ** Capacity of the cache (C7) *)

(** C7: after any sequence of cache operations the cache holds at most
    [maxCacheSize = 50] entries; an insertion at capacity removes exactly
    the first entry in insertion order and then inserts; a key that is
    new goes last and a key that is present keeps its place; and a read
    that hits leaves the cache, order included, as it was. *)
Theorem cache_bounded_oldest_evicted (ops : list CacheOp) :
  let c := cache_ops ops in
  map_size c <= maxCacheSize
  /\ (forall key d ttl etag now,
        map_size c = maxCacheSize ->
        exists oldestKey oldest rest,
          c = (oldestKey, oldest) :: rest
          /\ setCache key d ttl etag now c = map_set key (mkEntry d now ttl etag) rest)
  /\ (forall key (v : CacheEntry) (rest : list (string * CacheEntry)),
        (map_get key rest = None ->
         map_set key v rest = rest ++ [(key, v)])
        /\ (is_Some (map_get key rest) ->
            map_keys (map_set key v rest) = map_keys rest))
  /\ (forall key now v,
        fst (getFromCache key now c) = Some v ->
        snd (getFromCache key now c) = c).
Proof.
  intros c. repeat split.
  - apply cache_ops_size_from. unfold map_size, maxCacheSize. simpl. lia.
  - intros key d ttl etag now Hfull.
    destruct c as [|[k0 e0] rest] eqn:Ec.
    + unfold map_size, maxCacheSize in Hfull. simpl in Hfull. lia.
    + exists k0, e0, rest. split; [done|].
      apply setCache_at_capacity. lia.
  - apply map_set_fresh.
  - apply map_set_present.
  - intros key now v. apply getFromCache_hit_keeps_cache.
Qed.

(** Fifty entries under the keys 0 to 49 fill the cache, and the oldest
    of them, 0, is then read. The next insertion evicts it all the same. *)
Lemma cache_bounded_oldest_evicted_witness :
  let fill := map (fun i => OpSet (string_of_Z i) (JNum i) 300000 None (1000 + i)) (seqZ 0 50) in
  let c := cache_ops (fill ++ [OpGet "0" 1100]) in
  (map_size c = maxCacheSize
   /\ fst (getFromCache "0" 1100 (cache_ops fill)) = Some (JNum 0))
  /\ exists oldest rest,
       c = ("0", oldest) :: rest
       /\ setCache "50" JNull 300000 None 2000 c
          = map_set "50" (mkEntry JNull 2000 300000 None) rest
       /\ map_get "0" (setCache "50" JNull 300000 None 2000 c) = None.
Proof.
  intros fill c.
  assert (map_size c = maxCacheSize) as Hfull by (vm_compute; reflexivity).
  split; [split; [exact Hfull | vm_compute; reflexivity]|].
  destruct (proj1 (proj2 (cache_bounded_oldest_evicted (fill ++ [OpGet "0" 1100])))
              "50" JNull 300000 None 2000 Hfull)
    as (oldestKey & oldest & rest & Hc & Hset).
  fold c in Hc, Hset.
  assert (oldestKey = "0") as ->.
  { assert (first_key c = Some oldestKey) as Hk by (by rewrite Hc).
    vm_compute in Hk. by injection Hk as <-. }
  exists oldest, rest. split; [exact Hc|]. split; [exact Hset|].
  vm_compute. reflexivity.
Defined.

(** ** One metrics entry per logical request (C8) *)

(** C8, on two views that ask for the same resource in the same tick:
    both calls of [fetch] complete, one by starting the request and one
    by attaching to it, and the history of the endpoint holds one entry,
    the one [executeRequest] recorded; the attached caller has recorded
    none. *)
Theorem attached_caller_is_not_recorded :
  let url := "/data/summary.json" in
  let options := [("retry", ONum 3)] in
  let d := JObj [("total_companies", JNum 6)] in
  exists s m,
    run [Call 1 url options; Call 2 url options; Elapse 30;
         Settle 0 (Response 200 "OK" (Parsed d) None); Resume 1; Resume 2]
        (new_service 1000) = Some s
    /\ is_Some (outcome_of s 1)
    /\ is_Some (outcome_of s 2)
    /\ getMetrics url (metrics (world s)) = [m].
Proof.
  intros url options d. do 2 eexists.
  split; [vm_compute; reflexivity|].
  split; [vm_compute; by eexists|].
  split; [vm_compute; by eexists|].
  vm_compute. reflexivity.
Qed.

(** ** Fallback data (C9) *)





(** ** The request key (C10) *)

(** C10: the key is the URL, a colon and the JSON text of the
    configuration. Two configurations with the same JSON text have the
    same key, and a call that is served by the cache or by a request in
    flight is served the same under either of them: the same cache entry
    is read, the same request is attached to. Two configurations that
    differ only in which [AbortSignal] they carry have the same JSON
    text. *)
Theorem key_ignores_signal_identity url o1 o2 :
  getCacheKey url o1 = url +:+ ":" +:+ stringify (config_json o1)
  /\ (stringify (config_json o1) = stringify (config_json o2) ->
      getCacheKey url o1 = getCacheKey url o2
      /\ forall c s,
           is_Some (fst (getFromCache (getCacheKey url o1) (now (world s)) (cache (world s))))
           \/ is_Some (pendingRequests s !! getCacheKey url o1) ->
           fetch c url o2 s = fetch c url o1 s)
  /\ (same_but_signal o1 o2 ->
      stringify (config_json o1) = stringify (config_json o2)).
Proof.
  split; [done|]. split.
  - intros Hjson.
    assert (getCacheKey url o1 = getCacheKey url o2) as Hkey.
    { unfold getCacheKey. by rewrite Hjson. }
    split; [done|]. intros c s Hserved. unfold fetch. rewrite <- Hkey.
    destruct (getFromCache _ _ _) as [[d|] cache']; [done|].
    destruct (pendingRequests s !! getCacheKey url o1) as [r|]; [done|].
    destruct Hserved as [[? Hx]|[? Hx]]; discriminate Hx.
  - intros Hsame. by rewrite (same_but_signal_json _ _ Hsame).
Qed.

(** Two configurations with different signals, the first one with a
    request in flight. *)
Lemma key_ignores_signal_identity_witness :
  let url := "/data/weekly_stats.json" in
  let o1 := [("retry", ONum 3); ("signal", OSignal 1)] in
  let o2 := [("retry", ONum 3); ("signal", OSignal 2)] in
  let s := fetch 1 url o1 (new_service 1000) in
  (same_but_signal o1 o2
   /\ is_Some (pendingRequests s !! getCacheKey url o1))
  /\ stringify (config_json o1) = stringify (config_json o2)
  /\ getCacheKey url o1 = getCacheKey url o2
  /\ fetch 2 url o2 s = fetch 2 url o1 s.
Proof.
  intros url o1 o2 s.
  assert (same_but_signal o1 o2) as H1.
  { constructor; [split; [reflexivity | left; reflexivity]|].
    constructor; [split; [reflexivity | right; by exists 1%nat, 2%nat]|].
    constructor. }
  assert (is_Some (pendingRequests s !! getCacheKey url o1)) as H2
    by (vm_compute; by eexists).
  split; [done|].
  destruct (key_ignores_signal_identity url o1 o2) as (_ & Hshare & Hjson).
  specialize (Hjson H1). destruct (Hshare Hjson) as [Hkey Hfetch].
  split; [exact Hjson|]. split; [exact Hkey|]. apply Hfetch. by right.
Defined.

(** * Further properties of the code *)

Import RequestStates Waiting Recorder Monitoring UseDataFetchHandlers UsePreloadData UseDataFetchCalls.

(** * The request in any environment *)

Section RequestInAnyEnvironment.
Variables (url : string) (options : RequestConfig) (startTime : Z).

Local Abbreviation fetching := (fetching url options startTime).
Local Abbreviation sleeping := (sleeping url options startTime).
Local Abbreviation attempts := (attempts url options).
Local Abbreviation request_state := (request_state url options startTime).

Lemma attempts_snoc n :
  attempts (S (S n))
  = attempts (S n) ++ [Sleep (retryDelay options * 2 ^ Z.of_nat n);
                       PhysicalFetch url (timeout options)].
Proof.
  unfold RequestStates.attempts.
  assert (forall a,
    attempts_trace url (timeout options) (retryDelay options) a (S (S n))
    = attempts_trace url (timeout options) (retryDelay options) a (S n)
      ++ [Sleep (retryDelay options * 2 ^ (a + Z.of_nat n));
          PhysicalFetch url (timeout options)]) as H.
  { induction n as [|n IH]; intros a.
    - simpl. by rewrite Z.add_0_r.
    - rewrite (attempts_trace_S url options a (S (S n))), IH.
      rewrite (attempts_trace_S url options a (S n)). simpl app.
      replace (a + 1 + Z.of_nat n) with (a + Z.of_nat (S n)) by lia. reflexivity. }
  by rewrite H.
Qed.

Lemma failed_failure_recorded w0 w rc :
  untouched w0 w -> failure_recorded url w0 (failed url startTime rc w) rc.
Proof.
  intros [Hc Hm]. split; [exact Hc|].
  exists (mkMetrics (perf w - startTime) false rc 0 (now w)).
  simpl. rewrite Hm. by repeat split.
Qed.

Lemma untouched_tick w0 w dt : untouched w0 w -> untouched w0 (tick dt w).
Proof. by intros [? ?]. Qed.

Lemma untouched_abort w0 w s : untouched w0 w -> untouched w0 (abort s w).
Proof. by intros [? ?]. Qed.

Lemma failure_recorded_tick w0 w rc dt :
  failure_recorded url w0 w rc -> failure_recorded url w0 (tick dt w) rc.
Proof. by intros [? ?]. Qed.

Lemma failure_recorded_abort w0 w rc s :
  failure_recorded url w0 w rc -> failure_recorded url w0 (abort s w) rc.
Proof. by intros [? ?]. Qed.

Lemma signal_aborted_abort sig s w :
  signal_aborted sig w = true -> signal_aborted sig (abort s w) = true.
Proof.
  destruct sig as [s'|]; simpl; [|done].
  intros H. apply bool_decide_eq_true in H. apply bool_decide_eq_true. set_solver.
Qed.

(** The request as [executeRequest] leaves it at its first [await]. *)
Lemma request_state_start w :
  request_state w [] (start (executeRequest url options startTime) w).
Proof.
  unfold start, executeRequest.
  destruct (Z_lt_ge_dec (retry options) 0) as [Hneg|Hpos].
  - rewrite seqZ_nil by lia. cbn [for_loop]. rewrite run_sync_after_loop. cbn [effect_of].
    apply rs_no_attempt; [done | done |]. by apply failed_failure_recorded.
  - rewrite seqZ_cons by lia. cbn [for_loop]. rewrite run_sync_try_block.
    destruct (signal_aborted (signal options) w) eqn:Hsig.
    + rewrite run_sync_catch_block, Hsig, orb_true_r, run_sync_after_loop. cbn [effect_of].
      apply rs_aborted_at_start; [done | lia | done |].
      by apply failed_failure_recorded.
    + cbn [effect_of].
      replace (Z.succ 0) with (0 + 1) by lia.
      replace (Z.pred (retry options + 1)) with (retry options - 0) by lia.
      apply (rs_fetching url options startTime w [] w); [constructor | simpl; lia | done].
Qed.

Lemma terminal_error_aborted : terminal_error (Error "Request aborted") = false.
Proof. reflexivity. Qed.

Lemma length_snoc {A} (l : list A) (x : A) : length (l ++ [x]) = S (length l).
Proof. rewrite length_app. simpl. lia. Qed.

(** One input keeps the request in one of its states. *)
Lemma request_state_step w0 os i c c' :
  request_state w0 os c ->
  input_step i c = Some c' ->
  request_state w0 (os ++ settled [i]) c'.
Proof.
  intros Hst Hstep.
  destruct Hst as [w Hos Hle Hu|w os' o e -> Hos Ho Hlt Hu|w -> Hneg Hf|w -> Hpos Hsig Hf
                  |w os' o -> Hos Hlt Hsig Hf|w os' o e -> Hos' Ho Hle Hwhy Hf
                  |w os' status statusText d etag m -> Hos' Hok Hle Hhit Hrc Hsize Hc Hm].
  - (* suspended on a physical fetch *)
    destruct i as [o| |dt|s]; simpl in Hstep; [|done|..].
    + cbn [settled omap].
      destruct (thrown_by o) as [e|] eqn:Ho.
      * rewrite (after_fetch_throws _ _ _ _ _ _ _ Ho), run_sync_catch_block in Hstep.
        destruct (terminal_error e || signal_aborted (signal options) w) eqn:Hstop.
        -- rewrite run_sync_after_loop in Hstep. injection Hstep as <-. cbn [effect_of default].
           rewrite app_nil_r, <- (length_snoc os o).
           eapply rs_failed; [done | done | done | done | |].
           ++ apply orb_true_iff in Hstop as [?|?]; [by left | right; by left].
           ++ rewrite length_snoc, Nat2Z.inj_succ. by apply failed_failure_recorded.
        -- apply orb_false_iff in Hstop as [Hterm Hsig].
           destruct (Z.of_nat (length os) <? retry options) eqn:Hlt.
           ++ injection Hstep as <-. cbn [effect_of].
              apply Z.ltb_lt in Hlt.
              apply (rs_sleeping url options startTime w0 (os ++ [o]) w os o e);
                [done | | done | done | done].
              apply Forall_app. split; [done|]. constructor; [by exists e | constructor].
           ++ apply Z.ltb_ge in Hlt.
              assert (Z.of_nat (length os) = retry options) as Heq by lia.
              rewrite seqZ_nil in Hstep by lia. cbn [for_loop] in Hstep.
              rewrite run_sync_after_loop in Hstep. injection Hstep as <-.
              cbn [effect_of default]. rewrite app_nil_r, <- (length_snoc os o).
              eapply rs_failed; [done | done | done | done | right; by right |].
              rewrite length_snoc, Nat2Z.inj_succ. by apply failed_failure_recorded.
      * destruct o as [status statusText body etag|msg|]; simpl in Ho; [|done..].
        destruct (response_ok status) eqn:Hok; [|done]. simpl in Ho.
        destruct body as [d|msg]; [|done].
        cbn [after_fetch] in Hstep. unfold on_response in Hstep. rewrite Hok in Hstep.
        cbn [negb run_sync] in Hstep. injection Hstep as <-. cbn [effect_of].
        rewrite app_nil_r,
          <- (length_snoc os (Response status statusText (Parsed d) etag)).
        destruct Hu as [Hc Hm].
        eapply rs_returned; [done | done | done | done | done | done | done | |].
        -- simpl. by rewrite Hc.
        -- simpl. by rewrite Hm.
    + injection Hstep as <-. cbn [settled omap]. rewrite app_nil_r.
      apply rs_fetching; [done | done | by apply untouched_tick].
    + injection Hstep as <-. cbn [settled omap]. rewrite app_nil_r.
      apply rs_fetching; [done | done | by apply untouched_abort].
  - (* suspended on the backoff timer *)
    destruct i as [o'| |dt|s]; simpl in Hstep; [done|..].
    + cbn [settled omap]. rewrite app_nil_r.
      assert (seqZ (Z.of_nat (length os') + 1) (retry options - Z.of_nat (length os'))
              = (Z.of_nat (length os') + 1)
                  :: seqZ (Z.of_nat (length os') + 1 + 1)
                       (retry options - (Z.of_nat (length os') + 1))) as Hseq.
      { rewrite seqZ_cons by lia. f_equal. f_equal; lia. }
      rewrite Hseq in Hstep. cbn [for_loop] in Hstep. rewrite run_sync_try_block in Hstep.
      destruct (signal_aborted (signal options) w) eqn:Hsig.
      * rewrite run_sync_catch_block, terminal_error_aborted, Hsig in Hstep.
        cbn [orb] in Hstep. rewrite run_sync_after_loop in Hstep.
        injection Hstep as <-. cbn [effect_of default]. rewrite app_nil_r.
        eapply rs_aborted_after_sleep; [done | done | done | done |].
        rewrite length_snoc, Nat2Z.inj_succ. by apply failed_failure_recorded.
      * injection Hstep as <-. cbn [effect_of].
        assert (Z.of_nat (length (os' ++ [o])) <= retry options) as Hle
          by (rewrite length_snoc; lia).
        pose proof (rs_fetching url options startTime w0 (os' ++ [o]) w Hos Hle Hu) as Hgoal.
        rewrite length_snoc, attempts_snoc, Nat2Z.inj_succ in Hgoal.
        unfold RequestStates.fetching, Z.succ in Hgoal.
        rewrite <- app_assoc. exact Hgoal.
    + injection Hstep as <-. cbn [settled omap]. rewrite app_nil_r.
      eapply rs_sleeping; [done | done | done | done | by apply untouched_tick].
    + injection Hstep as <-. cbn [settled omap]. rewrite app_nil_r.
      eapply rs_sleeping; [done | done | done | done | by apply untouched_abort].
  - destruct i as [o'| |dt|s]; simpl in Hstep; [done | done |..];
      injection Hstep as <-; cbn [settled omap app]; by apply rs_no_attempt.
  - destruct i as [o'| |dt|s]; simpl in Hstep; [done | done |..];
      injection Hstep as <-; cbn [settled omap app]; apply rs_aborted_at_start;
      first [done | by rewrite signal_aborted_tick | by apply signal_aborted_abort].
  - destruct i as [o'| |dt|s]; simpl in Hstep; [done | done |..];
      injection Hstep as <-; cbn [settled omap]; rewrite app_nil_r;
      eapply rs_aborted_after_sleep;
      first [done | by rewrite signal_aborted_tick | by apply signal_aborted_abort].
  - destruct i as [o'| |dt|s]; simpl in Hstep; [done | done |..];
      injection Hstep as <-; cbn [settled omap]; rewrite app_nil_r;
      eapply rs_failed; try done.
    destruct Hwhy as [?|[?|?]]; [by left | right; left; by apply signal_aborted_abort
                                | right; by right].
  - destruct i as [o'| |dt|s]; simpl in Hstep; [done | done |..];
      injection Hstep as <-; cbn [settled omap]; rewrite app_nil_r;
      by eapply rs_returned.
Qed.

Lemma settled_cons i script : settled (i :: script) = settled [i] ++ settled script.
Proof. by destruct i. Qed.

Lemma request_state_exec script w0 os c c' :
  request_state w0 os c ->
  exec script c = Some c' ->
  request_state w0 (os ++ settled script) c'.
Proof.
  revert os c. induction script as [|i script IH]; intros os c Hst Hex; simpl in Hex.
  - injection Hex as <-. by rewrite app_nil_r.
  - destruct (input_step i c) as [c1|] eqn:Hstep; [|done].
    rewrite settled_cons, app_assoc. eapply IH; [|done].
    by eapply request_state_step.
Qed.

(** Whatever the environment does, the request is in one of its states. *)
Lemma request_states script w c :
  exec script (start (executeRequest url options startTime) w) = Some c ->
  request_state w (settled script) c.
Proof.
  intros Hex.
  exact (request_state_exec script w [] _ c (request_state_start w) Hex).
Qed.

Lemma physical_fetches_snoc_sleep trace ms :
  physical_fetches (trace ++ [Sleep ms]) = physical_fetches trace.
Proof. unfold physical_fetches. rewrite List.filter_app. simpl. by rewrite app_nil_r. Qed.

Lemma sleeps_snoc_sleep trace ms : sleeps (trace ++ [Sleep ms]) = sleeps trace ++ [ms].
Proof. unfold sleeps. by rewrite omap_app. Qed.

Lemma backoff_S d n : backoff d (S n) = backoff d n ++ [d * 2 ^ Z.of_nat n].
Proof.
  unfold backoff. rewrite Nat2Z.inj_succ, <- Z.add_1_r, seqZ_app by lia.
  rewrite map_app. f_equal.
Qed.

Lemma sleeps_attempts n : sleeps (attempts (S n)) = backoff (retryDelay options) n.
Proof.
  induction n as [|n IH]; [done|].
  rewrite attempts_snoc, backoff_S, <- IH.
  unfold sleeps. rewrite omap_app. simpl. done.
Qed.

Lemma physical_fetches_attempts n :
  physical_fetches (attempts n) = repeat (PhysicalFetch url (timeout options)) n.
Proof. apply physical_fetches_attempts_trace. Qed.

(** What a request in one of its states has done on the network. *)
Lemma request_state_effects w0 os w st trace :
  request_state w0 os (w, st, trace) ->
  exists n k : nat,
    physical_fetches trace = repeat (PhysicalFetch url (timeout options)) n
    /\ sleeps trace = backoff (retryDelay options) k
    /\ (n <= Z.to_nat (retry options + 1))%nat
    /\ (k <= Z.to_nat (retry options))%nat
    /\ (k <= length os <= n)%nat
    /\ (n <= S (length os))%nat.
Proof.
  intros Hst. inversion Hst; subst; clear Hst.
  - exists (S (length os)), (length os).
    rewrite physical_fetches_attempts, sleeps_attempts. repeat split; lia.
  - exists (S (length os')), (S (length os')).
    rewrite physical_fetches_snoc_sleep, sleeps_snoc_sleep, physical_fetches_attempts,
      sleeps_attempts, backoff_S, length_snoc.
    repeat split; lia.
  - exists 0%nat, 0%nat. simpl. repeat split; lia.
  - exists 0%nat, 0%nat. simpl. repeat split; lia.
  - exists (S (length os')), (S (length os')).
    rewrite physical_fetches_snoc_sleep, sleeps_snoc_sleep, physical_fetches_attempts,
      sleeps_attempts, backoff_S, length_snoc.
    repeat split; lia.
  - exists (S (length os')), (length os').
    rewrite length_snoc, physical_fetches_attempts, sleeps_attempts.
    repeat split; lia.
  - exists (S (length os')), (length os').
    rewrite length_snoc, physical_fetches_attempts, sleeps_attempts.
    repeat split; lia.
Qed.
End RequestInAnyEnvironment.

(** ** Attempts and sleeps, whatever the network does *)

(** X3: in every environment (any order of settled fetches, fired
    timers, passing time and aborted signals the request accepts) the
    request issues at most [retry + 1] physical fetches, all for its url
    with its timeout; a new attempt is only issued once the one before
    has settled; and the sleeps are the first delays of the sequence
    [retryDelay * 2^0, retryDelay * 2^1, ...], at most [retry] of them
    and never more than attempts have failed. *)
Theorem attempts_and_sleeps_in_any_environment url options startTime w script w' st trace :
  exec script (start (executeRequest url options startTime) w) = Some (w', st, trace) ->
  exists n k : nat,
    physical_fetches trace = repeat (PhysicalFetch url (timeout options)) n
    /\ sleeps trace = backoff (retryDelay options) k
    /\ (n <= Z.to_nat (retry options + 1))%nat
    /\ (k <= Z.to_nat (retry options))%nat
    /\ (k <= length (settled script) <= n)%nat
    /\ (n <= S (length (settled script)))%nat.
Proof.
  intros Hex. apply request_states in Hex.
  by eapply request_state_effects.
Qed.

(** One retry configured; the first attempt is answered with a 502 and
    the script stops while the request sleeps. *)
Lemma attempts_and_sleeps_in_any_environment_witness :
  let url := "/data/summary.json" in
  let options := [("retry", ONum 1); ("retryDelay", ONum 250)] in
  let w := mkWorld [] ∅ 1000 0 ∅ in
  let script := [Tick 12; FetchSettles (Response 502 "Bad Gateway" no_body None); Tick 100] in
  let w' := mkWorld [] ∅ 1112 112 ∅ in
  let trace := [PhysicalFetch url 10000; Sleep 250] in
  exec script (start (executeRequest url options 0) w)
  = Some (w', sleeping url options 0 0 (http_error 502 "Bad Gateway"), trace)
  /\ exists n k : nat,
       physical_fetches trace = repeat (PhysicalFetch url (timeout options)) n
       /\ sleeps trace = backoff (retryDelay options) k
       /\ (n <= Z.to_nat (retry options + 1))%nat
       /\ (k <= Z.to_nat (retry options))%nat
       /\ (k <= length (settled script) <= n)%nat
       /\ (n <= S (length (settled script)))%nat.
Proof.
  intros url options w script w' trace.
  assert (exec script (start (executeRequest url options 0) w)
          = Some (w', sleeping url options 0 0 (http_error 502 "Bad Gateway"), trace)) as H
    by (vm_compute; reflexivity).
  split; [exact H|].
  exact (attempts_and_sleeps_in_any_environment url options 0 w script w' _ trace H).
Defined.

(** ** Cache and metrics change when the request completes, not before *)

(** X4: while the request is suspended, cache and metrics are as they
    were when it started. When it throws, the cache is still untouched
    and exactly one entry has been recorded for the url, with
    [cacheHit: false], [payloadSize: 0] and a [retryCount] that is the
    number of settled attempts, or one more when the signal was found
    aborted before an attempt. When it returns, exactly one entry has
    been recorded, the one handed to the caller, and the cache is the old
    one after one [setCache] of the returned data under the request key,
    with the request's ttl. *)
Theorem stores_change_at_completion_only url options startTime w script w' st trace :
  exec script (start (executeRequest url options startTime) w) = Some (w', st, trace) ->
  match st with
  | Finished (Returned r) =>
      (exists etag t,
          cache w' = setCache (getCacheKey url options) (data r) (ttl options) etag t (cache w))
      /\ metrics w' = recordMetrics url (result_metrics r) (metrics w)
  | Finished (Threw e) =>
      cache w' = cache w
      /\ exists m,
           metrics w' = recordMetrics url m (metrics w)
           /\ cacheHit m = false /\ payloadSize m = 0
           /\ Z.of_nat (length (settled script)) <= retryCount m
              <= Z.of_nat (length (settled script)) + 1
  | _ => cache w' = cache w /\ metrics w' = metrics w
  end.
Proof.
  intros Hex. apply request_states in Hex.
  inversion Hex as [w1 Hos Hle Hu|w1 os' o e Heq Hos Ho Hlt Hu|w1 Heq Hneg Hf|w1 Heq Hpos Hsig Hf
                   |w1 os' o Heq Hos Hlt Hsig Hf|w1 os' o e Heq Hos' Ho Hle Hwhy Hf
                   |w1 os' status statusText d etag m Heq Hos' Hok Hle Hhit Hrc Hsize Hc Hm];
    subst; try exact Hu.
  - destruct Hf as (Hc & m & Hm & Hrc & Hhit & Hsize).
    split; [done|]. exists m. rewrite Heq. simpl. repeat split; try done; lia.
  - destruct Hf as (Hc & m & Hm & Hrc & Hhit & Hsize).
    split; [done|]. exists m. rewrite Heq. simpl. repeat split; try done; lia.
  - destruct Hf as (Hc & m & Hm & Hrc & Hhit & Hsize).
    split; [done|]. exists m. repeat split; try done; lia.
  - destruct Hf as (Hc & m & Hm & Hrc & Hhit & Hsize).
    split; [done|]. exists m. repeat split; try done; lia.
  - simpl. split; [by do 2 eexists | done].
Qed.

(** A request that succeeds at its second attempt. *)
Lemma stores_change_at_completion_only_witness :
  let url := "/data/summary.json" in
  let options := [("retry", ONum 1); ("retryDelay", ONum 250); ("ttl", ONum 60000)] in
  let w := mkWorld [] ∅ 1000 0 ∅ in
  let script := [Tick 12; FetchSettles (NetworkFailure "Failed to fetch"); Tick 250; TimerFires;
                 Tick 30; FetchSettles (Response 200 "OK" (Parsed (JNum 7)) (Some "v1"))] in
  let m := mkMetrics 292 false 1 1 1292 in
  let w' := mkWorld (setCache (getCacheKey url options) (JNum 7) 60000 (Some "v1") 1292 [])
              (recordMetrics url m ∅) 1292 292 ∅ in
  let trace := [PhysicalFetch url 10000; Sleep 250; PhysicalFetch url 10000] in
  exec script (start (executeRequest url options 0) w)
  = Some (w', Finished (Returned (mkResult (JNum 7) m)), trace)
  /\ (exists etag t,
         cache w' = setCache (getCacheKey url options) (JNum 7) (ttl options) etag t (cache w))
  /\ metrics w' = recordMetrics url m (metrics w).
Proof.
  intros url options w script m w' trace.
  assert (exec script (start (executeRequest url options 0) w)
          = Some (w', Finished (Returned (mkResult (JNum 7) m)), trace)) as H
    by (vm_compute; reflexivity).
  split; [exact H|].
  exact (stores_change_at_completion_only url options 0 w script w' _ trace H).
Defined.

(** ** What the request returns *)

(** X5: a request that returns does so at the first attempt answered
    with an ok status and a body that parses: every attempt before it
    failed with an error the guard lets through, the data returned is
    that body, and the metrics returned count the failed attempts as
    [retryCount], with [cacheHit: false] and the length of the
    serialised data as [payloadSize]. *)
Theorem returned_data_is_the_first_good_response url options startTime w script w' r trace :
  exec script (start (executeRequest url options startTime) w)
  = Some (w', Finished (Returned r), trace) ->
  exists os status statusText etag,
    settled script = os ++ [Response status statusText (Parsed (data r)) etag]
    /\ response_ok status = true
    /\ Forall retryable_failure os
    /\ Z.of_nat (length os) <= retry options
    /\ retryCount (result_metrics r) = Z.of_nat (length os)
    /\ cacheHit (result_metrics r) = false
    /\ payloadSize (result_metrics r) = strlen (stringify (data r))
    /\ trace = attempts_trace url (timeout options) (retryDelay options) 0 (S (length os)).
Proof.
  intros Hex. apply request_states in Hex.
  inversion Hex as [| | | | | |w1 os' status statusText d etag m Heq Hos' Hok Hle Hhit Hrc Hsize Hc Hm];
    subst.
  exists os', status, statusText, etag. rewrite Heq, length_snoc. by repeat split.
Qed.

Lemma returned_data_is_the_first_good_response_witness :
  let url := "/data/summary.json" in
  let options := [("retry", ONum 1); ("retryDelay", ONum 250); ("ttl", ONum 60000)] in
  let w := mkWorld [] ∅ 1000 0 ∅ in
  let script := [Tick 12; FetchSettles (NetworkFailure "Failed to fetch"); Tick 250; TimerFires;
                 Tick 30; FetchSettles (Response 200 "OK" (Parsed (JNum 7)) (Some "v1"))] in
  let r := mkResult (JNum 7) (mkMetrics 292 false 1 1 1292) in
  let w' := mkWorld (setCache (getCacheKey url options) (JNum 7) 60000 (Some "v1") 1292 [])
              (recordMetrics url (result_metrics r) ∅) 1292 292 ∅ in
  let trace := [PhysicalFetch url 10000; Sleep 250; PhysicalFetch url 10000] in
  exec script (start (executeRequest url options 0) w)
  = Some (w', Finished (Returned r), trace)
  /\ exists os status statusText etag,
       settled script = os ++ [Response status statusText (Parsed (data r)) etag]
       /\ response_ok status = true
       /\ Forall retryable_failure os
       /\ Z.of_nat (length os) <= retry options
       /\ retryCount (result_metrics r) = Z.of_nat (length os)
       /\ cacheHit (result_metrics r) = false
       /\ payloadSize (result_metrics r) = strlen (stringify (data r))
       /\ trace = attempts_trace url (timeout options) (retryDelay options) 0 (S (length os)).
Proof.
  intros url options w script r w' trace.
  assert (exec script (start (executeRequest url options 0) w)
          = Some (w', Finished (Returned r), trace)) as H
    by (vm_compute; reflexivity).
  split; [exact H|].
  exact (returned_data_is_the_first_good_response url options 0 w script w' r trace H).
Defined.

(** ** What the request throws *)

(** X6: the error a request throws is one of three. It is
    [Request failed after retries] only when [retry] is negative and no
    attempt was made. It is [Request aborted] only when the signal was
    found aborted before an attempt, all attempts before having failed
    with errors the guard lets through. Otherwise it is the error of the
    last attempt that settled, and the loop ended there because that
    error is terminal, because the signal was aborted, or because that
    attempt was the last of the budget. *)
Theorem thrown_error_is_explained url options startTime w script w' e trace :
  exec script (start (executeRequest url options startTime) w)
  = Some (w', Finished (Threw e), trace) ->
  (e = Error "Request failed after retries" /\ retry options < 0 /\ trace = [])
  \/ (e = Error "Request aborted"
      /\ signal_aborted (signal options) w' = true
      /\ Forall retryable_failure (settled script)
      /\ Z.of_nat (length (settled script)) <= retry options)
  \/ (exists os o,
        settled script = os ++ [o]
        /\ Forall retryable_failure os
        /\ thrown_by o = Some e
        /\ (terminal_error e = true
            \/ signal_aborted (signal options) w' = true
            \/ Z.of_nat (length os) = retry options)).
Proof.
  intros Hex. apply request_states in Hex.
  inversion Hex as [| |w1 Heq Hneg Hf|w1 Heq Hpos Hsig Hf
                   |w1 os' o Heq Hos Hlt Hsig Hf|w1 os' o e' Heq Hos' Ho Hle Hwhy Hf|];
    subst.
  - by left.
  - right; left. rewrite Heq. repeat split; [done | constructor | simpl; lia].
  - right; left. rewrite Heq. repeat split; [done | by rewrite <- Heq | rewrite length_snoc; lia].
  - right; right. by exists os', o.
Qed.

(** The signal is aborted while the request sleeps after a 503. *)
Lemma thrown_error_is_explained_witness :
  let url := "/data/summary.json" in
  let options := [("retry", ONum 2); ("signal", OSignal 1)] in
  let w := mkWorld [] ∅ 1000 0 ∅ in
  let script := [FetchSettles (Response 503 "Service Unavailable" no_body None);
                 Abort 1; Tick 1000; TimerFires] in
  let w' := mkWorld [] (recordMetrics url (mkMetrics 1000 false 2 0 2000) ∅) 2000 1000 {[1%nat]} in
  let e := Error "Request aborted" in
  let trace := [PhysicalFetch url 10000; Sleep 1000] in
  exec script (start (executeRequest url options 0) w) = Some (w', Finished (Threw e), trace)
  /\ ((e = Error "Request failed after retries" /\ retry options < 0 /\ trace = [])
      \/ (e = Error "Request aborted"
          /\ signal_aborted (signal options) w' = true
          /\ Forall retryable_failure (settled script)
          /\ Z.of_nat (length (settled script)) <= retry options)
      \/ (exists os o,
            settled script = os ++ [o]
            /\ Forall retryable_failure os
            /\ thrown_by o = Some e
            /\ (terminal_error e = true
                \/ signal_aborted (signal options) w' = true
                \/ Z.of_nat (length os) = retry options))).
Proof.
  intros url options w script w' e trace.
  assert (exec script (start (executeRequest url options 0) w)
          = Some (w', Finished (Threw e), trace)) as H
    by (vm_compute; reflexivity).
  split; [exact H|].
  exact (thrown_error_is_explained url options 0 w script w' e trace H).
Defined.

(** ** The request ends *)

(** X7: no environment can settle more than [retry + 1] physical
    fetches of one request, and once that many have settled the request
    is over. It is also over as soon as an attempt is answered with an ok
    status and a body that parses, or fails with a terminal error. *)
Theorem request_is_over_within_budget url options startTime w script w' st trace :
  exec script (start (executeRequest url options startTime) w) = Some (w', st, trace) ->
  (length (settled script) <= Z.to_nat (retry options + 1))%nat
  /\ (length (settled script) = Z.to_nat (retry options + 1) -> exists o, st = Finished o)
  /\ (forall o, last (settled script) = Some o ->
        thrown_by o = None \/ (exists e, thrown_by o = Some e /\ terminal_error e = true) ->
        exists o', st = Finished o').
Proof.
  intros Hex. apply request_states in Hex.
  inversion Hex as [w1 Hos Hle Hu|w1 os' o e Heq Hos Ho Hlt Hu|w1 Heq Hneg Hf|w1 Heq Hpos Hsig Hf
                   |w1 os' o Heq Hos Hlt Hsig Hf|w1 os' o e Heq Hos' Ho Hle Hwhy Hf
                   |w1 os' status statusText d etag m Heq Hos' Hok Hle Hhit Hrc Hsize Hc Hm];
    subst; try rewrite Heq; try rewrite length_snoc; simpl length.
  - split; [lia|]. split; [lia|].
    intros o Hlast Hend. exfalso.
    destruct (settled script) as [|o1 os1] using rev_ind; [done|].
    rewrite last_snoc in Hlast. injection Hlast as ->.
    apply Forall_app in Hos as [_ Ho]. apply Forall_singleton in Ho as (e & He & Ht).
    destruct Hend as [Hn|(e' & He' & Ht')]; congruence.
  - split; [lia|]. split; [lia|].
    intros o1 Hlast Hend. exfalso.
    rewrite last_snoc in Hlast. injection Hlast as ->.
    rewrite Heq in Hos.
    apply Forall_app in Hos as [_ Ho1]. apply Forall_singleton in Ho1 as (e1 & He1 & Ht1).
    destruct Hend as [Hn|(e' & He' & Ht')]; congruence.
  - split; [lia|]. split; by eexists.
  - split; [lia|]. split; by eexists.
  - split; [lia|]. split; by eexists.
  - split; [lia|]. split; by eexists.
  - split; [lia|]. split; by eexists.
Qed.

(** No retry configured: the one attempt settles, and the request is
    over. *)
Lemma request_is_over_within_budget_witness :
  let url := "/data/summary.json" in
  let options := [("retry", ONum 0)] in
  let w := mkWorld [] ∅ 1000 0 ∅ in
  let script := [Tick 5; FetchSettles (NetworkFailure "Failed to fetch")] in
  let w' := mkWorld [] (recordMetrics url (mkMetrics 5 false 1 0 1005) ∅) 1005 5 ∅ in
  let st := Finished (Threw (TypeError "Failed to fetch")) in
  let trace := [PhysicalFetch url 10000] in
  exec script (start (executeRequest url options 0) w) = Some (w', st, trace)
  /\ (length (settled script) <= Z.to_nat (retry options + 1))%nat
  /\ (length (settled script) = Z.to_nat (retry options + 1) -> exists o, st = Finished o)
  /\ (forall o, last (settled script) = Some o ->
        thrown_by o = None \/ (exists e, thrown_by o = Some e /\ terminal_error e = true) ->
        exists o', st = Finished o').
Proof.
  intros url options w script w' st trace.
  assert (exec script (start (executeRequest url options 0) w) = Some (w', st, trace)) as H
    by (vm_compute; reflexivity).
  split; [exact H|].
  exact (request_is_over_within_budget url options 0 w script w' st trace H).
Defined.

(** ** A request whose signal is aborted *)

Lemma aborted_step url options startTime w0 os i w st trace w' st' trace' :
  request_state url options startTime w0 os (w, st, trace) ->
  signal_aborted (signal options) w = true ->
  input_step i (w, st, trace) = Some (w', st', trace') ->
  trace' = trace
  /\ signal_aborted (signal options) w' = true
  /\ (resumes i = true \/ (exists o, st = Finished o) -> exists o, st' = Finished o).
Proof.
  intros Hst Hsig Hstep.
  assert (forall o : Outcome FetchResult,
             st = Finished o ->
             trace' = trace /\ signal_aborted (signal options) w' = true
             /\ (resumes i = true \/ (exists o, st = Finished o) -> exists o, st' = Finished o))
    as Hfin.
  { intros o ->. destruct i as [o'| |dt|s]; simpl in Hstep; try done;
      injection Hstep as <- <- <-.
    - split; [done|]. split; [by rewrite signal_aborted_tick | by eexists].
    - split; [done|]. split; [by apply signal_aborted_abort | by eexists]. }
  inversion Hst; subst; try (by eapply Hfin); clear Hfin.
  - (* suspended on a physical fetch *)
    destruct i as [o| |dt|s]; simpl in Hstep; [|done|..].
    + destruct (thrown_by o) as [e|] eqn:Ho.
      * rewrite (after_fetch_throws _ _ _ _ _ _ _ Ho), run_sync_catch_block, Hsig,
          orb_true_r, run_sync_after_loop in Hstep.
        injection Hstep as <- <- <-. cbn [effect_of]. rewrite app_nil_r.
        split; [done|]. split; [done | by eexists].
      * destruct o as [status statusText body etag|msg|]; simpl in Ho; [|done..].
        destruct (response_ok status) eqn:Hok; [|done]. simpl in Ho.
        destruct body as [d|msg]; [|done].
        cbn [after_fetch] in Hstep. unfold on_response in Hstep. rewrite Hok in Hstep.
        cbn [negb run_sync] in Hstep. injection Hstep as <- <- <-. cbn [effect_of].
        rewrite app_nil_r. split; [done|]. split; [done | by eexists].
    + injection Hstep as <- <- <-. split; [done|].
      split; [by rewrite signal_aborted_tick|]. intros [?|[? ?]]; done.
    + injection Hstep as <- <- <-. split; [done|].
      split; [by apply signal_aborted_abort|]. intros [?|[? ?]]; done.
  - (* suspended on the backoff timer *)
    destruct i as [o'| |dt|s]; simpl in Hstep; [done|..].
    + destruct (seqZ (Z.of_nat (length os') + 1) (retry options - Z.of_nat (length os')))
        as [|a rest]; cbn [for_loop] in Hstep.
      * rewrite run_sync_after_loop in Hstep. injection Hstep as <- <- <-.
        cbn [effect_of]. rewrite app_nil_r. split; [done|]. split; [done | by eexists].
      * rewrite run_sync_try_block, Hsig, run_sync_catch_block, Hsig, orb_true_r,
          run_sync_after_loop in Hstep.
        injection Hstep as <- <- <-.
        cbn [effect_of]. rewrite app_nil_r. split; [done|]. split; [done | by eexists].
    + injection Hstep as <- <- <-. split; [done|].
      split; [by rewrite signal_aborted_tick|]. intros [?|[? ?]]; done.
    + injection Hstep as <- <- <-. split; [done|].
      split; [by apply signal_aborted_abort|]. intros [?|[? ?]]; done.
Qed.

Lemma aborted_exec url options startTime script :
  forall w0 os w st trace w' st' trace',
  request_state url options startTime w0 os (w, st, trace) ->
  signal_aborted (signal options) w = true ->
  exec script (w, st, trace) = Some (w', st', trace') ->
  trace' = trace
  /\ (existsb resumes script = true -> exists o, st' = Finished o).
Proof.
  induction script as [|i script IH]; intros w0 os w st trace w' st' trace' Hst Hsig Hex;
    cbn [exec] in Hex.
  - injection Hex as <- <- <-. by split.
  - destruct (input_step i (w, st, trace)) as [[[w1 st1] trace1]|] eqn:Hstep; [|done].
    destruct (aborted_step _ _ _ _ _ _ _ _ _ _ _ _ Hst Hsig Hstep) as (-> & Hsig1 & Hfin).
    pose proof (request_state_step _ _ _ _ _ _ _ _ Hst Hstep) as Hst1.
    destruct (IH _ _ _ _ _ _ _ _ Hst1 Hsig1 Hex) as (-> & Hfin').
    split; [done|]. cbn [existsb]. intros Hres.
    destruct (resumes i) eqn:Hi.
    + destruct Hfin as [o ->]; [by left|].
      (* the request is over: the rest of the script leaves it there *)
      clear -Hex. revert w1 Hex. induction script as [|j script IHs]; intros w1 Hex; simpl in Hex.
      * injection Hex as _ <-. by eexists.
      * destruct j; simpl in Hex; try done; by eapply IHs.
    + by apply Hfin'.
Qed.

(** X8: once the caller's signal is aborted the request issues no
    further physical fetch and starts no further sleep, whatever happens
    next; and it is over at its next resumption, be it the fetch in
    flight that settles or the backoff timer that fires. *)
Theorem aborted_request_does_nothing_more
    url options startTime w script1 w1 st1 trace1 script2 w2 st2 trace2 :
  exec script1 (start (executeRequest url options startTime) w) = Some (w1, st1, trace1) ->
  signal_aborted (signal options) w1 = true ->
  exec script2 (w1, st1, trace1) = Some (w2, st2, trace2) ->
  trace2 = trace1
  /\ (existsb resumes script2 = true -> exists o, st2 = Finished o).
Proof.
  intros Hex1 Hsig Hex2. apply request_states in Hex1.
  by eapply aborted_exec.
Qed.

(** The signal is aborted while the first retry is on the network; the
    retry then fails with a 500, which would otherwise be retried. *)
Lemma aborted_request_does_nothing_more_witness :
  let url := "/data/summary.json" in
  let options := [("retry", ONum 3); ("signal", OSignal 1)] in
  let w := mkWorld [] ∅ 1000 0 ∅ in
  let script1 := [FetchSettles (NetworkFailure "Failed to fetch"); Tick 1000; TimerFires;
                  Abort 1] in
  let script2 := [Tick 20; FetchSettles (Response 500 "Internal Server Error" no_body None);
                  Tick 5000] in
  let trace := [PhysicalFetch url 10000; Sleep 1000; PhysicalFetch url 10000] in
  let w1 := mkWorld [] ∅ 2000 1000 {[1%nat]} in
  let w2 := mkWorld [] (recordMetrics url (mkMetrics 1020 false 2 0 2020) ∅) 7020 6020 {[1%nat]} in
  let st2 := Finished (Threw (http_error 500 "Internal Server Error")) in
  (exec script1 (start (executeRequest url options 0) w)
   = Some (w1, fetching url options 0 1, trace)
   /\ signal_aborted (signal options) w1 = true
   /\ exec script2 (w1, fetching url options 0 1, trace) = Some (w2, st2, trace))
  /\ trace = trace
  /\ (existsb resumes script2 = true -> exists o, st2 = Finished o).
Proof.
  intros url options w script1 script2 trace w1 w2 st2.
  assert (exec script1 (start (executeRequest url options 0) w)
          = Some (w1, fetching url options 0 1, trace)) as H1 by (vm_compute; reflexivity).
  assert (signal_aborted (signal options) w1 = true) as H2 by (vm_compute; reflexivity).
  assert (exec script2 (w1, fetching url options 0 1, trace) = Some (w2, st2, trace)) as H3
    by (vm_compute; reflexivity).
  split; [done|].
  exact (aborted_request_does_nothing_more url options 0 w script1 w1 _ trace script2 w2 st2
           trace H1 H2 H3).
Defined.

(** ** A request that succeeds after retries *)

Section SucceedingRequest.
Variables (url : string) (options : RequestConfig) (startTime : Z).

(** The attempts [os] fail one after the other and are retried; the
    request then stands at the attempt after them. *)
Lemma retried_attempts script :
  (forall os o a w tr,
      without_ticks script = retry_script (os ++ [o]) ->
      Forall retryable_failure os ->
      0 <= a -> a + Z.of_nat (length os) <= retry options ->
      signal_aborted (signal options) w = false ->
      exists w1 rest,
        without_ticks rest = []
        /\ cache w1 = cache w /\ metrics w1 = metrics w
        /\ exec script (w, fetching url options startTime a, tr)
           = exec (FetchSettles o :: rest)
               (w1, fetching url options startTime (a + Z.of_nat (length os)),
                tr ++ tail (attempts_trace url (timeout options) (retryDelay options) a
                              (S (length os)))))
  /\ (forall os o a e0 w tr,
      without_ticks script = TimerFires :: retry_script (os ++ [o]) ->
      Forall retryable_failure os ->
      0 <= a -> a + 1 + Z.of_nat (length os) <= retry options ->
      signal_aborted (signal options) w = false ->
      exists w1 rest,
        without_ticks rest = []
        /\ cache w1 = cache w /\ metrics w1 = metrics w
        /\ exec script (w, sleeping url options startTime a e0, tr)
           = exec (FetchSettles o :: rest)
               (w1, fetching url options startTime (a + 1 + Z.of_nat (length os)),
                tr ++ attempts_trace url (timeout options) (retryDelay options) (a + 1)
                        (S (length os)))).
Proof.
  induction script as [|i script [IHf IHd]]; split;
    intros os o a; [ | intros e0 | | intros e0 ]; intros w tr Hs Hos Ha Hle Hsig.
  - destruct os; [discriminate Hs | simpl app in Hs; rewrite retry_script_snoc in Hs; discriminate Hs].
  - discriminate Hs.
  - destruct i as [o'| |dt|s]; cbn [without_ticks List.filter] in Hs.
    + destruct os as [|o1 os].
      * simpl in Hs. injection Hs as -> Hs.
        exists w, script. simpl length. rewrite Z.add_0_r, app_nil_r. by repeat split.
      * simpl app in Hs. rewrite retry_script_snoc in Hs. injection Hs as -> Hs.
        apply Forall_cons in Hos as [(e1 & He1 & Hr1) Hos].
        simpl length in *.
        cbn [exec input_step]. unfold fetching at 1.
        rewrite (after_fetch_throws _ _ _ _ _ _ _ He1), run_sync_catch_block, Hr1, Hsig.
        cbn [orb].
        assert ((a <? retry options) = true) as -> by (apply Z.ltb_lt; lia).
        cbn [effect_of].
        destruct (IHd os o a e1 w (tr ++ [Sleep (retryDelay options * 2 ^ a)]) Hs Hos)
          as (w1 & rest & Hrest & Hc & Hm & Hex); [lia | lia | done |].
        exists w1, rest. split; [done|]. split; [done|]. split; [done|].
        fold (sleeping url options startTime a e1). rewrite Hex.
        rewrite (attempts_trace_S url options a). cbn [tail]. rewrite <- app_assoc.
        replace (a + 1 + Z.of_nat (length os)) with (a + Z.of_nat (S (length os))) by lia.
        reflexivity.
    + destruct os; [discriminate Hs | simpl app in Hs; rewrite retry_script_snoc in Hs; discriminate Hs].
    + cbn [exec input_step].
      destruct (IHf os o a (tick dt w) tr Hs Hos Ha Hle) as (w1 & rest & Hrest & Hc & Hm & Hex);
        [by rewrite signal_aborted_tick|].
      by exists w1, rest.
    + destruct os; [discriminate Hs | simpl app in Hs; rewrite retry_script_snoc in Hs; discriminate Hs].
  - destruct i as [o'| |dt|s]; cbn [without_ticks List.filter] in Hs.
    + discriminate Hs.
    + injection Hs as Hs. cbn [exec input_step]. unfold sleeping at 1.
      assert (seqZ (a + 1) (retry options - a)
              = (a + 1) :: seqZ (a + 1 + 1) (retry options - (a + 1))) as ->.
      { rewrite seqZ_cons by lia. f_equal. f_equal; lia. }
      cbn [for_loop]. rewrite run_sync_try_block, Hsig. cbn [effect_of].
      destruct (IHf os o (a + 1) w (tr ++ [PhysicalFetch url (timeout options)]) Hs Hos)
        as (w1 & rest & Hrest & Hc & Hm & Hex); [lia | lia | done |].
      exists w1, rest. split; [done|]. split; [done|]. split; [done|].
      fold (fetching url options startTime (a + 1)). rewrite Hex.
      rewrite (attempts_trace_S url options (a + 1)). cbn [tail]. by rewrite <- app_assoc.
    + cbn [exec input_step].
      destruct (IHd os o a e0 (tick dt w) tr Hs Hos Ha Hle) as (w1 & rest & Hrest & Hc & Hm & Hex);
        [by rewrite signal_aborted_tick|].
      by exists w1, rest.
    + discriminate Hs.
Qed.

End SucceedingRequest.

(** X9: when the first [k] attempts fail with errors the guard lets
    through, [k] is within the retry budget, the signal is not aborted,
    and the next attempt is answered with an ok status and a body that
    parses, the request returns that body after exactly [k + 1] physical
    fetches and [k] sleeps, with [retryCount = k]; the entry it returns
    is the one it records, and the body is in the cache under the request
    key. *)
Theorem request_succeeds_after_retries
    url options startTime w script os status statusText d etag :
  Forall retryable_failure os ->
  Z.of_nat (length os) <= retry options ->
  signal_aborted (signal options) w = false ->
  response_ok status = true ->
  without_ticks script = retry_script (os ++ [Response status statusText (Parsed d) etag]) ->
  exists w' m,
    exec script (start (executeRequest url options startTime) w)
    = Some (w', Finished (Returned (mkResult d m)),
            attempts_trace url (timeout options) (retryDelay options) 0 (S (length os)))
    /\ retryCount m = Z.of_nat (length os)
    /\ cacheHit m = false
    /\ payloadSize m = strlen (stringify d)
    /\ metrics w' = recordMetrics url m (metrics w)
    /\ exists entry,
         map_get (getCacheKey url options) (cache w') = Some entry
         /\ entry_data entry = d
         /\ entry_ttl entry = ttl options
         /\ entry_etag entry = etag_or_undefined etag.
Proof.
  intros Hos Hle Hsig Hok Hs.
  unfold start, executeRequest.
  rewrite (seqZ_cons 0) by lia. cbn [for_loop].
  rewrite run_sync_try_block, Hsig. cbn [effect_of].
  replace (Z.pred (retry options + 1)) with (retry options - 0) by lia.
  change (Z.succ 0) with (0 + 1).
  fold (fetching url options startTime 0).
  destruct (proj1 (retried_attempts url options startTime script) os _ 0 w
              [PhysicalFetch url (timeout options)] Hs Hos)
    as (w1 & rest & Hrest & Hc & Hm & Hex); [lia | lia | done |].
  rewrite Hex. cbn [exec input_step]. unfold fetching at 1.
  cbn [after_fetch]. unfold on_response. rewrite Hok. cbn [negb run_sync effect_of].
  rewrite app_nil_r.
  match goal with
  | |- context [exec rest (?w2, ?st, ?tr)] =>
      destruct (exec_only_ticks (R := FetchResult) rest w2 st tr Hrest)
        as (w' & Hex' & Hc' & Hm' & _)
  end.
  eexists w', _. rewrite Hex'.
  split; [by rewrite (attempts_trace_S url options 0)|].
  split; [simpl; lia|]. split; [done|]. split; [done|].
  split; [rewrite Hm'; simpl; by rewrite Hm|].
  eexists. rewrite Hc'. simpl. unfold setCache. rewrite map_get_set_eq. by repeat split.
Qed.

(** Two failures, a 500 and a network failure, then a 200. *)
Lemma request_succeeds_after_retries_witness :
  let url := "/data/weekly_stats.json" in
  let options := [("retry", ONum 3); ("retryDelay", ONum 500)] in
  let w := mkWorld [] ∅ 1000 0 ∅ in
  let os := [Response 500 "Internal Server Error" no_body None;
             NetworkFailure "Failed to fetch"] in
  let d := JObj [("total_companies", JNum 6)] in
  let script := [Tick 40; FetchSettles (Response 500 "Internal Server Error" no_body None);
                 Tick 500; TimerFires; Tick 35; FetchSettles (NetworkFailure "Failed to fetch");
                 Tick 1000; TimerFires; Tick 20;
                 FetchSettles (Response 200 "OK" (Parsed d) (Some "W/1"))] in
  (Forall retryable_failure os
   /\ Z.of_nat (length os) <= retry options
   /\ signal_aborted (signal options) w = false
   /\ response_ok 200 = true
   /\ without_ticks script = retry_script (os ++ [Response 200 "OK" (Parsed d) (Some "W/1")]))
  /\ exists w' m,
       exec script (start (executeRequest url options 0) w)
       = Some (w', Finished (Returned (mkResult d m)),
               attempts_trace url (timeout options) (retryDelay options) 0 (S (length os)))
       /\ retryCount m = Z.of_nat (length os)
       /\ cacheHit m = false
       /\ payloadSize m = strlen (stringify d)
       /\ metrics w' = recordMetrics url m (metrics w)
       /\ exists entry,
            map_get (getCacheKey url options) (cache w') = Some entry
            /\ entry_data entry = d
            /\ entry_ttl entry = ttl options
            /\ entry_etag entry = etag_or_undefined (Some "W/1").
Proof.
  intros url options w os d script.
  assert (Forall retryable_failure os) as H1
    by (repeat constructor; eexists; split; vm_compute; reflexivity).
  assert (Z.of_nat (length os) <= retry options) as H2 by (vm_compute; discriminate).
  assert (signal_aborted (signal options) w = false) as H3 by reflexivity.
  assert (response_ok 200 = true) as H4 by reflexivity.
  assert (without_ticks script
          = retry_script (os ++ [Response 200 "OK" (Parsed d) (Some "W/1")])) as H5
    by reflexivity.
  split; [done|].
  exact (request_succeeds_after_retries url options 0 w script os 200 "OK" d (Some "W/1")
           H1 H2 H3 H4 H5).
Defined.

(** ** Callers and the requests they wait for *)

Lemma waiting_inv_new t : waiting_inv (new_service t).
Proof.
  split; simpl.
  - intros key r H. by rewrite lookup_empty in H.
  - intros key r H. by rewrite lookup_empty in H.
  - intros c r t0 H. by rewrite lookup_empty in H.
  - intros r [x H]. by rewrite lookup_empty in H.
Qed.

Lemma waiting_inv_with_world w s : waiting_inv s -> waiting_inv (with_world w s).
Proof. intros [I1 I2 I3 I4]. by split. Qed.

Lemma waiting_inv_fetch c url options s :
  callers s !! c = None -> waiting_inv s -> waiting_inv (fetch c url options s).
Proof.
  intros Hc [I1 I2 I3 I4]. unfold fetch.
  destruct (getFromCache _ _ _) as [[d|] cache'].
  - (* served from the cache *)
    split; simpl; [done | | | done].
    + intros key r Hp. destruct (I2 key r Hp) as [c0 Hc0]. exists c0.
      rewrite lookup_insert_ne; [done | congruence].
    + intros c' r t0. rewrite lookup_insert. case_decide; [done|]. apply I3.
  - destruct (pendingRequests s !! getCacheKey url options) as [r|] eqn:Hp.
    + (* attached *)
      split; simpl; [done | | | done].
      * intros key r' Hp'. destruct (I2 key r' Hp') as [c0 Hc0]. exists c0.
        rewrite lookup_insert_ne; [done | congruence].
      * intros c' r' t0. rewrite lookup_insert. case_decide.
        -- intros [= <- <-]. destruct (I1 _ _ Hp) as [st Hr]. by rewrite Hr.
        -- apply I3.
    + (* a new request *)
      destruct (run_sync _ _) as [w' st]. split; simpl.
      * intros key r. rewrite lookup_insert. case_decide as Hk.
        -- intros [= <-]. subst key. rewrite lookup_insert_eq. by eexists.
        -- intros Hp'. destruct (I1 key r Hp') as [st' Hr].
           assert (r < next_request s)%nat by (apply I4; by rewrite Hr).
           rewrite lookup_insert_ne by lia. by eexists.
      * intros key r. rewrite lookup_insert. case_decide as Hk.
        -- intros [= <-]. subst key. exists c. by rewrite lookup_insert_eq.
        -- intros Hp'. destruct (I2 key r Hp') as [c0 Hc0]. exists c0.
           rewrite lookup_insert_ne; [done | congruence].
      * intros c' r t0. rewrite lookup_insert. case_decide; [done|]. intros Hc'.
        rewrite lookup_insert. case_decide; [done|]. by eapply I3.
      * intros r. rewrite lookup_insert. case_decide; [lia|]. intros Hr.
        specialize (I4 r Hr). lia.
Qed.

Lemma waiting_inv_with_request r key st0 ws s :
  requests s !! r = Some (key, st0) -> waiting_inv s -> waiting_inv (with_request r key ws s).
Proof.
  intros Hr [I1 I2 I3 I4]. split; simpl; [ | done | | ].
  - intros k r' Hp. destruct (I1 k r' Hp) as [st Hr'].
    rewrite lookup_insert. case_decide as Heq; [|by eexists].
    subst r'. rewrite Hr in Hr'. injection Hr' as <- <-. by eexists.
  - intros c r' t0 Hc. rewrite lookup_insert. case_decide; [done|]. by eapply I3.
  - intros r'. rewrite lookup_insert. case_decide as Heq.
    + intros _. subst r'. apply I4. by rewrite Hr.
    + apply I4.
Qed.

Lemma waiting_inv_resume c s s' :
  service_inv s -> waiting_inv s -> resume c s = Some s' -> waiting_inv s'.
Proof.
  intros [J1 J2 J3] [I1 I2 I3 I4]. unfold resume.
  destruct (callers s !! c) as [[key r|r t0|o]|] eqn:Hc; [| |done..].
  - destruct (requests s !! r) as [[key' [o|u t k|ms k]]|]; [|done..].
    intros [= <-]. split; simpl; [ | | | done].
    + intros k r'. rewrite lookup_delete. case_decide; [done|]. apply I1.
    + intros k r'. rewrite lookup_delete. case_decide as Hk; [done|]. intros Hp.
      destruct (I2 k r' Hp) as [c0 Hc0]. exists c0.
      rewrite lookup_insert_ne; [done|]. intros <-. congruence.
    + intros c' r' t0. rewrite lookup_insert. case_decide; [done|]. apply I3.
  - destruct (requests s !! r) as [[key' [[result|e]|u t k|ms k]]|]; [| |done..];
      intros [= <-]; (split; simpl; [done | | | done]).
    + intros k r' Hp. destruct (I2 k r' Hp) as [c0 Hc0]. exists c0.
      rewrite lookup_insert_ne; [done|]. intros <-. congruence.
    + intros c' r' t1. rewrite lookup_insert. case_decide; [done|]. apply I3.
    + intros k r' Hp. destruct (I2 k r' Hp) as [c0 Hc0]. exists c0.
      rewrite lookup_insert_ne; [done|]. intros <-. congruence.
    + intros c' r' t1. rewrite lookup_insert. case_decide; [done|]. apply I3.
Qed.

Lemma waiting_inv_step e s s' :
  service_inv s -> waiting_inv s -> step e s = Some s' -> waiting_inv s'.
Proof.
  intros Hinv Hw. destruct e as [c url options|r o|r|c|dt|sig|]; simpl.
  - destruct (callers s !! c) eqn:Hc; [done|]. intros [= <-]. by apply waiting_inv_fetch.
  - destruct (requests s !! r) as [[key [o'|u t k|ms k]]|] eqn:Hr; [done| |done..].
    intros [= <-]. by eapply waiting_inv_with_request.
  - destruct (requests s !! r) as [[key [o'|u t k|ms k]]|] eqn:Hr; [done|done| |done].
    intros [= <-]. by eapply waiting_inv_with_request.
  - by apply waiting_inv_resume.
  - intros [= <-]. by apply waiting_inv_with_world.
  - intros [= <-]. by apply waiting_inv_with_world.
  - intros [= <-]. by apply waiting_inv_with_world.
Qed.

Lemma waiting_inv_run events s s' :
  service_inv s -> waiting_inv s -> run events s = Some s' -> service_inv s' /\ waiting_inv s'.
Proof.
  revert s. induction events as [|e events IH]; intros s Hinv Hw Hrun; simpl in Hrun.
  - by injection Hrun as <-.
  - destruct (step e s) as [s1|] eqn:Hstep; [|done].
    eapply IH; [| |done].
    + by eapply service_inv_step.
    + by eapply waiting_inv_step.
Qed.

(** X10: the registry holds no stale entry. In every state the service
    can reach, a registered key names a request that exists under that
    key and whose initiating caller has not resumed yet, so that its
    [finally] is still to delete the entry; and once every caller has
    resumed the registry is empty. *)
Theorem registry_holds_no_stale_entry events t s :
  run events (new_service t) = Some s ->
  (forall key r, pendingRequests s !! key = Some r ->
     (exists st, requests s !! r = Some (key, st))
     /\ (exists c, callers s !! c = Some (Initiator key r)))
  /\ (all_settled s -> pendingRequests s = ∅).
Proof.
  intros Hrun.
  destruct (waiting_inv_run _ _ _ (service_inv_new t) (waiting_inv_new t) Hrun)
    as [_ [I1 I2 I3 I4]].
  split.
  - intros key r Hp. split; [by apply I1 | by apply I2].
  - intros Hall. apply map_empty. intros key.
    destruct (pendingRequests s !! key) as [r|] eqn:Hp; [|done].
    destruct (I2 key r Hp) as [c Hc]. by destruct (Hall c _ Hc).
Qed.

(** Two callers for one key; the request fails with a 404 and both
    resume. *)
Lemma registry_holds_no_stale_entry_witness :
  let url := "/data/weekly_stats.json" in
  let events := [Call 1 url []; Call 2 url []; Elapse 10;
                 Settle 0 (Response 404 "Not Found" no_body None); Resume 2; Resume 1] in
  exists s,
    run events (new_service 1000) = Some s
    /\ (forall key r, pendingRequests s !! key = Some r ->
          (exists st, requests s !! r = Some (key, st))
          /\ (exists c, callers s !! c = Some (Initiator key r)))
    /\ (all_settled s -> pendingRequests s = ∅).
Proof.
  intros url events.
  destruct (run events (new_service 1000)) as [s|] eqn:Hrun;
    [|vm_compute in Hrun; discriminate Hrun].
  exists s. split; [done|].
  exact (registry_holds_no_stale_entry events 1000 s Hrun).
Defined.

(** X11: no caller waits in vain. In every state the service can
    reach, a caller suspended in [fetch] awaits a request that exists;
    once that request is over the caller can resume; the caller that
    started the request resumes with the outcome of the request and
    unregisters the key; and an attached caller resumes with the very
    error the request threw. *)
Theorem waiting_caller_resumes events t s c :
  run events (new_service t) = Some s ->
  match callers s !! c with
  | Some (Initiator key r) =>
      pendingRequests s !! key = Some r
      /\ exists st,
           requests s !! r = Some (key, st)
           /\ forall o, st = Finished o ->
                exists s', step (Resume c) s = Some s'
                           /\ outcome_of s' c = Some o
                           /\ pendingRequests s' !! key = None
  | Some (Attached r t0) =>
      exists key st,
        requests s !! r = Some (key, st)
        /\ (forall o, st = Finished o -> is_Some (step (Resume c) s))
        /\ (forall e, st = Finished (Threw e) ->
              exists s', step (Resume c) s = Some s' /\ outcome_of s' c = Some (Threw e))
  | _ => True
  end.
Proof.
  intros Hrun.
  destruct (waiting_inv_run _ _ _ (service_inv_new t) (waiting_inv_new t) Hrun)
    as [[J1 J2 J3] [I1 I2 I3 I4]].
  destruct (callers s !! c) as [[key r|r t0|o]|] eqn:Hc; [| |done..].
  - pose proof (J2 _ _ _ Hc) as Hp. split; [done|].
    destruct (I1 _ _ Hp) as [st Hr]. exists st. split; [done|].
    intros o ->.
    destruct (resume_initiator c s r key key o Hc Hr) as (s' & Hres & _ & Hout & Hdel).
    exists s'. split; [done|]. split; [done|]. by rewrite Hdel, lookup_delete_eq.
  - destruct (I3 _ _ _ Hc) as [[key st] Hr]. exists key, st. split; [done|]. split.
    + intros o ->.
      destruct (resume_attached c s r t0 key o Hc Hr) as (s' & Hres & _). simpl. by rewrite Hres.
    + intros e ->.
      destruct (resume_attached c s r t0 key (Threw e) Hc Hr) as (s' & Hres & _ & Hout).
      by exists s'.
Qed.

(** A caller attached to a request that fails with a network error. *)
Lemma waiting_caller_resumes_witness :
  let url := "/data/weekly_stats.json" in
  let options := [("retry", ONum 0)] in
  let events := [Call 1 url options; Call 2 url options; Elapse 10;
                 Settle 0 (NetworkFailure "Failed to fetch")] in
  exists s,
    run events (new_service 1000) = Some s
    /\ callers s !! 2%nat = Some (Attached 0 0)
    /\ exists key st,
         requests s !! 0%nat = Some (key, st)
         /\ (forall o, st = Finished o -> is_Some (step (Resume 2) s))
         /\ (forall e, st = Finished (Threw e) ->
               exists s', step (Resume 2) s = Some s' /\ outcome_of s' 2 = Some (Threw e)).
Proof.
  intros url options events.
  destruct (run events (new_service 1000)) as [s|] eqn:Hrun;
    [|vm_compute in Hrun; discriminate Hrun].
  exists s. split; [done|].
  assert (callers s !! 2%nat = Some (Attached 0 0)) as Hc
    by (vm_compute in Hrun; injection Hrun as <-; vm_compute; reflexivity).
  split; [exact Hc|].
  pose proof (waiting_caller_resumes events 1000 s 2 Hrun) as H.
  rewrite Hc in H. exact H.
Defined.

(** ** From the network into the cache, and back out of it *)

Lemma map_get_setCache key d ttl etag now c :
  map_get key (setCache key d ttl etag now c) = Some (mkEntry d now ttl etag).
Proof. unfold setCache. apply map_get_set_eq. Qed.



(** The service after a call that starts a request. *)
Lemma fetch_new_request c url options s :
  fst (getFromCache (getCacheKey url options) (now (world s)) (cache (world s))) = None ->
  pendingRequests s !! getCacheKey url options = None ->
  let key := getCacheKey url options in
  let r := next_request s in
  let ws := run_sync (executeRequest url options (perf (world s)))
              (with_cache (snd (getFromCache key (now (world s)) (cache (world s))))
                 (world s)) in
  fetch c url options s
  = mkService (fst ws) (<[key := r]> (pendingRequests s))
      (<[r := (key, snd ws)]> (requests s))
      (<[c := Initiator key r]> (callers s)) (S r).
Proof.
  intros Hmiss Hp. cbv zeta. unfold fetch.
  destruct (getFromCache _ _ _) as [[d|] cache'] eqn:Hget; [discriminate Hmiss|].
  rewrite Hp. cbn [snd]. by destruct (run_sync _ _).
Qed.

(** X25: data older than its ttl is fetched again. When more than
    [ttl] milliseconds have passed since the data was stored, the next
    caller with that key is not served from the cache: its call starts a
    second request, which goes to the network, and the caller waits for
    it. *)
Theorem expired_data_is_fetched_again
    c1 c2 url options s dt1 dt2 status statusText d etag :
  callers s !! c1 = None -> callers s !! c2 = None -> c1 <> c2 ->
  fst (getFromCache (getCacheKey url options) (now (world s)) (cache (world s))) = None ->
  pendingRequests s !! getCacheKey url options = None ->
  signal_aborted (signal options) (world s) = false ->
  0 <= retry options ->
  response_ok status = true ->
  ttl options < dt2 ->
  exists s' m1,
    run [Call c1 url options; Elapse dt1;
         Settle (next_request s) (Response status statusText (Parsed d) etag);
         Resume c1; Elapse dt2; Call c2 url options] s = Some s'
    /\ outcome_of s' c1 = Some (Returned (mkResult d m1))
    /\ callers s' !! c2 = Some (Initiator (getCacheKey url options) (S (next_request s)))
    /\ pendingRequests s' !! getCacheKey url options = Some (S (next_request s))
    /\ on_network s' (getCacheKey url options) (S (next_request s))
    /\ next_request s' = S (S (next_request s))
    /\ metrics (world s') = recordMetrics url m1 (metrics (world s)).
Proof.
  intros Hc1 Hc2 Hne Hmiss Hp Hsig Hretry Hok Hdt.
  destruct (fetch_starts_request c1 url options s Hmiss Hp Hsig Hretry)
    as (Hcaller & Hpending & Hsig1 & Hm1 & Hreq).
  set (key := getCacheKey url options) in *.
  set (s1 := fetch c1 url options s) in *.
  assert (callers s1 !! c2 = None
          /\ next_request s1 = S (next_request s)
          /\ pendingRequests s1 = <[key := next_request s]> (pendingRequests s))
    as (Hc2' & Hnext & Hpend).
  { subst s1. unfold fetch. fold key.
    destruct (getFromCache _ _ _) as [[d'|] cache'] eqn:Hget; [discriminate Hmiss|].
    rewrite Hp. destruct (run_sync _ _) as [w' st]. simpl.
    by rewrite lookup_insert_ne. }
  assert (step (Call c1 url options) s = Some s1) as H1 by (simpl; by rewrite Hc1).
  set (s2 := with_world (tick dt1 (world s1)) s1).
  assert (step (Elapse dt1) s1 = Some s2) as H2 by reflexivity.
  set (m1 := mkMetrics (perf (world s2) - perf (world s)) false 0 (strlen (stringify d))
               (now (world s2))).
  set (w3 := with_metrics (recordMetrics url m1 (metrics (world s2)))
               (with_cache (setCache key d (ttl options) (etag_or_undefined etag)
                              (now (world s2)) (cache (world s2))) (world s2))).
  set (s3 := mkService w3 (pendingRequests s1)
               (<[next_request s := (key, Finished (Returned (mkResult d m1)))]> (requests s1))
               (callers s1) (next_request s1)).
  assert (step (Settle (next_request s) (Response status statusText (Parsed d) etag)) s2
          = Some s3) as H3.
  { simpl. rewrite Hreq. cbn [after_fetch]. unfold on_response. rewrite Hok. reflexivity. }
  set (s4 := mkService w3 (delete key (pendingRequests s1)) (requests s3)
               (<[c1 := Settled (Returned (mkResult d m1))]> (callers s1)) (next_request s1)).
  assert (step (Resume c1) s3 = Some s4) as H4.
  { simpl. unfold resume. cbn [callers s3 requests]. rewrite Hcaller, lookup_insert_eq.
    reflexivity. }
  set (s5 := with_world (tick dt2 w3) s4).
  assert (step (Elapse dt2) s4 = Some s5) as H5 by reflexivity.
  assert (callers s5 !! c2 = None) as Hc5 by (simpl; by rewrite lookup_insert_ne).
  assert (step (Call c2 url options) s5 = Some (fetch c2 url options s5)) as H6
    by (cbn [step]; by rewrite Hc5).
  assert (fst (getFromCache key (now (world s5)) (cache (world s5))) = None) as Hmiss5.
  { unfold getFromCache.
    cbn [world s5 with_world cache now tick w3 with_metrics with_cache].
    rewrite map_get_setCache. cbn [entry_timestamp entry_ttl].
    assert ((now (world s2) + dt2 - now (world s2) >? ttl options) = true) as -> by lia.
    done. }
  assert (pendingRequests s5 !! key = None) as Hp5 by (simpl; by rewrite lookup_delete_eq).
  assert (signal_aborted (signal options) (world s5) = false) as Hsig5.
  { simpl. rewrite <- Hsig1. by destruct (signal options). }
  destruct (fetch_starts_request c2 url options s5 Hmiss5 Hp5 Hsig5 Hretry)
    as (Hcaller6 & Hpending6 & _ & Hm6 & Hreq6).
  fold key in Hcaller6, Hpending6, Hreq6.
  pose proof (fetch_new_request c2 url options s5 Hmiss5 Hp5) as Hs6. cbv zeta in Hs6.
  fold key in Hs6.
  exists (fetch c2 url options s5), m1. split.
  { cbn [run]. by rewrite H1, H2, H3, H4, H5, H6. }
  assert (next_request s5 = S (next_request s)) as Hn5 by (simpl; exact Hnext).
  rewrite Hn5 in Hcaller6, Hpending6, Hreq6.
  split.
  { unfold outcome_of. rewrite Hs6. cbn [callers s5 with_world s4].
    rewrite lookup_insert_ne by done. by rewrite lookup_insert_eq. }
  split; [done|]. split; [done|]. split.
  { unfold on_network. rewrite Hreq6. by do 3 eexists. }
  split.
  { rewrite Hs6. cbn [next_request]. by rewrite Hn5. }
  rewrite Hm6. simpl. by rewrite Hm1.
Qed.

(** The weekly statistics are fetched, and asked for again six minutes
    later with the default ttl of five. *)
Lemma expired_data_is_fetched_again_witness :
  let url := "/data/weekly_stats.json" in
  let options := [("retry", ONum 3); ("timeout", ONum 15000)] in
  let s := new_service 1000 in
  let d := JObj [("total_companies", JNum 6)] in
  (callers s !! 1%nat = None /\ callers s !! 2%nat = None /\ 1%nat <> 2%nat
   /\ fst (getFromCache (getCacheKey url options) (now (world s)) (cache (world s))) = None
   /\ pendingRequests s !! getCacheKey url options = None
   /\ signal_aborted (signal options) (world s) = false
   /\ 0 <= retry options
   /\ response_ok 200 = true
   /\ ttl options < 360000)
  /\ exists s' m1,
       run [Call 1 url options; Elapse 80;
            Settle (next_request s) (Response 200 "OK" (Parsed d) None);
            Resume 1; Elapse 360000; Call 2 url options] s = Some s'
       /\ outcome_of s' 1 = Some (Returned (mkResult d m1))
       /\ callers s' !! 2%nat = Some (Initiator (getCacheKey url options) (S (next_request s)))
       /\ pendingRequests s' !! getCacheKey url options = Some (S (next_request s))
       /\ on_network s' (getCacheKey url options) (S (next_request s))
       /\ next_request s' = S (S (next_request s))
       /\ metrics (world s') = recordMetrics url m1 (metrics (world s)).
Proof.
  intros url options s d.
  assert (callers s !! 1%nat = None) as H1 by reflexivity.
  assert (callers s !! 2%nat = None) as H2 by reflexivity.
  assert (1%nat <> 2%nat) as H3 by discriminate.
  assert (fst (getFromCache (getCacheKey url options) (now (world s)) (cache (world s))) = None)
    as H4 by reflexivity.
  assert (pendingRequests s !! getCacheKey url options = None) as H5 by reflexivity.
  assert (signal_aborted (signal options) (world s) = false) as H6 by reflexivity.
  assert (0 <= retry options) as H7 by (vm_compute; discriminate).
  assert (response_ok 200 = true) as H8 by reflexivity.
  assert (ttl options < 360000) as H9 by (vm_compute; reflexivity).
  split; [done|].
  exact (expired_data_is_fetched_again 1 2 url options s 80 360000 200 "OK" d None
           H1 H2 H3 H4 H5 H6 H7 H8 H9).
Defined.

(** ** The cache as a map *)

Section OrderedMapMore.
Context {V : Type}.
Implicit Types (m : list (string * V)) (k : string) (v : V).

Lemma map_get_None m k : map_get k m = None <-> k ∉ map_keys m.
Proof.
  induction m as [|[k' v'] m IH]; simpl.
  - split; [intros _; apply not_elem_of_nil | done].
  - rewrite not_elem_of_cons. destruct (String.eqb_spec k k') as [->|Hne].
    + split; [done | by intros [? _]].
    + rewrite IH. split; [done | by intros [_ ?]].
Qed.

Lemma map_get_set_ne m k k' v : k <> k' -> map_get k (map_set k' v m) = map_get k m.
Proof.
  intros Hne. induction m as [|[k0 v0] m IH]; simpl.
  - by destruct (String.eqb_spec k k').
  - destruct (String.eqb_spec k' k0) as [->|Hne0]; simpl.
    + by destruct (String.eqb_spec k k0).
    + by rewrite IH.
Qed.

Lemma map_get_delete_ne m k k' : k <> k' -> map_get k (map_delete k' m) = map_get k m.
Proof.
  intros Hne. induction m as [|[k0 v0] m IH]; simpl; [done|].
  destruct (String.eqb_spec k' k0) as [->|Hne0]; simpl.
  - by destruct (String.eqb_spec k k0).
  - by rewrite IH.
Qed.

Lemma map_keys_delete_subseteq m k : map_keys (map_delete k m) ⊆ map_keys m.
Proof.
  induction m as [|[k0 v0] m IH]; simpl; [done|].
  destruct (String.eqb k k0); simpl;
    [by apply list_subseteq_cons | by apply list_subseteq_skip].
Qed.

Lemma NoDup_map_delete m k : NoDup (map_keys m) -> NoDup (map_keys (map_delete k m)).
Proof.
  induction m as [|[k0 v0] m IH]; simpl; [done|].
  intros [Hnotin Hnd]%NoDup_cons. destruct (String.eqb k k0); simpl; [done|].
  apply NoDup_cons. split; [|by apply IH].
  intros Hin. apply Hnotin. by eapply map_keys_delete_subseteq.
Qed.

Lemma map_get_delete_eq m k : NoDup (map_keys m) -> map_get k (map_delete k m) = None.
Proof.
  induction m as [|[k0 v0] m IH]; simpl; [done|].
  intros [Hnotin Hnd]%NoDup_cons. destruct (String.eqb_spec k k0) as [->|Hne]; simpl.
  - by apply map_get_None.
  - destruct (String.eqb_spec k k0); [done|]. by apply IH.
Qed.

Lemma NoDup_map_set m k v : NoDup (map_keys m) -> NoDup (map_keys (map_set k v m)).
Proof.
  intros Hnd. destruct (map_get k m) as [v0|] eqn:Hget.
  - by rewrite map_set_present.
  - rewrite map_set_fresh by done. unfold map_keys in *. rewrite map_app. simpl.
    apply NoDup_app. split; [done|]. split.
    + intros x Hx ->%list_elem_of_singleton. by apply map_get_None in Hget.
    + apply NoDup_singleton.
Qed.

Lemma map_keys_filter_subseteq (P : string * V -> bool) m :
  map_keys (List.filter P m) ⊆ map_keys m.
Proof.
  induction m as [|kv m IH]; simpl; [done|].
  destruct (P kv); simpl; [by apply list_subseteq_skip | by apply list_subseteq_cons].
Qed.

Lemma NoDup_map_filter (P : string * V -> bool) m :
  NoDup (map_keys m) -> NoDup (map_keys (List.filter P m)).
Proof.
  induction m as [|kv m IH]; simpl; [done|].
  intros [Hnotin Hnd]%NoDup_cons. destruct (P kv); simpl; [|by apply IH].
  apply NoDup_cons. split; [|by apply IH].
  intros Hin. apply Hnotin. by eapply map_keys_filter_subseteq.
Qed.


End OrderedMapMore.

Lemma NoDup_cache_op op c : NoDup (map_keys c) -> NoDup (map_keys (cache_op op c)).
Proof.
  intros Hnd. destruct op as [key d ttl etag now|key now|now]; simpl.
  - unfold setCache. apply NoDup_map_set.
    destruct (map_size c >=? maxCacheSize); [|done].
    destruct (first_key c); [by apply NoDup_map_delete | done].
  - unfold getFromCache. destruct (map_get key c) as [e|]; [|done].
    destruct (now - entry_timestamp e >? entry_ttl e); simpl; [by apply NoDup_map_delete | done].
  - by apply NoDup_map_filter.
Qed.

Lemma NoDup_cache_ops ops : NoDup (map_keys (cache_ops ops)).
Proof.
  unfold cache_ops.
  assert (forall c, NoDup (map_keys c) ->
                    NoDup (map_keys (fold_left (fun cache op => cache_op op cache) ops c))) as H.
  { induction ops as [|op ops IH]; intros c Hc; simpl; [done|].
    apply IH. by apply NoDup_cache_op. }
  apply H. constructor.
Qed.



(** X14: an insertion leaves the other keys alone. Storing an entry
    under one key does not change what a read of another key returns,
    unless the cache is full and that other key is the first in insertion
    order, the one the insertion evicts. *)
Theorem insertion_leaves_other_keys_alone key key' d ttl etag t now c :
  key <> key' ->
  map_size c < maxCacheSize \/ first_key c <> Some key ->
  fst (getFromCache key now (setCache key' d ttl etag t c)) = fst (getFromCache key now c).
Proof.
  intros Hne Hroom. unfold getFromCache, setCache.
  rewrite map_get_set_ne by done.
  assert (map_get key (if map_size c >=? maxCacheSize
                       then match first_key c with
                            | Some oldestKey => map_delete oldestKey c
                            | None => c
                            end
                       else c) = map_get key c) as ->.
  { destruct (map_size c >=? maxCacheSize) eqn:Hfull; [|done].
    destruct Hroom as [Hlt|Hfirst]; [lia|].
    destruct (first_key c) as [oldestKey|]; [|done].
    apply map_get_delete_ne. congruence. }
  destruct (map_get key c) as [e|]; [|done].
  by destruct (now - entry_timestamp e >? entry_ttl e).
Qed.

Lemma insertion_leaves_other_keys_alone_witness :
  let c := cache_ops [OpSet "a" (JNum 1) 60000 None 0] in
  ("a" <> "b" /\ (map_size c < maxCacheSize \/ first_key c <> Some "a"))
  /\ fst (getFromCache "a" 1000 (setCache "b" (JNum 2) 60000 None 500 c))
     = fst (getFromCache "a" 1000 c).
Proof.
  intros c.
  assert ("a" <> "b") as H1 by discriminate.
  assert (map_size c < maxCacheSize \/ first_key c <> Some "a") as H2
    by (left; vm_compute; reflexivity).
  split; [done|].
  exact (insertion_leaves_other_keys_alone "a" "b" (JNum 2) 60000 None 500 1000 c H1 H2).
Defined.

(** X15: one key, one entry. On any cache the operations of the store
    can build no key occurs twice, so the size of the cache counts keys;
    and a key whose read found nothing, be it absent or expired, is
    absent afterwards: no later read serves it, whatever the clock says,
    until it is stored again. *)
Theorem missed_key_is_absent (ops : list CacheOp) key now :
  let c := cache_ops ops in
  NoDup (map_keys c)
  /\ (fst (getFromCache key now c) = None ->
      map_get key (snd (getFromCache key now c)) = None
      /\ forall now', fst (getFromCache key now' (snd (getFromCache key now c))) = None).
Proof.
  intros c. pose proof (NoDup_cache_ops ops) as Hnd. fold c in Hnd.
  split; [done|]. intros Hmiss.
  assert (map_get key (snd (getFromCache key now c)) = None) as Habsent.
  { unfold getFromCache in *. destruct (map_get key c) as [e|] eqn:Hget; [|done].
    destruct (now - entry_timestamp e >? entry_ttl e); [|done].
    by apply map_get_delete_eq. }
  split; [done|]. intros now'. unfold getFromCache at 1. by rewrite Habsent.
Qed.

(** ** The rolling history of an endpoint *)





(** ** The performance summary *)

Lemma math_max_ge x xs : x <= math_max x xs /\ Forall (fun y => y <= math_max x xs) xs.
Proof.
  unfold math_max. revert x. induction xs as [|y xs IH]; intros x; simpl.
  - split; [lia | constructor].
  - destruct (IH (Z.max x y)) as [H1 H2]. split; [lia|]. constructor; [lia | done].
Qed.

Lemma math_max_in x xs : math_max x xs ∈ x :: xs.
Proof.
  unfold math_max. revert x. induction xs as [|y xs IH]; intros x; simpl.
  - apply list_elem_of_here.
  - specialize (IH (Z.max x y)). apply elem_of_cons in IH as [H|H].
    + rewrite H. destruct (Z.max_spec x y) as [[_ ->]|[_ ->]];
        [apply list_elem_of_further, list_elem_of_here | apply list_elem_of_here].
    + by do 2 apply list_elem_of_further.
Qed.

Lemma math_min_le x xs : math_min x xs <= x /\ Forall (fun y => math_min x xs <= y) xs.
Proof.
  unfold math_min. revert x. induction xs as [|y xs IH]; intros x; simpl.
  - split; [lia | constructor].
  - destruct (IH (Z.min x y)) as [H1 H2]. split; [lia|]. constructor; [lia | done].
Qed.

Lemma filter_length_all {A} (f : A -> bool) (l : list A) :
  length (List.filter f l) = length l <-> Forall (fun x => f x = true) l.
Proof.
  induction l as [|x l IH]; simpl.
  - split; [constructor | done].
  - pose proof (List.filter_length_le f l) as Hle.
    destruct (f x) eqn:E; simpl.
    + split.
      * intros H. constructor; [done|]. apply IH. lia.
      * intros [_ H]%Forall_cons. f_equal. by apply IH.
    + split; [lia|]. intros [H _]%Forall_cons. congruence.
Qed.

Section PerformanceSummary.
Import QArith_base.
Local Open Scope Z_scope.

(** X17: the performance summary has an entry exactly for the urls with
    a history that is not empty, so that no quotient has a zero
    denominator. For such a url, [totalRequests] is the length of the
    history; [cacheHitRate] lies between 0 and 100 and is 100 exactly when
    every entry of the history is a cache hit; [minResponseTime] and
    [maxResponseTime] bound every response time of the history; and
    [lastRequest] is the latest timestamp of the history. *)
Theorem performance_summary_is_sound (metrics : gmap string (list NetworkMetrics)) url :
  match getPerformanceSummary metrics !! url with
  | None => getMetrics url metrics = []
  | Some su =>
      let history := getMetrics url metrics in
      history <> []
      /\ totalRequests su = Z.of_nat (length history)
      /\ 1 <= totalRequests su
      /\ Qle (inject_Z 0) (cacheHitRate su)
      /\ Qle (cacheHitRate su) (inject_Z 100)
      /\ (Qeq (cacheHitRate su) (inject_Z 100) <-> Forall (fun m => cacheHit m = true) history)
      /\ Forall (fun m => minResponseTime su <= responseTime m <= maxResponseTime su) history
      /\ Forall (fun m => timestamp m <= lastRequest su) history
      /\ (exists m, m ∈ history /\ lastRequest su = timestamp m)
  end.
Proof.
  unfold getPerformanceSummary, getMetrics. rewrite lookup_omap.
  destruct (metrics !! url) as [[|m rest]|]; simpl; [done | | done].
  set (n := Z.of_nat (S (length rest))).
  set (hits := Z.of_nat (length (if cacheHit m then m :: List.filter cacheHit rest
                                 else List.filter cacheHit rest))).
  assert (0 <= hits <= n) as Hhits.
  { subst hits n. pose proof (List.filter_length_le cacheHit rest).
    destruct (cacheHit m); simpl length; lia. }
  assert (hits = n <-> Forall (fun m => cacheHit m = true) (m :: rest)) as Hall.
  { rewrite <- (filter_length_all cacheHit (m :: rest)). simpl List.filter.
    subst hits n. simpl length. lia. }
  assert (0 < n) as Hn by (subst n; lia).
  clearbody n hits.
  split; [done|]. split; [done|]. split; [lia|].
  destruct n as [|p|p]; [lia | | lia].
  unfold quotient, Qdiv, Qinv, inject_Z, Qmult, Qle, Qeq. cbn [Qnum Qden].
  split; [|split; [|split; [|split; [|split]]]].
  - nia.
  - nia.
  - rewrite <- Hall. nia.
  - pose proof (math_min_le (responseTime m) (map responseTime rest)) as [Hmin Hmins].
    pose proof (math_max_ge (responseTime m) (map responseTime rest)) as [Hmax Hmaxs].
    constructor; [lia|]. rewrite Forall_map in Hmins, Hmaxs.
    rewrite Forall_forall in *. intros x Hx. specialize (Hmins x Hx). specialize (Hmaxs x Hx).
    simpl in *. lia.
  - pose proof (math_max_ge (timestamp m) (map timestamp rest)) as [Hmax Hmaxs].
    constructor; [lia|]. by rewrite Forall_map in Hmaxs.
  - pose proof (math_max_in (timestamp m) (map timestamp rest)) as Hin.
    change (timestamp m :: map timestamp rest) with (map timestamp (m :: rest)) in Hin.
    apply list_elem_of_fmap in Hin as (m' & Heq & Hin'). by exists m'.
Qed.

End PerformanceSummary.

(** ** One caller's signal, another caller's request *)

(** X18: a caller attached to a request shares its fate, cancellation by
    the signal of the caller that started it included. When a second
    caller asks for the same key while the request sleeps between two
    attempts, and the signal of the first caller is then aborted, the
    request ends at the next turn of its loop without a further attempt,
    and both callers get [Request aborted], the second one although its
    own signal was never aborted. *)
Theorem attached_caller_shares_cancellation c1 c2 url o1 o2 s sig1 o e :
  callers s !! c1 = None -> callers s !! c2 = None -> c1 <> c2 ->
  getCacheKey url o2 = getCacheKey url o1 ->
  map_get (getCacheKey url o1) (cache (world s)) = None ->
  pendingRequests s !! getCacheKey url o1 = None ->
  signal o1 = Some sig1 ->
  sig1 ∉ aborted (world s) ->
  1 <= retry o1 ->
  thrown_by o = Some e -> terminal_error e = false ->
  exists s',
    run [Call c1 url o1; Settle (next_request s) o; Call c2 url o2; AbortSignal sig1;
         Timer (next_request s); Resume c1; Resume c2] s = Some s'
    /\ outcome_of s' c1 = Some (Threw (Error "Request aborted"))
    /\ outcome_of s' c2 = Some (Threw (Error "Request aborted"))
    /\ next_request s' = S (next_request s)
    /\ aborted (world s') = {[sig1]} ∪ aborted (world s)
    /\ pendingRequests s' !! getCacheKey url o1 = None.
Proof.
  intros Hc1 Hc2 Hne Hkey Habsent Hp Hsig1 Hlive Hretry Ho Hterm.
  assert (getFromCache (getCacheKey url o1) (now (world s)) (cache (world s))
          = (None, cache (world s))) as Hget
    by (unfold getFromCache; by rewrite Habsent).
  assert (signal_aborted (signal o1) (world s) = false) as Hsig.
  { rewrite Hsig1. simpl. by apply bool_decide_eq_false. }
  destruct (fetch_starts_request c1 url o1 s) as (Hcaller & Hpending & _ & _ & Hreq);
    [by rewrite Hget | done | done | lia |].
  set (s1 := fetch c1 url o1 s) in *.
  assert (callers s1 !! c2 = None
          /\ next_request s1 = S (next_request s)
          /\ cache (world s1) = cache (world s)
          /\ aborted (world s1) = aborted (world s)
          /\ pendingRequests s1 = <[getCacheKey url o1 := next_request s]> (pendingRequests s))
    as (Hc2' & Hnext & Hcache & Habo & Hpend).
  { subst s1. unfold fetch. rewrite Hget, Hp. unfold executeRequest.
    rewrite (seqZ_cons 0) by lia. cbn [for_loop].
    rewrite run_sync_try_block.
    assert (signal_aborted (signal o1) (with_cache (cache (world s)) (world s)) = false) as ->
      by (rewrite Hsig1; simpl; by apply bool_decide_eq_false).
    simpl. by rewrite lookup_insert_ne. }
  assert (step (Call c1 url o1) s = Some s1) as H1 by (simpl; by rewrite Hc1).
  (* the first attempt fails and the request goes to sleep *)
  set (asleep := OnDelay (retryDelay o1 * 2 ^ 0)
                   (for_loop url o1 (perf (world s)) (seqZ 1 (retry o1)) (0 + 1) (Some e))).
  set (s2 := mkService (world s1) (pendingRequests s1)
               (<[next_request s := (getCacheKey url o1, asleep)]> (requests s1))
               (callers s1) (next_request s1)).
  assert (step (Settle (next_request s) o) s1 = Some s2) as H2.
  { simpl. rewrite Hreq.
    rewrite (after_fetch_throws _ _ _ _ _ _ _ Ho), run_sync_catch_block, Hterm.
    assert (signal_aborted (signal o1) (world s1) = false) as ->.
    { rewrite Hsig1. simpl. apply bool_decide_eq_false. by rewrite Habo. }
    cbn [orb].
    assert ((0 <? retry o1) = true) as -> by (apply Z.ltb_lt; lia).
    reflexivity. }
  (* the second caller attaches *)
  set (s3 := mkService (world s1) (pendingRequests s1) (requests s2)
               (<[c2 := Attached (next_request s) (perf (world s1))]> (callers s1))
               (next_request s1)).
  assert (step (Call c2 url o2) s2 = Some s3) as H3.
  { simpl. rewrite Hc2'. f_equal. unfold fetch. cbn [world s2 pendingRequests].
    rewrite Hkey. unfold getFromCache. rewrite <- Hcache in Habsent.
    rewrite Habsent, Hpending.
    subst s3. f_equal. by destruct (world s1). }
  (* the signal of the first caller is aborted and the timer fires *)
  set (s4 := with_world (abort sig1 (world s1)) s3).
  assert (step (AbortSignal sig1) s3 = Some s4) as H4 by reflexivity.
  set (s5 := mkService (failed url (perf (world s)) (0 + 1 + 1) (abort sig1 (world s1)))
               (pendingRequests s1)
               (<[next_request s := (getCacheKey url o1,
                                     Finished (Threw (Error "Request aborted")))]> (requests s2))
               (callers s3) (next_request s1)).
  assert (step (Timer (next_request s)) s4 = Some s5) as H5.
  { simpl. rewrite lookup_insert_eq. subst asleep.
    assert (seqZ 1 (retry o1) = 1 :: seqZ 2 (retry o1 - 1)) as ->.
    { rewrite seqZ_cons by lia. f_equal. }
    cbn [for_loop]. rewrite run_sync_try_block.
    assert (signal_aborted (signal o1) (abort sig1 (world s1)) = true) as Hab.
    { rewrite Hsig1. simpl. apply bool_decide_eq_true.
      by apply elem_of_union_l, elem_of_singleton. }
    rewrite Hab, run_sync_catch_block, Hab, orb_true_r, run_sync_after_loop.
    reflexivity. }
  set (s6 := mkService (world s5) (delete (getCacheKey url o1) (pendingRequests s1))
               (requests s5)
               (<[c1 := Settled (Threw (Error "Request aborted"))]> (callers s3))
               (next_request s1)).
  assert (step (Resume c1) s5 = Some s6) as H6.
  { simpl. unfold resume. cbn [callers s5 s3 requests].
    rewrite lookup_insert_ne by done. rewrite Hcaller, lookup_insert_eq. reflexivity. }
  set (s7 := mkService (world s5) (pendingRequests s6) (requests s5)
               (<[c2 := Settled (Threw (Error "Request aborted"))]> (callers s6))
               (next_request s1)).
  assert (step (Resume c2) s6 = Some s7) as H7.
  { simpl. unfold resume. cbn [callers s6 s5 s3 requests].
    rewrite lookup_insert_ne by done. rewrite !lookup_insert_eq. reflexivity. }
  exists s7. split.
  { cbn [run]. by rewrite H1, H2, H3, H4, H5, H6, H7. }
  unfold outcome_of. cbn [callers s7 s6 next_request pendingRequests world].
  rewrite lookup_insert_eq, lookup_insert_ne by done. rewrite lookup_insert_eq.
  split; [done|]. split; [done|]. split; [done|]. split.
  - simpl. by rewrite Habo.
  - by rewrite lookup_delete_eq.
Qed.

(** Two views ask for the weekly statistics; the first one goes away
    while the request waits to retry after a 503. *)
Lemma attached_caller_shares_cancellation_witness :
  let url := "/data/weekly_stats.json" in
  let o1 := [("retry", ONum 3); ("signal", OSignal 1)] in
  let o2 := [("retry", ONum 3); ("signal", OSignal 2)] in
  let s := new_service 1000 in
  let o := Response 503 "Service Unavailable" no_body None in
  (callers s !! 1%nat = None /\ callers s !! 2%nat = None /\ 1%nat <> 2%nat
   /\ getCacheKey url o2 = getCacheKey url o1
   /\ map_get (getCacheKey url o1) (cache (world s)) = None
   /\ pendingRequests s !! getCacheKey url o1 = None
   /\ signal o1 = Some 1%nat
   /\ (1%nat ∉ aborted (world s))
   /\ 1 <= retry o1
   /\ thrown_by o = Some (http_error 503 "Service Unavailable")
   /\ terminal_error (http_error 503 "Service Unavailable") = false)
  /\ exists s',
       run [Call 1 url o1; Settle (next_request s) o; Call 2 url o2; AbortSignal 1;
            Timer (next_request s); Resume 1; Resume 2] s = Some s'
       /\ outcome_of s' 1 = Some (Threw (Error "Request aborted"))
       /\ outcome_of s' 2 = Some (Threw (Error "Request aborted"))
       /\ next_request s' = S (next_request s)
       /\ aborted (world s') = {[1%nat]} ∪ aborted (world s)
       /\ pendingRequests s' !! getCacheKey url o1 = None.
Proof.
  intros url o1 o2 s o.
  assert (callers s !! 1%nat = None) as H1 by reflexivity.
  assert (callers s !! 2%nat = None) as H2 by reflexivity.
  assert (1%nat <> 2%nat) as H3 by discriminate.
  assert (getCacheKey url o2 = getCacheKey url o1) as H4 by (vm_compute; reflexivity).
  assert (map_get (getCacheKey url o1) (cache (world s)) = None) as H5 by reflexivity.
  assert (pendingRequests s !! getCacheKey url o1 = None) as H6 by reflexivity.
  assert (signal o1 = Some 1%nat) as H7 by reflexivity.
  assert (1%nat ∉ aborted (world s)) as H8 by (simpl; apply not_elem_of_empty).
  assert (1 <= retry o1) as H9 by (vm_compute; discriminate).
  assert (thrown_by o = Some (http_error 503 "Service Unavailable")) as H10 by reflexivity.
  assert (terminal_error (http_error 503 "Service Unavailable") = false) as H11
    by (vm_compute; reflexivity).
  split; [done|].
  exact (attached_caller_shares_cancellation 1 2 url o1 o2 s 1 o _ H1 H2 H3 H4 H5 H6 H7 H8 H9
           H10 H11).
Defined.

(** ** The hook *)


(** X20: the hook reports staleness and acts on it by the same test. A
    focus event goes to the network exactly when refetching on focus and
    the hook are enabled and the render at that time reports [isStale].
    At the exact age [staleTime] the data is not stale, and yet a plain
    [fetchData()] does not take it for fresh and goes to the network. *)
Theorem focus_refetches_what_is_stale options t s :
  (focus_calls_fetchData options t s && UseDataFetch.issues_request options false t s
   = default true (UseDataFetch.refetchOnFocus options)
     && default true (UseDataFetch.enabled options)
     && UseDataFetch.isStale (UseDataFetch.render options t s))
  /\ (t - UseDataFetch.lastFetch s = default 300000 (UseDataFetch.staleTime options) ->
      UseDataFetch.isStale (UseDataFetch.render options t s) = false
      /\ UseDataFetch.issues_request options false t s
         = default true (UseDataFetch.enabled options)).
Proof.
  unfold focus_calls_fetchData, UseDataFetch.issues_request, UseDataFetch.render.
  cbn [UseDataFetch.isStale negb].
  set (st := default 300000 (UseDataFetch.staleTime options)).
  split.
  - destruct (default true (UseDataFetch.refetchOnFocus options)),
      (default true (UseDataFetch.enabled options)); cbn [andb]; try done.
    + destruct (t - UseDataFetch.lastFetch s >? st) eqn:E; [|done].
      assert ((t - UseDataFetch.lastFetch s <? st) = false) as -> by lia.
      by rewrite andb_false_r.
    + by rewrite andb_false_r.
  - intros Hage. split; [lia|].
    assert ((t - UseDataFetch.lastFetch s <? st) = false) as -> by lia.
    by rewrite andb_false_r, andb_true_r.
Qed.

(** X21: [useDataFetchMultiple] sorts what it fetched. After [fetchAll]
    a url is a key of [data] or of [errors] exactly when it is one of the
    urls asked for; and when no url is asked for twice, each url is a key
    of exactly one of the two: of [data], with the data its call returned,
    or of [errors], with the error its call threw. *)
Theorem fetchAll_sorts_results (results : list (string * Outcome FetchResult)) url :
  let st := fetchAll results in
  (url ∈ map fst results
   <-> is_Some (multiple_data st !! url) \/ is_Some (multiple_errors st !! url))
  /\ (NoDup (map fst results) ->
      forall o, (url, o) ∈ results ->
        match o with
        | Returned result =>
            multiple_data st !! url = Some (data result) /\ multiple_errors st !! url = None
        | Threw e =>
            multiple_errors st !! url = Some e /\ multiple_data st !! url = None
        end)
  /\ multiple_loading st = false.
Proof.
  cbv zeta. unfold fetchAll. cbn [multiple_data multiple_errors multiple_loading].
  assert (forall acc,
    let acc' := fold_left collect results acc in
    (is_Some (fst acc' !! url) \/ is_Some (snd acc' !! url)
     <-> url ∈ map fst results \/ is_Some (fst acc !! url) \/ is_Some (snd acc !! url))
    /\ (url ∉ map fst results -> fst acc' !! url = fst acc !! url /\ snd acc' !! url = snd acc !! url)
    /\ (NoDup (map fst results) ->
        forall o, (url, o) ∈ results ->
          match o with
          | Returned result =>
              fst acc' !! url = Some (data result) /\ snd acc' !! url = snd acc !! url
          | Threw e =>
              snd acc' !! url = Some e /\ fst acc' !! url = fst acc !! url
          end)) as Hfold.
  { induction results as [|[u o] results IH]; intros acc; cbn [fold_left map fst].
    - split; [|split].
      + split; [by right | intros [Hin|H]; [by apply elem_of_nil in Hin | done]].
      + done.
      + intros _ o Hin. by apply elem_of_nil in Hin.
    - destruct (IH (collect acc (u, o))) as (IH1 & IH2 & IH3). cbv zeta in *.
      split; [|split].
      + rewrite IH1, elem_of_cons. unfold collect. cbn [fst snd].
        destruct o as [result|e]; cbn [fst snd]; rewrite lookup_insert;
          case_decide as Hu.
        * subst u. split; intros _; [left; by left | right; left; by eexists].
        * split; [intros [?|?]; [left; by right | by right]
                 | intros [[?|?]|?]; [congruence | by left | by right]].
        * subst u. split; intros _; [left; by left | right; right; by eexists].
        * split; [intros [?|?]; [left; by right | by right]
                 | intros [[?|?]|?]; [congruence | by left | by right]].
      + rewrite not_elem_of_cons. intros [Hne Hnotin].
        destruct (IH2 Hnotin) as [-> ->]. unfold collect. cbn [fst snd].
        destruct o; cbn [fst snd]; by rewrite lookup_insert_ne.
      + intros [Hnotin Hnd]%NoDup_cons o' [Heq|Hin]%elem_of_cons.
        * injection Heq as -> ->. destruct (IH2 Hnotin) as [-> ->].
          unfold collect. cbn [fst snd].
          destruct o; cbn [fst snd]; by rewrite lookup_insert_eq.
        * specialize (IH3 Hnd o' Hin).
          assert (url <> u) as Hne.
          { intros ->. apply Hnotin. apply list_elem_of_fmap. by exists (u, o'). }
          unfold collect in IH3. cbn [fst snd] in IH3.
          destruct o, o'; cbn [fst snd] in IH3;
            rewrite ?lookup_insert_ne in IH3 by done; done. }
  destruct (Hfold (∅, ∅)) as (H1 & _ & H3). cbv zeta in *. cbn [fst snd] in *.
  split; [|split; [|done]].
  - rewrite H1, !lookup_empty. split; [tauto|].
    intros [?|[[? ?]|[? ?]]]; [done | discriminate..].
  - intros Hnd o Hin. specialize (H3 Hnd o Hin).
    destruct o; by rewrite lookup_empty in H3.
Qed.

(** ** The hook on top of the service *)

(** X22: a request that ends by timeout is not reported by the hook.
    When the attempts of a request fail with errors the guard lets
    through and the next one times out, [executeRequest] throws the
    [AbortError] of that attempt; the hook that awaits it takes it for a
    cancellation: it sets no error, keeps its data and [lastFetch], ends
    loading, and its [online] handler, which retries only after an error,
    will not retry. *)
Theorem timeout_is_not_reported_by_the_hook
    url netOptions startTime w script os options force t0 t1 s :
  0 <= retry netOptions ->
  Z.of_nat (length os) <= retry netOptions ->
  signal_aborted (signal netOptions) w = false ->
  without_ticks script = retry_script (os ++ [TimedOut]) ->
  Forall retryable_failure os ->
  UseDataFetch.issues_request options force t0 s = true ->
  exists w' err,
    exec script (start (executeRequest url netOptions startTime) w)
    = Some (w', Finished (Threw err),
            attempts_trace url (timeout netOptions) (retryDelay netOptions) 0 (S (length os)))
    /\ let s' := UseDataFetch.fetchData options force t0 (Threw err) false t1 s in
       UseDataFetch.error s' = None
       /\ UseDataFetch.loading s' = false
       /\ UseDataFetch.data s' = UseDataFetch.data s
       /\ UseDataFetch.lastFetch s' = UseDataFetch.lastFetch s
       /\ online_calls_fetchData options s' = false.
Proof.
  intros Hretry Hlen Hsig Hs Hos Hissues.
  destruct (request_fails url netOptions startTime w script os TimedOut AbortError)
    as (w' & m & Hex & _); [done | done | done | done | done | done | by left |].
  exists w', AbortError. split; [exact Hex|].
  unfold UseDataFetch.fetchData. rewrite Hissues. cbn.
  unfold online_calls_fetchData. cbn. by rewrite andb_false_r.
Qed.

(** The dashboard's request with one retry: a 502, then a timeout. *)
Lemma timeout_is_not_reported_by_the_hook_witness :
  let url := "/data/weekly_stats.json" in
  let netOptions := [("retry", ONum 1); ("retryDelay", ONum 1000); ("timeout", ONum 15000)] in
  let w := mkWorld [] ∅ 1000 0 ∅ in
  let os := [Response 502 "Bad Gateway" no_body None] in
  let script := [FetchSettles (Response 502 "Bad Gateway" no_body None); Tick 1000; TimerFires;
                 Tick 15000; FetchSettles TimedOut] in
  let options := UseDataFetch.mkOptions None None None None None in
  let s := UseDataFetch.initial options in
  (0 <= retry netOptions
   /\ Z.of_nat (length os) <= retry netOptions
   /\ signal_aborted (signal netOptions) w = false
   /\ without_ticks script = retry_script (os ++ [TimedOut])
   /\ Forall retryable_failure os
   /\ UseDataFetch.issues_request options false 1000 s = true)
  /\ exists w' err,
       exec script (start (executeRequest url netOptions 0) w)
       = Some (w', Finished (Threw err),
               attempts_trace url (timeout netOptions) (retryDelay netOptions) 0 (S (length os)))
       /\ let s' := UseDataFetch.fetchData options false 1000 (Threw err) false 17000 s in
          UseDataFetch.error s' = None
          /\ UseDataFetch.loading s' = false
          /\ UseDataFetch.data s' = UseDataFetch.data s
          /\ UseDataFetch.lastFetch s' = UseDataFetch.lastFetch s
          /\ online_calls_fetchData options s' = false.
Proof.
  intros url netOptions w os script options s.
  assert (0 <= retry netOptions) as H1 by (vm_compute; discriminate).
  assert (Z.of_nat (length os) <= retry netOptions) as H2 by (vm_compute; discriminate).
  assert (signal_aborted (signal netOptions) w = false) as H3 by reflexivity.
  assert (without_ticks script = retry_script (os ++ [TimedOut])) as H4 by reflexivity.
  assert (Forall retryable_failure os) as H5
    by (repeat constructor; eexists; split; vm_compute; reflexivity).
  assert (UseDataFetch.issues_request options false 1000 s = true) as H6 by reflexivity.
  split; [done|].
  exact (timeout_is_not_reported_by_the_hook url netOptions 0 w script os options false 1000
           17000 s H1 H2 H3 H4 H5 H6).
Defined.

(** X23: a request cancelled through its signal is reported by the hook
    as an error. When the signal is aborted while the request sleeps
    after a failed attempt, [executeRequest] throws an [Error] named
    [Error] with the message [Request aborted]; the hook's test for
    [AbortError] does not match it, so the hook sets it as its error,
    whether or not its own controller is aborted by then, and
    substitutes the fallback when it has no data. *)
Theorem cancellation_is_reported_by_the_hook
    url netOptions startTime w sig o e options force t0 aborted t1 s :
  signal netOptions = Some sig ->
  sig ∉ NetworkService.aborted w ->
  1 <= retry netOptions ->
  thrown_by o = Some e -> terminal_error e = false ->
  UseDataFetch.issues_request options force t0 s = true ->
  exists w' err,
    exec [FetchSettles o; Abort sig; TimerFires]
      (start (executeRequest url netOptions startTime) w)
    = Some (w', Finished (Threw err),
            [PhysicalFetch url (timeout netOptions); Sleep (retryDelay netOptions * 2 ^ 0)])
    /\ err = Error "Request aborted"
    /\ let s' := UseDataFetch.fetchData options force t0 (Threw err) aborted t1 s in
       UseDataFetch.error s' = Some err
       /\ (truthy (UseDataFetch.data s) = false ->
           UseDataFetch.supplied (UseDataFetch.fallbackData options) = true ->
           Some (UseDataFetch.data s') = UseDataFetch.fallbackData options).
Proof.
  intros Hsig Hlive Hretry Ho Hterm Hissues.
  assert (signal_aborted (signal netOptions) w = false) as Hnot.
  { rewrite Hsig. simpl. by apply bool_decide_eq_false. }
  assert (signal_aborted (signal netOptions) (abort sig w) = true) as Hab.
  { rewrite Hsig. simpl. apply bool_decide_eq_true.
    by apply elem_of_union_l, elem_of_singleton. }
  unfold start, executeRequest.
  rewrite (seqZ_cons 0) by lia. cbn [for_loop].
  rewrite run_sync_try_block, Hnot. cbn [effect_of exec input_step].
  rewrite (after_fetch_throws _ _ _ _ _ _ _ Ho), run_sync_catch_block, Hterm, Hnot.
  cbn [orb].
  assert ((0 <? retry netOptions) = true) as -> by (apply Z.ltb_lt; lia).
  cbn [effect_of exec input_step].
  rewrite (seqZ_cons (Z.succ 0)) by lia. cbn [for_loop].
  rewrite run_sync_try_block, Hab, run_sync_catch_block, Hab, orb_true_r, run_sync_after_loop.
  cbn [effect_of default].
  do 2 eexists. split; [reflexivity|]. split; [reflexivity|].
  unfold UseDataFetch.fetchData. rewrite Hissues. cbn [negb name Error String.eqb Ascii.eqb].
  split.
  - destruct (negb (truthy (UseDataFetch.data s))
              && UseDataFetch.supplied (UseDataFetch.fallbackData options)), aborted; done.
  - intros Hd Hfb. rewrite Hd, Hfb. cbn [negb andb].
    unfold UseDataFetch.supplied in Hfb.
    destruct (UseDataFetch.fallbackData options) as [fb|]; [|done].
    by destruct aborted.
Qed.

(** A view with fallback data whose first attempt fails with a 503 and
    whose signal is aborted during the backoff. *)
Lemma cancellation_is_reported_by_the_hook_witness :
  let url := "/data/historical_baseline.json" in
  let netOptions := [("retry", ONum 3); ("retryDelay", ONum 1500); ("signal", OSignal 7)] in
  let w := mkWorld [] ∅ 1000 0 ∅ in
  let o := Response 503 "Service Unavailable" no_body None in
  let fb := JObj [("timezone", JStr "Asia/Taipei")] in
  let options := UseDataFetch.mkOptions (Some 600000) (Some false) None None (Some fb) in
  let s := UseDataFetch.mkState JNull false None None 0 in
  (signal netOptions = Some 7%nat
   /\ (7%nat ∉ NetworkService.aborted w)
   /\ 1 <= retry netOptions
   /\ thrown_by o = Some (http_error 503 "Service Unavailable")
   /\ terminal_error (http_error 503 "Service Unavailable") = false
   /\ UseDataFetch.issues_request options true 1000 s = true)
  /\ exists w' err,
       exec [FetchSettles o; Abort 7; TimerFires]
         (start (executeRequest url netOptions 0) w)
       = Some (w', Finished (Threw err),
               [PhysicalFetch url (timeout netOptions); Sleep (retryDelay netOptions * 2 ^ 0)])
       /\ err = Error "Request aborted"
       /\ let s' := UseDataFetch.fetchData options true 1000 (Threw err) false 3000 s in
          UseDataFetch.error s' = Some err
          /\ (truthy (UseDataFetch.data s) = false ->
              UseDataFetch.supplied (UseDataFetch.fallbackData options) = true ->
              Some (UseDataFetch.data s') = UseDataFetch.fallbackData options).
Proof.
  intros url netOptions w o fb options s.
  assert (signal netOptions = Some 7%nat) as H1 by reflexivity.
  assert (7%nat ∉ NetworkService.aborted w) as H2 by (simpl; apply not_elem_of_empty).
  assert (1 <= retry netOptions) as H3 by (vm_compute; discriminate).
  assert (thrown_by o = Some (http_error 503 "Service Unavailable")) as H4 by reflexivity.
  assert (terminal_error (http_error 503 "Service Unavailable") = false) as H5
    by (vm_compute; reflexivity).
  assert (UseDataFetch.issues_request options true 1000 s = true) as H6 by reflexivity.
  split; [done|].
  exact (cancellation_is_reported_by_the_hook url netOptions 0 w 7 o _ options true 1000 false
           3000 s H1 H2 H3 H4 H5 H6).
Defined.

(** ** Serialised configurations *)


















(** ** Preloading *)


(** ** A refetch while the request backs off *)

(** A call of [fetchData] that nothing overlaps is its two halves, one
    after the other. *)
Lemma fetchData_begin_settle options force t0 outcome aborted t1 refs s :
  UseDataFetch.fetchData options force t0 outcome aborted t1 s
  = match fetchData_begin options force t0 refs s with
    | None => s
    | Some b => fetchData_settle options s outcome aborted t1 (begun_state b)
    end.
Proof.
  unfold UseDataFetch.fetchData, fetchData_begin.
  by destruct (negb (UseDataFetch.issues_request options force t0 s)).
Qed.

Lemma same_but_signal_with_signal a b o :
  same_but_signal (with_signal a o) (with_signal b o).
Proof.
  unfold with_signal, same_but_signal.
  induction o as [|[k v] o IH]; cbn [map_set].
  - constructor; [|constructor]. split; [done|]. right. by exists a, b.
  - destruct (String.eqb "signal" k).
    + constructor.
      * split; [done|]. right. by exists a, b.
      * clear IH. induction o as [|kv o IH]; constructor; [|done]. split; [done | by left].
    + constructor; [|done]. split; [done | by left].
Qed.

Lemma option_num_with_signal field dflt sig o :
  field <> "signal" -> option_num field dflt (with_signal sig o) = option_num field dflt o.
Proof. intros Hne. unfold option_num, with_signal. by rewrite map_get_set_ne. Qed.

Lemma signal_with_signal sig o : signal (with_signal sig o) = Some sig.
Proof. unfold signal, option_signal, with_signal. by rewrite map_get_set_eq. Qed.

(** The service when the signal of the caller that started a request is
    aborted during the backoff and a second caller then asks for the
    same key. *)
Lemma attached_after_cancellation c1 c2 url o1 o2 s sig1 o e :
  callers s !! c1 = None -> callers s !! c2 = None -> c1 <> c2 ->
  getCacheKey url o2 = getCacheKey url o1 ->
  map_get (getCacheKey url o1) (cache (world s)) = None ->
  pendingRequests s !! getCacheKey url o1 = None ->
  signal o1 = Some sig1 ->
  sig1 ∉ aborted (world s) ->
  1 <= retry o1 ->
  thrown_by o = Some e -> terminal_error e = false ->
  exists s',
    run [Call c1 url o1; Settle (next_request s) o; AbortSignal sig1; Call c2 url o2;
         Timer (next_request s); Resume c1; Resume c2] s = Some s'
    /\ outcome_of s' c1 = Some (Threw (Error "Request aborted"))
    /\ outcome_of s' c2 = Some (Threw (Error "Request aborted"))
    /\ next_request s' = S (next_request s)
    /\ aborted (world s') = {[sig1]} ∪ aborted (world s)
    /\ pendingRequests s' !! getCacheKey url o1 = None.
Proof.
  intros Hc1 Hc2 Hne Hkey Habsent Hp Hsig1 Hlive Hretry Ho Hterm.
  assert (getFromCache (getCacheKey url o1) (now (world s)) (cache (world s))
          = (None, cache (world s))) as Hget
    by (unfold getFromCache; by rewrite Habsent).
  assert (signal_aborted (signal o1) (world s) = false) as Hsig.
  { rewrite Hsig1. simpl. by apply bool_decide_eq_false. }
  destruct (fetch_starts_request c1 url o1 s) as (Hcaller & Hpending & _ & _ & Hreq);
    [by rewrite Hget | done | done | lia |].
  set (s1 := fetch c1 url o1 s) in *.
  assert (callers s1 !! c2 = None
          /\ next_request s1 = S (next_request s)
          /\ cache (world s1) = cache (world s)
          /\ aborted (world s1) = aborted (world s)
          /\ pendingRequests s1 = <[getCacheKey url o1 := next_request s]> (pendingRequests s))
    as (Hc2' & Hnext & Hcache & Habo & Hpend).
  { subst s1. unfold fetch. rewrite Hget, Hp. unfold executeRequest.
    rewrite (seqZ_cons 0) by lia. cbn [for_loop].
    rewrite run_sync_try_block.
    assert (signal_aborted (signal o1) (with_cache (cache (world s)) (world s)) = false) as ->
      by (rewrite Hsig1; simpl; by apply bool_decide_eq_false).
    simpl. by rewrite lookup_insert_ne. }
  assert (step (Call c1 url o1) s = Some s1) as H1 by (simpl; by rewrite Hc1).
  (* the first attempt fails and the request goes to sleep *)
  set (asleep := OnDelay (retryDelay o1 * 2 ^ 0)
                   (for_loop url o1 (perf (world s)) (seqZ 1 (retry o1)) (0 + 1) (Some e))).
  set (s2 := mkService (world s1) (pendingRequests s1)
               (<[next_request s := (getCacheKey url o1, asleep)]> (requests s1))
               (callers s1) (next_request s1)).
  assert (step (Settle (next_request s) o) s1 = Some s2) as H2.
  { simpl. rewrite Hreq.
    rewrite (after_fetch_throws _ _ _ _ _ _ _ Ho), run_sync_catch_block, Hterm.
    assert (signal_aborted (signal o1) (world s1) = false) as ->.
    { rewrite Hsig1. simpl. apply bool_decide_eq_false. by rewrite Habo. }
    cbn [orb].
    assert ((0 <? retry o1) = true) as -> by (apply Z.ltb_lt; lia).
    reflexivity. }
  (* the signal of the first caller is aborted, and the second caller attaches *)
  set (s3 := with_world (abort sig1 (world s1)) s2).
  assert (step (AbortSignal sig1) s2 = Some s3) as H3 by reflexivity.
  set (s4 := mkService (abort sig1 (world s1)) (pendingRequests s1) (requests s2)
               (<[c2 := Attached (next_request s) (perf (world s1))]> (callers s1))
               (next_request s1)).
  assert (step (Call c2 url o2) s3 = Some s4) as H4.
  { simpl. rewrite Hc2'. f_equal. unfold fetch. cbn [world s3 s2 with_world pendingRequests].
    rewrite Hkey. unfold getFromCache. rewrite <- Hcache in Habsent.
    cbn [abort cache]. rewrite Habsent, Hpending. done. }
  set (s5 := mkService (failed url (perf (world s)) (0 + 1 + 1) (abort sig1 (world s1)))
               (pendingRequests s1)
               (<[next_request s := (getCacheKey url o1,
                                     Finished (Threw (Error "Request aborted")))]> (requests s2))
               (callers s4) (next_request s1)).
  assert (step (Timer (next_request s)) s4 = Some s5) as H5.
  { simpl. rewrite lookup_insert_eq. subst asleep.
    assert (seqZ 1 (retry o1) = 1 :: seqZ 2 (retry o1 - 1)) as ->.
    { rewrite seqZ_cons by lia. f_equal. }
    cbn [for_loop]. rewrite run_sync_try_block.
    assert (signal_aborted (signal o1) (abort sig1 (world s1)) = true) as Hab.
    { rewrite Hsig1. simpl. apply bool_decide_eq_true.
      by apply elem_of_union_l, elem_of_singleton. }
    rewrite Hab, run_sync_catch_block, Hab, orb_true_r, run_sync_after_loop.
    reflexivity. }
  set (s6 := mkService (world s5) (delete (getCacheKey url o1) (pendingRequests s1))
               (requests s5)
               (<[c1 := Settled (Threw (Error "Request aborted"))]> (callers s4))
               (next_request s1)).
  assert (step (Resume c1) s5 = Some s6) as H6.
  { simpl. unfold resume. cbn [callers s5 s4 requests].
    rewrite lookup_insert_ne by done. rewrite Hcaller, lookup_insert_eq. reflexivity. }
  set (s7 := mkService (world s5) (pendingRequests s6) (requests s5)
               (<[c2 := Settled (Threw (Error "Request aborted"))]> (callers s6))
               (next_request s1)).
  assert (step (Resume c2) s6 = Some s7) as H7.
  { simpl. unfold resume. cbn [callers s6 s5 s4 requests].
    rewrite lookup_insert_ne by done. rewrite !lookup_insert_eq. reflexivity. }
  exists s7. split.
  { cbn [run]. by rewrite H1, H2, H3, H4, H5, H6, H7. }
  unfold outcome_of. cbn [callers s7 s6 next_request pendingRequests world].
  rewrite lookup_insert_eq, lookup_insert_ne by done. rewrite lookup_insert_eq.
  split; [done|]. split; [done|]. split; [done|]. split.
  - simpl. by rewrite Habo.
  - by rewrite lookup_delete_eq.
Qed.

(** X26: a refetch while the request backs off fails, and the hook
    shows an error nobody asked for. The hook's first call of
    [fetchData] starts a request whose first attempt fails with an error
    the guard lets through; while the request sleeps, [refetch] aborts
    the controller of the first call and asks the service again with a
    new signal. The key being the same, the second call attaches to the
    request of the first; that request finds its signal aborted and
    throws [Request aborted] without a further attempt; both calls get
    that error, the second although its own signal is never aborted;
    and the hook ends with that error set and [loading] false, its data
    not refreshed. *)
Theorem refetch_during_backoff_fails
    url networkOptions options refs hs t0 t1 t2 t3 svc cA cB o e :
  let a := next_controller refs in
  let b := S a in
  let oA := with_signal a networkOptions in
  let oB := with_signal b networkOptions in
  current refs = None ->
  UseDataFetch.issues_request options false t0 hs = true ->
  callers svc !! cA = None -> callers svc !! cB = None -> cA <> cB ->
  map_get (getCacheKey url oA) (cache (world svc)) = None ->
  pendingRequests svc !! getCacheKey url oA = None ->
  a ∉ aborted (world svc) -> b ∉ aborted (world svc) ->
  1 <= retry networkOptions ->
  thrown_by o = Some e -> terminal_error e = false ->
  exists bA bB svc' err,
    fetchData_begin options false t0 refs hs = Some bA
    /\ own_signal bA = a /\ aborts bA = None
    /\ fetchData_begin options true t1 (begun_refs bA) (begun_state bA) = Some bB
    /\ own_signal bB = b /\ aborts bB = Some a
    /\ run [Call cA url oA; Settle (next_request svc) o; AbortSignal a; Call cB url oB;
            Timer (next_request svc); Resume cA; Resume cB] svc = Some svc'
    /\ next_request svc' = S (next_request svc)
    /\ outcome_of svc' cA = Some (Threw err)
    /\ outcome_of svc' cB = Some (Threw err)
    /\ err = Error "Request aborted"
    /\ (b ∉ aborted (world svc'))
    /\ let unmounted := current_aborted (begun_refs bB) (aborted (world svc')) in
       let hs' :=
         fetchData_settle options (begun_state bA) (Threw err) unmounted t3
           (fetchData_settle options hs (Threw err) unmounted t2 (begun_state bB)) in
       unmounted = false
       /\ UseDataFetch.error hs' = Some err
       /\ UseDataFetch.loading hs' = false
       /\ UseDataFetch.lastFetch hs' = UseDataFetch.lastFetch hs
       /\ UseDataFetch.metrics hs' = UseDataFetch.metrics hs.
Proof.
  intros a b oA oB Hcur Hissues HcA HcB Hne Habsent Hp Ha Hb Hretry Ho Hterm.
  assert (default true (UseDataFetch.enabled options) = true) as Henabled.
  { unfold UseDataFetch.issues_request in Hissues. by apply andb_true_iff in Hissues as [? _]. }
  assert (getCacheKey url oB = getCacheKey url oA) as Hkey.
  { unfold getCacheKey. subst oA oB.
    by rewrite (same_but_signal_json _ _ (same_but_signal_with_signal b a networkOptions)). }
  destruct (attached_after_cancellation cA cB url oA oB svc a o e)
    as (svc' & Hrun & HoutA & HoutB & Hnext & Habo & _);
    [done | done | done | done | done | done | apply signal_with_signal | done
    | subst oA; unfold retry; by rewrite option_num_with_signal | done | done |].
  assert (b ∉ aborted (world svc')) as Hb'.
  { rewrite Habo. apply not_elem_of_union. split; [|done].
    rewrite elem_of_singleton. subst b. lia. }
  eexists _, _, svc', _.
  split; [unfold fetchData_begin; by rewrite Hissues|]. cbn [own_signal aborts negb].
  split; [done|]. split; [done|].
  split.
  { unfold fetchData_begin, UseDataFetch.issues_request.
    cbn [negb andb begun_state begun_refs]. by rewrite Henabled. }
  cbn [own_signal aborts begun_refs begun_state current next_controller].
  split; [done|]. split; [done|]. split; [exact Hrun|]. split; [exact Hnext|].
  split; [exact HoutA|]. split; [exact HoutB|]. split; [done|]. split; [exact Hb'|].
  cbv zeta. unfold current_aborted. cbn [current].
  assert (bool_decide (S (next_controller refs) ∈ aborted (world svc')) = false) as ->
    by (by apply bool_decide_eq_false).
  split; [done|].
  unfold fetchData_settle.
  cbn [negb name Error String.eqb Ascii.eqb UseDataFetch.data UseDataFetch.loading
       UseDataFetch.error UseDataFetch.metrics UseDataFetch.lastFetch].
  destruct (negb (truthy (UseDataFetch.data hs))
            && UseDataFetch.supplied (UseDataFetch.fallbackData options));
    cbn [UseDataFetch.data UseDataFetch.loading UseDataFetch.error UseDataFetch.metrics
         UseDataFetch.lastFetch]; done.
Qed.

(** The dashboard's request for the weekly statistics: a 503, and a
    click on retry during the first backoff. *)
Lemma refetch_during_backoff_fails_witness :
  let url := "/data/weekly_stats.json" in
  let networkOptions := [("retry", ONum 3); ("retryDelay", ONum 1000); ("timeout", ONum 15000)] in
  let options := UseDataFetch.mkOptions (Some 300000) (Some true) None None None in
  let refs := mkRefs None 0 in
  let hs := UseDataFetch.initial options in
  let svc := new_service 1000 in
  let o := Response 503 "Service Unavailable" no_body None in
  let oA := with_signal 0 networkOptions in
  let oB := with_signal 1 networkOptions in
  (current refs = None
   /\ UseDataFetch.issues_request options false 1000 hs = true
   /\ callers svc !! 1%nat = None /\ callers svc !! 2%nat = None /\ 1%nat <> 2%nat
   /\ map_get (getCacheKey url oA) (cache (world svc)) = None
   /\ pendingRequests svc !! getCacheKey url oA = None
   /\ (0%nat ∉ aborted (world svc)) /\ (1%nat ∉ aborted (world svc))
   /\ 1 <= retry networkOptions
   /\ thrown_by o = Some (http_error 503 "Service Unavailable")
   /\ terminal_error (http_error 503 "Service Unavailable") = false)
  /\ exists bA bB svc' err,
       fetchData_begin options false 1000 refs hs = Some bA
       /\ own_signal bA = 0%nat /\ aborts bA = None
       /\ fetchData_begin options true 1500 (begun_refs bA) (begun_state bA) = Some bB
       /\ own_signal bB = 1%nat /\ aborts bB = Some 0%nat
       /\ run [Call 1 url oA; Settle (next_request svc) o; AbortSignal 0; Call 2 url oB;
               Timer (next_request svc); Resume 1; Resume 2] svc = Some svc'
       /\ next_request svc' = S (next_request svc)
       /\ outcome_of svc' 1 = Some (Threw err)
       /\ outcome_of svc' 2 = Some (Threw err)
       /\ err = Error "Request aborted"
       /\ (1%nat ∉ aborted (world svc'))
       /\ let unmounted := current_aborted (begun_refs bB) (aborted (world svc')) in
          let hs' :=
            fetchData_settle options (begun_state bA) (Threw err) unmounted 2100
              (fetchData_settle options hs (Threw err) unmounted 2100 (begun_state bB)) in
          unmounted = false
          /\ UseDataFetch.error hs' = Some err
          /\ UseDataFetch.loading hs' = false
          /\ UseDataFetch.lastFetch hs' = UseDataFetch.lastFetch hs
          /\ UseDataFetch.metrics hs' = UseDataFetch.metrics hs.
Proof.
  intros url networkOptions options refs hs svc o oA oB.
  assert (current refs = None) as H1 by reflexivity.
  assert (UseDataFetch.issues_request options false 1000 hs = true) as H2 by reflexivity.
  assert (callers svc !! 1%nat = None) as H3 by reflexivity.
  assert (callers svc !! 2%nat = None) as H4 by reflexivity.
  assert (1%nat <> 2%nat) as H5 by discriminate.
  assert (map_get (getCacheKey url oA) (cache (world svc)) = None) as H6 by reflexivity.
  assert (pendingRequests svc !! getCacheKey url oA = None) as H7 by reflexivity.
  assert (0%nat ∉ aborted (world svc)) as H8 by (simpl; apply not_elem_of_empty).
  assert (1%nat ∉ aborted (world svc)) as H9 by (simpl; apply not_elem_of_empty).
  assert (1 <= retry networkOptions) as H10 by (vm_compute; discriminate).
  assert (thrown_by o = Some (http_error 503 "Service Unavailable")) as H11 by reflexivity.
  assert (terminal_error (http_error 503 "Service Unavailable") = false) as H12
    by (vm_compute; reflexivity).
  split; [done|].
  exact (refetch_during_backoff_fails url networkOptions options refs hs 1000 1500 2100 2100
           svc 1 2 o _ H1 H2 H3 H4 H5 H6 H7 H8 H9 H10 H11 H12).
Defined.
